(** * helix-importer-ui: the JCR package builder ([js/shared/jcr.js])

    A shallow embedding of the path mapper, the asset resolver, the page
    and asset cache, the ancestor scaffold, the filter document and the
    package assembler of [jcr.js], followed by the properties established
    about them.

    Conventions of the embedding:
    - a JS string is a [string]; a JS value that may be [undefined] or
      [null] is an [option];
    - a JS exception is the [Throw] case of [outcome];
    - the module variables [jcrPages] and [jcrAssets] are the fields of
      [Cache]; every call on the outside world (DOMParser, XMLSerializer,
      fetch, console.error, JSZip, saveFile) is recorded as an [Event];
    - the browser's [URL] class, the DOM, the network and the clock are
      not part of the repository: they are the fields of [Browser], and
      every general theorem holds for each of their behaviours;
    - an [async] function is run to completion where it is awaited; the
      callbacks handed to [Promise.all] each run up to their first
      request on the network, in array order, and are resumed in the
      order the platform decides ([promiseAll]).

    [toggleLoadingButton] (the progress indicator of a button) is
    embedded on a small model of the DOM; [loadComponents] (the optional
    fetch of the project's component documents) is not embedded. *)

From Stdlib Require Import String Ascii List Bool Arith Lia Permutation.
Import ListNotations.
Local Open Scope list_scope.
Local Open Scope string_scope.

(* ------------------------------------------------------------------ *)
(** ** JavaScript string and array primitives used by [jcr.js] *)
(* ------------------------------------------------------------------ *)

Module Js.

(** [s.startsWith(p)] *)
Fixpoint startsWith (s p : string) {struct p} : bool :=
  match p with
  | EmptyString => true
  | String c p' =>
      match s with
      | EmptyString => false
      | String d s' => Ascii.eqb d c && startsWith s' p'
      end
  end.

(** [s.includes(p)] *)
Fixpoint includes (s p : string) : bool :=
  startsWith s p ||
  match s with
  | EmptyString => false
  | String _ s' => includes s' p
  end.

(** [s.substring(n)] for [0 <= n] *)
Fixpoint drop (n : nat) (s : string) : string :=
  match n, s with
  | O, _ => s
  | S _, EmptyString => EmptyString
  | S n', String _ s' => drop n' s'
  end.

(** [s.substring(0, n)] for [0 <= n] *)
Fixpoint take (n : nat) (s : string) : string :=
  match n, s with
  | O, _ => EmptyString
  | S _, EmptyString => EmptyString
  | S n', String c s' => String c (take n' s')
  end.

(** [s.replace(p, '')]: the first occurrence of the string [p] is removed
    (a string pattern, unlike a global regular expression, is replaced
    once). *)
Fixpoint removeFirst (s p : string) : string :=
  if startsWith s p then drop (String.length p) s
  else match s with
       | EmptyString => EmptyString
       | String c s' => String c (removeFirst s' p)
       end.

(** [s.split(sep)] for a one-character separator: never the empty array. *)
Fixpoint split (sep : ascii) (s : string) : list string :=
  match s with
  | EmptyString => [EmptyString]
  | String c s' =>
      if Ascii.eqb c sep then EmptyString :: split sep s'
      else match split sep s' with
           | t :: ts => String c t :: ts
           | [] => [String c EmptyString]
           end
  end.

(** [a.pop()] read as a value: the last element, [undefined] on []. *)
Fixpoint pop (a : list string) : option string :=
  match a with
  | [] => None
  | [x] => Some x
  | _ :: a' => pop a'
  end.

(** An array element under [join] and under a template literal:
    [undefined] joins as the empty string and interpolates as the text
    "undefined". *)
Definition joinItem (v : option string) : string :=
  match v with Some s => s | None => "" end.

Definition tmpl (v : option string) : string :=
  match v with Some s => s | None => "undefined" end.

(** [a.join(sep)] on an array of strings; an array that may hold
    [undefined] is joined after [map joinItem]. *)
Fixpoint join (sep : string) (a : list string) : string :=
  match a with
  | [] => ""
  | [x] => x
  | x :: a' => x ++ sep ++ join sep a'
  end.

(** [a.splice(i, 1, x)] read as the array left behind: the start index is
    clamped to the length, so out of range the element is appended. *)
Definition splice1 {A} (i : nat) (x : A) (a : list A) : list A :=
  (firstn i a ++ x :: skipn (S i) a)%list.

(** [s.lastIndexOf(c)] as the number of characters before the last [c];
    [None] is JavaScript's -1. *)
Fixpoint lastIndexOf (c : ascii) (s : string) : option nat :=
  match s with
  | EmptyString => None
  | String d s' =>
      match lastIndexOf c s' with
      | Some n => Some (S n)
      | None => if Ascii.eqb d c then Some 0 else None
      end
  end.

(** JavaScript truthiness of a string-or-undefined value. *)
Definition truthy (v : option string) : bool :=
  match v with
  | Some EmptyString => false
  | Some _ => true
  | None => false
  end.

(** [a || b] on string-or-undefined values. *)
Definition orElse (a b : option string) : option string :=
  if truthy a then a else b.

(** [a.includes(x)] on an array of strings. *)
Definition arrayIncludes (a : list string) (x : string) : bool :=
  existsb (String.eqb x) a.

(** The text of a function of the platform, as [String] prints it. *)
Definition nativeFunction (name : string) : string :=
  "function " ++ name ++ "() { [native code] }".

(** [({})[key]] for a key that an object literal does not hold itself:
    what it inherits from [Object.prototype], [undefined] for any other
    key. The inherited values are functions and one object, all truthy;
    [jcr.js] only tests such a value and writes it into a template
    literal or an attribute, so it is kept here as the text that
    [String] makes of it. *)
Definition objectPrototype (key : string) : option string :=
  if String.eqb key "constructor" then Some (nativeFunction "Object")
  else if String.eqb key "__proto__" then Some "[object Object]"
  else if arrayIncludes
            ["__defineGetter__"; "__defineSetter__"; "hasOwnProperty";
             "__lookupGetter__"; "__lookupSetter__"; "isPrototypeOf";
             "propertyIsEnumerable"; "toString"; "valueOf";
             "toLocaleString"] key
       then Some (nativeFunction key)
  else None.

End Js.

(* ------------------------------------------------------------------ *)
(** ** Results of calls that may throw *)
(* ------------------------------------------------------------------ *)

Inductive JsError : Type :=
| TypeError (what : string).

Inductive outcome (A : Type) : Type :=
| Ok (a : A)
| Throw (e : JsError).

Arguments Ok {A} a.
Arguments Throw {A} e.

Definition obind {A B : Type} (r : outcome A) (k : A -> outcome B) : outcome B :=
  match r with
  | Ok a => k a
  | Throw e => Throw e
  end.

Declare Scope outcome_scope.
Delimit Scope outcome_scope with outcome.
Notation "'let?' x ':=' r 'in' k" := (obind r (fun x => k))
  (at level 10, x name, r at level 100, k at level 200) : outcome_scope.

(* ------------------------------------------------------------------ *)
(** ** The browser's URL objects *)
(* ------------------------------------------------------------------ *)

(** The fields of a [URL] object that [jcr.js] reads. [searchParams] is
    the ordered list of (key, value) pairs of the query. *)
Record URL : Type := mkURL {
  href : string;
  origin : string;
  pathname : string;
  searchParams : list (string * string)
}.

(** [params.keys()]: one key per pair, repeated keys repeated. *)
Definition searchParams_keys (p : list (string * string)) : list string :=
  map fst p.

(** [params.get(key)]: the value of the first pair with that key. *)
Fixpoint searchParams_get (p : list (string * string)) (key : string)
  : option string :=
  match p with
  | [] => None
  | (k, v) :: p' => if String.eqb k key then Some v else searchParams_get p' key
  end.

(* ------------------------------------------------------------------ *)
(** ** Data model *)
(* ------------------------------------------------------------------ *)

(** An input page, as handed to the builder by the importer. *)
Module Page.
Record t : Type := mk {
    path : string;
    data : string;
    url : string
}.
End Page.

(** A resolved page, an element of the [jcrPages] cache. *)
Module JcrPage.
Record t : Type := mk {
    path : string;
    sourceXml : string;
    pageProperties : list string;
    pageContentChildren : list string;
    processedXml : string;
    jcrPath : string;
    contentXmlPath : string;
    url : string
}.
End JcrPage.

(** The synthetic empty page of [getEmptyAncestorPages]. *)
Module Ancestor.
Record t : Type := mk {
    jcrPath : string;
    contentXmlPath : string;
    processedXml : string
}.
End Ancestor.

Definition Blob : Type := string.

(** The object returned by [getAsset]; [blob] and [mimeType] are the
    fields [fetchAssetData] sets later ([None]: unset or null). *)
Module Asset.
Record t : Type := mk {
    fileReference : string;
    processedFileRef : string;
    jcrPath : option string;
    url : option URL;
    add : bool;
    blob : option Blob;
    mimeType : option string
}.
End Asset.

(** What [getResourcePaths] reads of a resource: it is called on resolved
    pages (which have no [add] field) and on assets. *)
Class Resource (R : Type) : Type := {
  resource_add : R -> bool;
  resource_jcrPath : R -> option string
}.

#[export] Instance Resource_JcrPage : Resource JcrPage.t := {
  resource_add := fun _ => false;
  resource_jcrPath := fun p => Some (JcrPage.jcrPath p)
}.

#[export] Instance Resource_Asset : Resource Asset.t := {
  resource_add := Asset.add;
  resource_jcrPath := Asset.jcrPath
}.

(** The answer of the network to [fetch(href)]. *)
Inductive FetchResult : Type :=
| Response (ok : bool) (status : string) (body : Blob)
           (contentType : option string)
| NetworkError (error : string).

(** What is handed to the archive writer and to the filesystem writer. *)
Inductive Content : Type :=
| Text (s : string)
| Binary (b : option Blob)
| ZipArchive.

(** The calls [jcr.js] makes on its collaborators, in program order. *)
Inductive Event : Type :=
| DomParse (xml : string)
| XmlSerialize (xml : string)
| Fetch (href : string)
| ConsoleError (message : string)
| ZipFile (path : string) (content : Content)
| SaveFile (path : string) (content : Content)
| ZipGenerate.

(** The module variable [jcrPages] holds an array, or (between the
    assignment in [getJcrPages] and the caller's [await]) the promise of
    one. *)
Inductive PagesVar : Type :=
| PagesArray (pages : list JcrPage.t)
| PagesPromise (settled : outcome (list JcrPage.t)).

Record Cache : Type := mkCache {
  jcrPages : PagesVar;
  jcrAssets : list Asset.t
}.

(** [jcrPages.length === 0]: a promise has no [length]. *)
Definition pages_length_is_0 (v : PagesVar) : bool :=
  match v with
  | PagesArray [] => true
  | _ => false
  end.

(** [await jcrPages] *)
Definition await_pages (v : PagesVar) : outcome (list JcrPage.t) :=
  match v with
  | PagesArray l => Ok l
  | PagesPromise r => r
  end.

(** [jcrPages.map(...)], reading the module variable as an array. *)
Definition array_pages (v : PagesVar) : outcome (list JcrPage.t) :=
  match v with
  | PagesArray l => Ok l
  | PagesPromise _ => Throw (TypeError "jcrPages.map is not a function")
  end.

(* ------------------------------------------------------------------ *)
(** ** The program monad: cache passing, exceptions and an event trace *)
(* ------------------------------------------------------------------ *)

Definition M (A : Type) : Type := Cache -> outcome A * Cache * list Event.

Definition ret {A : Type} (a : A) : M A := fun c => (Ok a, c, []).

Definition throw {A} (e : JsError) : M A := fun c => (Throw e, c, []).

Definition bind {A B} (m : M A) (k : A -> M B) : M B :=
  fun c =>
    match m c with
    | (Ok a, c1, t1) =>
        match k a c1 with
        | (r, c2, t2) => (r, c2, (t1 ++ t2)%list)
        end
    | (Throw e, c1, t1) => (Throw e, c1, t1)
    end.

Definition lift {A} (r : outcome A) : M A := fun c => (r, c, []).

Definition emit (e : Event) : M unit := fun c => (Ok tt, c, [e]).

Definition getCache : M Cache := fun c => (Ok c, c, []).

Definition set_jcrPages (v : PagesVar) : M unit :=
  fun c => (Ok tt, mkCache v (jcrAssets c), []).

Definition set_jcrAssets (a : list Asset.t) : M unit :=
  fun c => (Ok tt, mkCache (jcrPages c) a, []).

Declare Scope prog_scope.
Delimit Scope prog_scope with prog.
Notation "x <- m ;; k" := (bind m (fun x => k))
  (at level 61, m at next level, right associativity) : prog_scope.
Notation "m ;; k" := (bind m (fun _ => k))
  (at level 61, right associativity) : prog_scope.

(** A [for] loop over an array, its body awaited at each pass: without
    a result ([forEachM]), and collecting the results ([mapM]). *)
Fixpoint forEachM {A} (f : A -> M unit) (a : list A) : M unit :=
  match a with
  | [] => ret tt
  | x :: a' => bind (f x) (fun _ => forEachM f a')
  end.

Fixpoint mapM {A B} (f : A -> M B) (a : list A) : M (list B) :=
  match a with
  | [] => ret []
  | x :: a' => bind (f x) (fun y => bind (mapM f a') (fun ys => ret (y :: ys)))
  end.

(** *** [Promise.all] over [async] callbacks

    A callback of [pages.map(async ...)] runs at once, up to the first
    [await] at which it has to wait: in [jcr.js], its first request on
    the network. [syncPart t] is that part of the trace [t] of a
    callback, [asyncPart t] what the callback does once it is resumed. *)
Fixpoint syncPart (t : list Event) : list Event :=
  match t with
  | [] => []
  | Fetch href :: _ => [Fetch href]
  | e :: t' => e :: syncPart t'
  end.

Fixpoint asyncPart (t : list Event) : list Event :=
  match t with
  | [] => []
  | Fetch _ :: t' => t'
  | _ :: t' => asyncPart t'
  end.

(** What a resumed callback does next: it makes a call on the outside
    world, or its promise settles. *)
Inductive Turn : Type :=
| Emits (e : Event)
| Settles (callback : nat).

Definition heads {X : Type} (queues : list (list X)) : list X :=
  flat_map (firstn 1) queues.

Definition tails {X : Type} (queues : list (list X)) : list (list X) :=
  map (skipn 1) queues.

(** The callbacks take turns, in array order. *)
Fixpoint inTurn {X : Type} (rounds : nat) (queues : list (list X))
  : list X :=
  match rounds with
  | O => []
  | S rounds' => (heads queues ++ inTurn rounds' (tails queues))%list
  end.

Fixpoint replaceAt {X : Type} (i : nat) (x : X) (l : list X) : list X :=
  match l, i with
  | [], _ => []
  | _ :: l', O => x :: l'
  | y :: l', S i' => y :: replaceAt i' x l'
  end.

(** [weave resumes queues]: the next turn is taken by the callback that
    [resumes] names, when it has a turn left; once [resumes] is used up,
    the callbacks take turns. *)
Fixpoint weave {X : Type} (resumes : list nat) (queues : list (list X))
  : list X :=
  match resumes with
  | [] => inTurn (length (concat queues)) queues
  | i :: resumes' =>
      match nth_error queues i with
      | Some (x :: queue) => x :: weave resumes' (replaceAt i queue queues)
      | _ => weave resumes' queues
      end
  end.

(** What each callback returns and emits. The module variables are
    passed from one callback to the next; the callbacks of [jcr.js]
    neither read nor assign them. *)
Fixpoint startAll {A : Type} (callbacks : list (M A))
  : Cache -> list (outcome A * list Event) * Cache :=
  fun c =>
    match callbacks with
    | [] => ([], c)
    | callback :: rest =>
        match callback c with
        | (r, c1, t) =>
            match startAll rest c1 with
            | (runs, c2) => ((r, t) :: runs, c2)
            end
        end
    end.

Definition turnsOf {A : Type} (run : nat * (outcome A * list Event))
  : list Turn :=
  (map Emits (asyncPart (snd (snd run))) ++ [Settles (fst run)])%list.

Definition emitted (turns : list Turn) : list Event :=
  flat_map (fun turn => match turn with
                        | Emits e => [e]
                        | Settles _ => []
                        end) turns.

Definition settledOrder (turns : list Turn) : list nat :=
  flat_map (fun turn => match turn with
                        | Emits _ => []
                        | Settles i => [i]
                        end) turns.

(** The value of [Promise.all] when no promise is rejected. *)
Fixpoint allOf {A : Type} (outcomes : list (outcome A)) : outcome (list A) :=
  match outcomes with
  | [] => Ok []
  | Ok a :: rest =>
      match allOf rest with
      | Ok l => Ok (a :: l)
      | Throw e => Throw e
      end
  | Throw e :: _ => Throw e
  end.

(** The rejection that comes first, the promises settling in [order]. *)
Fixpoint firstRejected {A : Type} (order : list nat)
    (outcomes : list (outcome A)) : option JsError :=
  match order with
  | [] => None
  | i :: order' =>
      match nth_error outcomes i with
      | Some (Throw e) => Some e
      | _ => firstRejected order' outcomes
      end
  end.

(** [Promise.all(a.map(f))], run to its settled promise, the platform
    resuming the callbacks in the order [resumes]. Every callback first
    runs its synchronous part, in array order; then the callbacks are
    resumed, each to its end, whether or not another one has thrown. The
    promise is rejected with the error of the callback that is the first
    to throw, and fulfilled with the results, in array order, when none
    throws; a rejection is kept as a value instead of being thrown. *)
Definition promiseAll {A : Type} (resumes : list nat)
    (callbacks : list (M A)) : M (outcome (list A)) :=
  fun c =>
    match startAll callbacks c with
    | (runs, c') =>
        let turns :=
          weave resumes
            (map turnsOf (combine (seq 0 (length runs)) runs)) in
        let outcomes := map fst runs in
        (Ok (match firstRejected (settledOrder turns) outcomes with
             | Some e => Throw e
             | None => allOf outcomes
             end),
         c',
         (flat_map (fun run => syncPart (snd run)) runs
          ++ emitted turns)%list)
    end.

(* ------------------------------------------------------------------ *)
(** ** Configuration and collaborators *)
(* ------------------------------------------------------------------ *)

(** The two constants at the head of [jcr.js]. *)
Record Config : Type := mkConfig {
  CUSTOM_SITE_NAME : option string;
  ADD_ASSET_TO_PACKAGE : bool
}.

Definition CUSTOM_SITE_NAME_DEFAULT : option string := None.
Definition ADD_ASSET_TO_PACKAGE_DEFAULT : bool := true.

(** The configuration the source file ships with. *)
Definition shipped : Config :=
  mkConfig CUSTOM_SITE_NAME_DEFAULT ADD_ASSET_TO_PACKAGE_DEFAULT.

(** The [jcr:content] element of a parsed page, as far as it is read. *)
Record Element : Type := mkElement {
  getAttributeNames : list string;
  children_tagName : list string
}.

(** What one pass of the rewriting loop of [getProcessedJcr] sets on an
    element carrying [fileReference]. *)
Record Rewrite : Type := mkRewrite {
  set_fileReference : string;
  set_fileReferenceMimeType : option string
}.

(** The platform the module runs on.
    - [newURL s] is [new URL(s)], [None] when it throws;
    - [fileReferences xml] are the [fileReference] attribute values of
      [parse(xml).querySelectorAll('[fileReference]')], in document order;
    - [jcrContent xml] is [getElementsByTagNameNS(jcr, 'content')[0]];
    - [serialize xml rs] is the serialization of the parsed [xml] after
      the attribute updates [rs] on those elements;
    - [fetch href] is the answer of the network;
    - [now] is [new Date().toISOString()];
    - [resumes] is the order in which the suspended callbacks of
      [Promise.all] are resumed, each named by its index. *)
Record Browser : Type := mkBrowser {
  newURL : string -> option URL;
  fileReferences : string -> list string;
  jcrContent : string -> option Element;
  serialize : string -> list Rewrite -> string;
  fetch : string -> FetchResult;
  now : string;
  resumes : list nat
}.

Inductive DirHandle : Type :=
| directory (name : string).

(** Templates holding double quotes are written with a backquote in
    their place. *)
Fixpoint dq (s : string) : string :=
  match s with
  | EmptyString => EmptyString
  | String c s' =>
      String (if Ascii.eqb c "`"%char then "034"%char else c) (dq s')
  end.

Definition nl : string := String "010"%char EmptyString.

Definition option_string_eqb (a b : option string) : bool :=
  match a, b with
  | Some x, Some y => String.eqb x y
  | None, None => true
  | _, _ => false
  end.

(* ------------------------------------------------------------------ *)
(** ** The program *)
(* ------------------------------------------------------------------ *)

Section Program.

Variable cfg : Config.
Variable web : Browser.

Local Open Scope outcome_scope.

Definition new_URL (s : string) : outcome URL :=
  match newURL web s with
  | Some u => Ok u
  | None => Throw (TypeError "Invalid URL")
  end.

(** [init] *)
Definition init : M unit :=
  fun _ => (Ok tt, mkCache (PagesArray []) [], []).

(** [getSiteName]: [undefined] when the project URL has no second path
    segment. *)
Definition getSiteName (projectUrl : string) : outcome (option string) :=
  if Js.truthy (CUSTOM_SITE_NAME cfg) then Ok (CUSTOM_SITE_NAME cfg)
  else
    let? u := new_URL projectUrl in
    Ok (nth_error (Js.split "/" (pathname u)) 2).

(** [getPackageName] *)
Definition getPackageName (pages : list Page.t) (projectUrl : string)
  : outcome string :=
  let? siteName := getSiteName projectUrl in
  match pages with
  | [page] =>
      let pageName := Js.pop (Js.split "/" (Page.path page)) in
      Ok (Js.tmpl siteName ++ "_" ++ Js.tmpl pageName)
  | _ => Ok (Js.tmpl siteName)
  end.

(** [getJcrPagePath] *)
Definition getJcrPagePath (path projectUrl : string) : outcome string :=
  let? siteName := getSiteName projectUrl in
  if Js.startsWith path "/content/" then
    let tokens := map Some (Js.split "/" path) in
    let tokens := Js.splice1 2 siteName tokens in
    Ok (Js.join "/" (map Js.joinItem tokens))
  else Ok ("/content/" ++ Js.tmpl siteName ++ path).

(** The [extension] and [path] constants of [getJcrAssetPath]. *)
Definition assetExtension (assetUrl : URL) : string :=
  if Js.includes (pathname assetUrl) "."
  then "." ++ Js.tmpl (Js.pop (Js.split "." (pathname assetUrl)))
  else "".

Definition assetBase (assetUrl : URL) : string :=
  Js.removeFirst (pathname assetUrl) (assetExtension assetUrl).

(** The [suffix] constant of [getJcrAssetPath]. *)
Definition querySuffix (params : list (string * string)) : string :=
  Js.join ""
    (map (fun key => "_" ++ key ++
                     match searchParams_get params key with
                     | Some v => v
                     | None => "null"
                     end)
         (searchParams_keys params)).

(** [getJcrAssetPath] *)
Definition getJcrAssetPath (assetUrl : URL) (projectUrl : string)
  : outcome string :=
  let? siteName := getSiteName projectUrl in
  let params := searchParams assetUrl in
  let extension := assetExtension assetUrl in
  let path := assetBase assetUrl in
  if Js.startsWith path "/content/dam/" then
    let tokens := map Some (Js.split "/" path) in
    let tokens := Js.splice1 3 siteName tokens in
    Ok (Js.join "/" (map Js.joinItem tokens) ++ extension)
  else
    let suffix := querySuffix params in
    Ok ("/content/dam/" ++ Js.tmpl siteName ++ path ++ suffix ++ extension).

(** [getMimeTypeFromExtension]: a lookup in an object literal, which
    also finds what the literal inherits. *)
Definition getMimeTypeFromExtension (extension : option string)
  : option string :=
  match extension with
  | Some "html" => Some "text/html"
  | Some "css" => Some "text/css"
  | Some "js" => Some "application/javascript"
  | Some "png" => Some "image/png"
  | Some "jpg" => Some "image/jpeg"
  | Some "gif" => Some "image/gif"
  | Some key => Js.objectPrototype key
  | None => None
  end.

(** [getAssetXml] *)
Definition getAssetXml (mimeType : option string) : string :=
  dq "<?xml version=`1.0` encoding=`UTF-8`?>
    <jcr:root xmlns:jcr=`http://www.jcp.org/jcr/1.0` xmlns:dam=`http://www.day.com/dam/1.0` xmlns:tiff=`http://ns.adobe.com/tiff/1.0/` xmlns:nt=`http://www.jcp.org/jcr/nt/1.0` xmlns:mix=`http://www.jcp.org/jcr/mix/1.0` xmlns:cq=`http://www.day.com/jcr/cq/1.0` xmlns:dc=`http://purl.org/dc/elements/1.1/` xmlns:exif=`http://ns.adobe.com/exif/1.0/`
        jcr:mixinTypes=`[mix:referenceable]`
        jcr:primaryType=`dam:Asset`>
        <jcr:content
            jcr:primaryType=`dam:AssetContent`>
            <metadata
                dc:format=`" ++ Js.tmpl mimeType ++ dq "`
                jcr:mixinTypes=`[cq:Taggable]`
                jcr:primaryType=`nt:unstructured`/>
            <related jcr:primaryType=`nt:unstructured`/>
        </jcr:content>
    </jcr:root>".

(** [fetchAssetData]: the asset is returned with [blob] and [mimeType]
    assigned. The handler of [.catch] logs and returns nothing, so after a
    rejected fetch the destructuring of the awaited value throws. *)
Definition fetchAssetData (asset : Asset.t) : M Asset.t :=
  match Asset.url asset with
  | Some u =>
      let assign (blob : option Blob) (mimeType : option string) :=
        Asset.mk (Asset.fileReference asset) (Asset.processedFileRef asset)
          (Asset.jcrPath asset) (Asset.url asset) (Asset.add asset)
          blob
          (Js.orElse mimeType
             (getMimeTypeFromExtension (Js.pop (Js.split "." (pathname u)))))
      in
      (emit (Fetch (href u)) ;;
       match fetch web (href u) with
       | Response ok status body contentType =>
           if negb ok then
             emit (ConsoleError ("Failed to fetch image: " ++ status)) ;;
             ret (assign None None)
           else ret (assign (Some body) contentType)
       | NetworkError error =>
           emit (ConsoleError ("Fetch failed with error: " ++ error)) ;;
           throw (TypeError "Cannot destructure property blob of undefined")
       end)%prog
  | None => ret asset
  end.

(** [getAsset]; the argument is [None] for a missing reference. *)
Definition getAsset (fileReference : option string)
    (pageUrl projectUrl : string) : outcome (option Asset.t) :=
  match fileReference with
  | None => Ok None
  | Some "" => Ok None
  | Some fileReference =>
      let? pu := new_URL pageUrl in
      let host := origin pu in
      let resolved (url : URL) (add : bool) :=
        let? jcrPath := getJcrAssetPath url projectUrl in
        Ok (Some (Asset.mk fileReference jcrPath (Some jcrPath) (Some url)
                    add None None)) in
      let? pu' := new_URL pageUrl in
      let pagePath := pathname pu' in
      if Js.startsWith fileReference "http" then
        let? url := new_URL fileReference in
        if String.eqb (origin url) host then resolved url true
        else Ok (Some (Asset.mk fileReference fileReference None (Some url)
                         false None None))
      else if Js.startsWith fileReference "/content/dam/" then
        let? url := new_URL (host ++ fileReference) in
        resolved url (ADD_ASSET_TO_PACKAGE cfg)
      else if Js.startsWith fileReference "/" then
        let? url := new_URL (host ++ fileReference) in
        resolved url true
      else if Js.startsWith fileReference "./" then
        let parentPath :=
          Js.take (match Js.lastIndexOf "/" pagePath with
                   | Some n => n
                   | None => 0
                   end) pagePath in
        let? url := new_URL (host ++ parentPath ++ Js.drop 1 fileReference) in
        resolved url true
      else Ok (Some (Asset.mk fileReference fileReference None None
                       false None None))
  end.

(** [getProcessedFileRef]: reads a field of the result of [getAsset]
    without testing it for [null]. *)
Definition getProcessedFileRef (fileReference : option string)
    (pageUrl projectUrl : string) : outcome string :=
  let? asset := getAsset fileReference pageUrl projectUrl in
  match asset with
  | Some asset => Ok (Asset.processedFileRef asset)
  | None => Throw (TypeError "Cannot read properties of null")
  end.

Local Open Scope prog_scope.

(** [addAsset] *)
Definition addAsset (asset : Asset.t) (dirHandle : DirHandle)
    (prefix : string) : M Asset.t :=
  asset <- fetchAssetData asset ;;
  let zipAssetPath :=
    "jcr_root" ++ Js.tmpl (Asset.jcrPath asset) ++ "/.content.xml" in
  let fileAssetPath := prefix ++ "/" ++ zipAssetPath in
  let assetXml := getAssetXml (Asset.mimeType asset) in
  emit (ZipFile zipAssetPath (Text assetXml)) ;;
  emit (SaveFile fileAssetPath (Text assetXml)) ;;
  let zipAssetOriginalPath :=
    "jcr_root" ++ Js.tmpl (Asset.jcrPath asset)
    ++ "/_jcr_content/renditions/original" in
  let fileAssetOriginalPath := prefix ++ "/" ++ zipAssetOriginalPath in
  emit (ZipFile zipAssetOriginalPath (Binary (Asset.blob asset))) ;;
  emit (SaveFile fileAssetOriginalPath (Binary (Asset.blob asset))) ;;
  ret asset.

(** [addPage]: reads [contentXmlPath] and [processedXml] of a resolved
    page or of an empty ancestor page. *)
Definition addPage (contentXmlPath processedXml : string)
    (dirHandle : DirHandle) (prefix : string) : M unit :=
  emit (ZipFile contentXmlPath (Text processedXml)) ;;
  emit (SaveFile (prefix ++ "/" ++ contentXmlPath) (Text processedXml)).

(** [getResourcePaths] *)
Definition getResourcePaths {R : Type} `{Resource R}
    (resources : list R) (isAsset : bool) : list string :=
  let mapped :=
    map (fun resource =>
           if (isAsset && resource_add resource
               && Js.truthy (resource_jcrPath resource))
              || (negb isAsset && Js.truthy (resource_jcrPath resource))
           then resource_jcrPath resource
           else None) resources in
  flat_map (fun path => match path with Some p => [p] | None => [] end)
    mapped.

(** [getPropertiesXml] *)
Definition getPropertiesXml (packageName : string) : string * string :=
  let author := "anonymous" in
  let now := now web in
  let propXml := "<?xml version='1.0' encoding='UTF-8'?>
    <!DOCTYPE properties SYSTEM 'http://java.sun.com/dtd/properties.dtd'>
    <properties>
    <comment>FileVault Package Properties</comment>
    <entry key='description'></entry>
    <entry key='generator'>org.apache.jackrabbit.vault:3.7.1-T20231005151103-335689a8</entry>
    <entry key='packageType'>content</entry>
    <entry key='lastWrappedBy'>" ++ author ++ "</entry>
    <entry key='packageFormatVersion'>2</entry>
    <entry key='group'>my_packages</entry>
    <entry key='created'>" ++ now ++ "</entry>
    <entry key='lastModifiedBy'>" ++ author ++ "</entry>
    <entry key='buildCount'>1</entry>
    <entry key='lastWrapped'>" ++ now ++ "</entry>
    <entry key='version'></entry>
    <entry key='dependencies'></entry>
    <entry key='createdBy'>" ++ author ++ "</entry>
    <entry key='name'>" ++ packageName ++ "</entry>
    <entry key='lastModified'>" ++ now ++ "</entry>
    </properties>" in
  let propXmlPath := "META-INF/vault/properties.xml" in
  (propXmlPath, propXml).

(** One pass of the loop of [getProcessedJcr] over an element carrying
    [fileReference]. *)
Definition processImage (pageUrl projectUrl fileReference : string)
  : M Rewrite :=
  processedFileRef <-
    lift (getProcessedFileRef (Some fileReference) pageUrl projectUrl) ;;
  mime <-
    (if Js.startsWith fileReference "http" then
       asset <- lift (getAsset (Some fileReference) pageUrl projectUrl) ;;
       match asset with
       | None => throw (TypeError "Cannot read properties of null")
       | Some asset =>
           if negb (Asset.add asset) then
             asset <- fetchAssetData asset ;;
             ret (if Js.truthy (Asset.mimeType asset)
                  then Asset.mimeType asset else None)
           else ret None
       end
     else ret None) ;;
  ret (mkRewrite processedFileRef mime).

(** [getProcessedJcr] *)
Definition getProcessedJcr (xml pageUrl projectUrl : string) : M string :=
  emit (DomParse xml) ;;
  let images := fileReferences web xml in
  rewrites <- mapM (processImage pageUrl projectUrl) images ;;
  emit (XmlSerialize xml) ;;
  ret (serialize web xml rewrites).

(** [getPageProperties] *)
Definition getPageProperties (xml : string) : M (list string) :=
  emit (DomParse xml) ;;
  ret (match jcrContent web xml with
       | Some jcrContent => getAttributeNames jcrContent
       | None => []
       end).

(** [getPageContentChildren] *)
Definition getPageContentChildren (xml : string) : M (list string) :=
  emit (DomParse xml) ;;
  ret (match jcrContent web xml with
       | Some jcrContent => children_tagName jcrContent
       | None => []
       end).

(** The callback of [pages.map] in [getJcrPages]. *)
Definition resolvePage (projectUrl : string) (page : Page.t)
  : M JcrPage.t :=
  pageProperties <- getPageProperties (Page.data page) ;;
  pageContentChildren <- getPageContentChildren (Page.data page) ;;
  processedXml <-
    getProcessedJcr (Page.data page) (Page.url page) projectUrl ;;
  jcrPath <- lift (getJcrPagePath (Page.path page) projectUrl) ;;
  jcrPath' <- lift (getJcrPagePath (Page.path page) projectUrl) ;;
  ret (JcrPage.mk (Page.path page) (Page.data page) pageProperties
         pageContentChildren processedXml jcrPath
         ("jcr_root" ++ jcrPath' ++ "/.content.xml") (Page.url page)).

(** [getJcrPages]: one callback per page is handed to [Promise.all]; the
    module variable is left holding the promise, which the callers await
    and assign back. *)
Definition getJcrPages (pages : list Page.t) (projectUrl : string)
  : M (list JcrPage.t) :=
  c <- getCache ;;
  (if pages_length_is_0 (jcrPages c) then
     settled <- promiseAll (resumes web)
                  (map (resolvePage projectUrl) pages) ;;
     set_jcrPages (PagesPromise settled)
   else ret tt) ;;
  c <- getCache ;;
  lift (await_pages (jcrPages c)).

(** The body of the inner loop of [getJcrAssets]. *)
Definition collectAsset (pageUrl projectUrl fileReference : string)
  : M unit :=
  asset <- lift (getAsset (Some fileReference) pageUrl projectUrl) ;;
  c <- getCache ;;
  match asset with
  | Some asset =>
      if Asset.add asset
         && negb (existsb (fun a => option_string_eqb (Asset.jcrPath a)
                                      (Asset.jcrPath asset))
                    (jcrAssets c))
      then set_jcrAssets (jcrAssets c ++ [asset])%list
      else ret tt
  | None => ret tt
  end.

(** [getJcrAssets] *)
Definition getJcrAssets (pages : list Page.t) (projectUrl : string)
  : M (list Asset.t) :=
  c <- getCache ;;
  (if Nat.eqb (length (jcrAssets c)) 0 then
     resolved <- getJcrPages pages projectUrl ;;
     set_jcrPages (PagesArray resolved) ;;
     forEachM (fun page =>
                 emit (DomParse (JcrPage.sourceXml page)) ;;
                 let images := fileReferences web (JcrPage.sourceXml page) in
                 forEachM (collectAsset (JcrPage.url page) projectUrl)
                   images)
       resolved
   else ret tt) ;;
  c <- getCache ;;
  ret (jcrAssets c).

(** [getJcrPaths]: the page paths are read from the module variable
    after [getJcrAssets] has run. *)
Definition getJcrPaths (pages : list Page.t) (projectUrl : string)
  : M (list string) :=
  resolved <- getJcrPages pages projectUrl ;;
  set_jcrPages (PagesArray resolved) ;;
  assets <- getJcrAssets pages projectUrl ;;
  set_jcrAssets assets ;;
  c <- getCache ;;
  pagesNow <- lift (array_pages (jcrPages c)) ;;
  ret (getResourcePaths pagesNow false ++ getResourcePaths assets true)%list.

(** [getJcrAssetPaths] *)
Definition getJcrAssetPaths (pages : list Page.t) (projectUrl : string)
  : M (list string) :=
  assets <- getJcrAssets pages projectUrl ;;
  set_jcrAssets assets ;;
  ret (getResourcePaths assets true).

Definition ancestorXml : string :=
  dq "<?xml version=`1.0` encoding=`UTF-8`?>
    <jcr:root xmlns:jcr=`http://www.jcp.org/jcr/1.0` xmlns:nt=`http://www.jcp.org/jcr/nt/1.0` xmlns:cq=`http://www.day.com/jcr/cq/1.0` xmlns:sling=`http://sling.apache.org/jcr/sling/1.0` jcr:primaryType=`cq:Page`>
        <jcr:content cq:template=`/libs/core/franklin/templates/page` jcr:primaryType=`cq:PageContent` sling:resourceType=`core/franklin/components/page/v1/page`/>
    </jcr:root>".

(** The [for] loop of [getEmptyAncestorPages] for one page path: [i]
    runs from 2 while [i < pathSegments.length - 1]; the loop state is
    [ancestorPath] and the array [emptyAncestors]. *)
Definition ancestorStep (jcrPaths pathSegments : list string)
    (st : string * list Ancestor.t) (i : nat) : string * list Ancestor.t :=
  let (ancestorPath, emptyAncestors) := st in
  let ancestorPath := ancestorPath ++ "/" ++ Js.tmpl (nth_error pathSegments i) in
  if negb (Js.arrayIncludes jcrPaths ancestorPath) then
    (ancestorPath,
     (emptyAncestors
      ++ [Ancestor.mk ancestorPath
            ("jcr_root" ++ ancestorPath ++ "/.content.xml") ancestorXml])%list)
  else (ancestorPath, emptyAncestors).

Definition ancestorLoop (jcrPaths : list string)
    (emptyAncestors : list Ancestor.t) (pagePath : string)
  : list Ancestor.t :=
  let pathSegments := Js.split "/" pagePath in
  snd (fold_left (ancestorStep jcrPaths pathSegments)
         (seq 2 (length pathSegments - 1 - 2))
         ("/content", emptyAncestors)).

(** [getEmptyAncestorPages] *)
Definition getEmptyAncestorPages (pages : list JcrPage.t)
  : list Ancestor.t :=
  let jcrPaths := map JcrPage.jcrPath pages in
  fold_left (ancestorLoop jcrPaths) jcrPaths [].

(** The two reducers of [getFilterXml]. *)
Definition pageFilter (acc : string) (page : JcrPage.t) : string :=
  let propertiesFilter :=
    Js.join nl
      (map (fun prop =>
              "<include pattern='" ++ JcrPage.jcrPath page ++ "/jcr:content/"
              ++ prop ++ "' matchProperties='true'/>")
         (JcrPage.pageProperties page)) in
  let childrenFilter :=
    Js.join nl
      (map (fun child =>
              "<filter root='" ++ JcrPage.jcrPath page ++ "/jcr:content/"
              ++ child ++ "'/>")
         (JcrPage.pageContentChildren page)) in
  acc ++ "<filter root='" ++ JcrPage.jcrPath page ++ "/jcr:content'>" ++ nl
  ++ propertiesFilter ++ nl ++ "</filter>" ++ nl ++ childrenFilter ++ nl.

Definition assetFilter (acc path : string) : string :=
  acc ++ "<filter root='" ++ path ++ "'/>" ++ nl.

(** The text of the filter document for given resolved pages and asset
    paths. *)
Definition filterXmlOf (resolved : list JcrPage.t)
    (jcrAssetPaths : list string) : string :=
  let pageFilters := fold_left pageFilter resolved "" in
  let assetFilters := fold_left assetFilter jcrAssetPaths "" in
  "<?xml version='1.0' encoding='UTF-8'?>
    <workspaceFilter version='1.0'>
      " ++ pageFilters ++ "
      " ++ assetFilters ++ "
    </workspaceFilter>".

(** [getFilterXml]: [pageFilters] is computed from the module variable
    right after it is assigned, before the asset paths are asked for. *)
Definition getFilterXml (pages : list Page.t) (projectUrl : string)
  : M (string * string) :=
  resolved <- getJcrPages pages projectUrl ;;
  set_jcrPages (PagesArray resolved) ;;
  jcrAssetPaths <- getJcrAssetPaths pages projectUrl ;;
  let filterXml := filterXmlOf resolved jcrAssetPaths in
  let filterXmlPath := "META-INF/vault/filter.xml" in
  ret (filterXmlPath, filterXml).

(** [addFilterXml] *)
Definition addFilterXml (pages : list Page.t) (projectUrl : string)
    (dirHandle : DirHandle) (prefix : string) : M unit :=
  r <- getFilterXml pages projectUrl ;;
  let (filterXmlPath, filterXml) := r in
  emit (ZipFile filterXmlPath (Text filterXml)) ;;
  emit (SaveFile (prefix ++ "/" ++ filterXmlPath) (Text filterXml)).

(** [addPropertiesXml] *)
Definition addPropertiesXml (dirHandle : DirHandle) (prefix : string)
    (pages : list Page.t) (packageName : string) : M unit :=
  let (propXmlPath, propXml) := getPropertiesXml packageName in
  emit (ZipFile propXmlPath (Text propXml)) ;;
  emit (SaveFile (prefix ++ "/" ++ propXmlPath) (Text propXml)).

(** The loop over [jcrAssets] in [createJcrPackage]: [addAsset] assigns
    [blob] and [mimeType] on the cached object itself. *)
Fixpoint addAssets (dirHandle : DirHandle) (prefix : string)
    (done todo : list Asset.t) : M unit :=
  match todo with
  | [] => ret tt
  | asset :: rest =>
      asset' <- addAsset asset dirHandle prefix ;;
      set_jcrAssets (done ++ asset' :: rest)%list ;;
      addAssets dirHandle prefix (done ++ [asset'])%list rest
  end.

(** [createJcrPackage]; the closing [zip.generateAsync(...).then(...)] is
    not awaited by the source and is recorded last. *)
Definition createJcrPackage (dirHandle : DirHandle) (pages : list Page.t)
    (projectUrl : string) : M unit :=
  if Nat.eqb (length pages) 0 then ret tt
  else
    init ;;
    packageName <- lift (getPackageName pages projectUrl) ;;
    let prefix := "jcr" in
    resolved <- getJcrPages pages projectUrl ;;
    set_jcrPages (PagesArray resolved) ;;
    forEachM (fun page =>
                addPage (JcrPage.contentXmlPath page)
                  (JcrPage.processedXml page) dirHandle prefix)
      resolved ;;
    let emptyAncestorPages := getEmptyAncestorPages resolved in
    forEachM (fun page =>
                addPage (Ancestor.contentXmlPath page)
                  (Ancestor.processedXml page) dirHandle prefix)
      emptyAncestorPages ;;
    assets <- getJcrAssets pages projectUrl ;;
    set_jcrAssets assets ;;
    addAssets dirHandle prefix [] assets ;;
    addFilterXml pages projectUrl dirHandle prefix ;;
    addPropertiesXml dirHandle prefix pages packageName ;;
    emit ZipGenerate ;;
    emit (SaveFile (prefix ++ "/" ++ packageName ++ ".zip") ZipArchive).

End Program.

(* ------------------------------------------------------------------ *)
(** ** The loading indicator of a button ([toggleLoadingButton]) *)
(* ------------------------------------------------------------------ *)

(** DOM nodes as far as [toggleLoadingButton] looks at them: text, or an
    element with its local name, the properties assigned on it and its
    child nodes. *)
Inductive PropValue : Type :=
| BoolProp (b : bool)
| StringProp (s : string).

#[warnings="-register-all"] Inductive Node : Type :=
| TextNode (data : string)
| ElementNode (localName : string) (props : list (string * PropValue))
              (childNodes : list Node).

(** The type selector [sp-progress-circle]. *)
Definition isCircle (n : Node) : bool :=
  match n with
  | ElementNode localName _ _ => String.eqb localName "sp-progress-circle"
  | TextNode _ => false
  end.

(** [querySelector] followed by [remove]: the first match among the
    descendants, in document order, is taken out of its parent; [None]
    when nothing matches. *)
Fixpoint removeCircle (n : Node) : option Node :=
  match n with
  | TextNode _ => None
  | ElementNode localName props childNodes =>
      option_map (ElementNode localName props)
        ((fix removeCircleIn (l : list Node) : option (list Node) :=
            match l with
            | [] => None
            | child :: rest =>
                if isCircle child then Some rest
                else match removeCircle child with
                     | Some child' => Some (child' :: rest)
                     | None => option_map (cons child) (removeCircleIn rest)
                     end
            end) childNodes)
  end.

Fixpoint removeCircleIn (l : list Node) : option (list Node) :=
  match l with
  | [] => None
  | child :: rest =>
      if isCircle child then Some rest
      else match removeCircle child with
           | Some child' => Some (child' :: rest)
           | None => option_map (cons child) (removeCircleIn rest)
           end
  end.

(** The number of matches of the selector in a node and below it, and
    in a list of nodes. *)
Fixpoint circles (n : Node) : nat :=
  match n with
  | TextNode _ => 0
  | ElementNode _ _ childNodes =>
      (if isCircle n then 1 else 0)
      + (fix circlesIn (l : list Node) : nat :=
           match l with
           | [] => 0
           | child :: rest => circles child + circlesIn rest
           end) childNodes
  end.

Fixpoint circlesIn (l : list Node) : nat :=
  match l with
  | [] => 0
  | child :: rest => circles child + circlesIn rest
  end.

(** The element made by the [else] branch. *)
Definition newCircle : Node :=
  ElementNode "sp-progress-circle"
    [("indeterminate", BoolProp true); ("size", StringProp "s")] [].

(** [toggleLoadingButton]: the button after the call; a node that is not
    an element has no [querySelector]. *)
Definition toggleLoadingButton (button : Node) : outcome Node :=
  match button with
  | ElementNode localName props childNodes =>
      match removeCircleIn childNodes with
      | Some childNodes' => Ok (ElementNode localName props childNodes')
      | None => Ok (ElementNode localName props (newCircle :: childNodes))
      end
  | TextNode _ => Throw (TypeError "button.querySelector is not a function")
  end.

(** The matches below a node, the node itself left out. *)
Definition circlesBelow (n : Node) : nat :=
  match n with
  | ElementNode _ _ childNodes => circlesIn childNodes
  | TextNode _ => 0
  end.

(* ------------------------------------------------------------------ *)
(** ** The ancestors a page requires *)
(* ------------------------------------------------------------------ *)

(** Following the specification: the ancestor paths of a page path are
    obtained by walking its segments from the third one (the site, under
    [/content]) up to, and excluding, its final segment. *)
Fixpoint ancestorChain (ancestorPath : string) (segments : list string)
  : list string :=
  match segments with
  | [] => []
  | [_] => []
  | segment :: rest =>
      let ancestorPath := ancestorPath ++ "/" ++ segment in
      ancestorPath :: ancestorChain ancestorPath rest
  end.

Definition requiredAncestors (pagePath : string) : list string :=
  ancestorChain "/content" (skipn 2 (Js.split "/" pagePath)).

(** The object pushed by [getEmptyAncestorPages] for a path, and its
    test on the resolved page paths. *)
Definition emptyAncestor (ancestorPath : string) : Ancestor.t :=
  Ancestor.mk ancestorPath ("jcr_root" ++ ancestorPath ++ "/.content.xml")
    ancestorXml.

Definition notResolved (jcrPaths : list string) (ancestorPath : string)
  : bool := negb (Js.arrayIncludes jcrPaths ancestorPath).

(** The dedup invariant of the asset cache: no two entries share a
    [jcrPath]. *)
Definition uniquePaths (assets : list Asset.t) : Prop :=
  NoDup (map Asset.jcrPath assets).

(** Counting the calls on [DOMParser] and on [XMLSerializer] in a trace. *)
Definition isDomParse (e : Event) : bool :=
  match e with DomParse _ => true | _ => false end.

Definition isXmlSerialize (e : Event) : bool :=
  match e with XmlSerialize _ => true | _ => false end.

Definition parses (t : list Event) : nat := length (filter isDomParse t).

Definition serializations (t : list Event) : nat :=
  length (filter isXmlSerialize t).

(** An effect relates the cache before a run, the trace of the run and
    the cache after it; [related R m] says that every run of [m] has
    effect [R], whatever its outcome. *)
Definition Effect : Type := Cache -> list Event -> Cache -> Prop.

Definition related {A : Type} (R : Effect) (m : M A) : Prop :=
  forall c r c' t, m c = (r, c', t) -> R c t c'.

Definition unchanged : Effect := fun c _ c' => c' = c.

Definition sameAssets : Effect := fun c _ c' => jcrAssets c' = jcrAssets c.

Definition samePages : Effect := fun c _ c' => jcrPages c' = jcrPages c.

Definition keepsUnique : Effect :=
  fun c _ c' => uniquePaths (jcrAssets c) -> uniquePaths (jcrAssets c').

Definition quiet : Effect :=
  fun _ t _ => parses t = 0 /\ serializations t = 0.

Definition stateless {A : Type} (m : M A) : Prop := related unchanged m.

(** What one pass of the rewriting loop sets on an element. *)
Definition rewritten (cfg : Config) (web : Browser)
    (pageUrl projectUrl fileReference : string)
    (rw : Rewrite) : Prop :=
  getProcessedFileRef cfg web (Some fileReference) pageUrl projectUrl
  = Ok (set_fileReference rw)
  /\ (set_fileReferenceMimeType rw <> None ->
      Js.startsWith fileReference "http" = true
      /\ set_fileReference rw = fileReference)
  /\ set_fileReferenceMimeType rw <> Some "".

(** What a resolved page holds of its input page. *)
Definition resolves (cfg : Config) (web : Browser) (projectUrl : string) (page : Page.t)
    (resolved : JcrPage.t) : Prop :=
  JcrPage.path resolved = Page.path page
  /\ JcrPage.sourceXml resolved = Page.data page
  /\ JcrPage.url resolved = Page.url page
  /\ getJcrPagePath cfg web (Page.path page) projectUrl
     = Ok (JcrPage.jcrPath resolved)
  /\ JcrPage.contentXmlPath resolved
     = "jcr_root" ++ JcrPage.jcrPath resolved ++ "/.content.xml".

(** What a resolved page holds of the markup of its input page: the
    markup rewritten reference by reference, and the attribute names and
    the child names of its content node. *)
Definition rewritesPage (cfg : Config) (web : Browser) (projectUrl : string)
    (page : Page.t) (resolved : JcrPage.t) : Prop :=
  (exists rewrites,
      JcrPage.processedXml resolved
      = serialize web (Page.data page) rewrites
      /\ Forall2 (rewritten cfg web (Page.url page) projectUrl)
           (fileReferences web (Page.data page)) rewrites)
  /\ JcrPage.pageProperties resolved
     = match jcrContent web (Page.data page) with
       | Some jcrContent => getAttributeNames jcrContent
       | None => []
       end
  /\ JcrPage.pageContentChildren resolved
     = match jcrContent web (Page.data page) with
       | Some jcrContent => children_tagName jcrContent
       | None => []
       end.

(** An asset that the scan of [getJcrAssets] may collect: the classifier
    returned it, marked [add], for a reference of a resolved page. *)
Definition collectable (cfg : Config) (web : Browser) (projectUrl : string)
    (resolved : list JcrPage.t) (asset : Asset.t) : Prop :=
  Asset.add asset = true
  /\ exists page fileReference,
       In page resolved
       /\ In fileReference (fileReferences web (JcrPage.sourceXml page))
       /\ getAsset cfg web (Some fileReference) (JcrPage.url page) projectUrl
          = Ok (Some asset).

(** An asset that is included and resolved: marked [add], with a URL to
    fetch and a canonical path under [/content/dam/]. *)
Definition included (asset : Asset.t) : Prop :=
  Asset.add asset = true
  /\ Asset.url asset <> None
  /\ exists p, Asset.jcrPath asset = Some p
               /\ Js.startsWith p "/content/dam/" = true.

(** The effect of keeping a property of every cached asset. *)
Definition keepsAll (Q : Asset.t -> Prop) : Effect :=
  fun c _ c' => Forall Q (jcrAssets c) -> Forall Q (jcrAssets c').

(** The calls on the archive writer and on the filesystem writer in a
    trace, and the files handed to [zip.file], in order. *)
Definition isWrite (e : Event) : bool :=
  match e with
  | ZipFile _ _ | SaveFile _ _ | ZipGenerate => true
  | _ => false
  end.

Definition writes (t : list Event) : list Event := filter isWrite t.

Definition zipped (t : list Event) : list (string * Content) :=
  flat_map (fun e => match e with
                     | ZipFile path content => [(path, content)]
                     | _ => []
                     end) t.

(** Writing files the way [addPage], [addAsset], [addFilterXml] and
    [addPropertiesXml] do: into the archive, then to the directory under
    the prefix [jcr]. *)
Definition tandem (files : list (string * Content)) : list Event :=
  flat_map (fun f => [ZipFile (fst f) (snd f);
                      SaveFile ("jcr" ++ "/" ++ fst f) (snd f)]) files.

Definition writeless : Effect := fun _ t _ => writes t = [].

Definition inTandem : Effect := fun _ t _ => writes t = tandem (zipped t).

(** The requests a trace makes on the network, in order. *)
Definition fetched (t : list Event) : list string :=
  flat_map (fun e => match e with
                     | Fetch href => [href]
                     | _ => []
                     end) t.

Definition fetchless : Effect := fun _ t _ => fetched t = [].

(** The request [fetchAssetData] makes for an asset; and the request the
    rewriting of a page makes for a reference: one for an absolute
    reference that is not included, to read its mime type. *)
Definition assetFetch (asset : Asset.t) : list string :=
  match Asset.url asset with
  | Some u => [href u]
  | None => []
  end.

Definition referenceFetch (cfg : Config) (web : Browser)
    (pageUrl projectUrl fileReference : string) : list string :=
  if Js.startsWith fileReference "http" then
    match getAsset cfg web (Some fileReference) pageUrl projectUrl with
    | Ok (Some asset) => if Asset.add asset then [] else assetFetch asset
    | _ => []
    end
  else [].

Definition pageFetches (cfg : Config) (web : Browser) (projectUrl : string)
    (page : Page.t) : list string :=
  flat_map (referenceFetch cfg web (Page.url page) projectUrl)
    (fileReferences web (Page.data page)).

(** [ends R tail m]: a run of [m] that throws has effect [R]; a run that
    returns has effect [R] up to its last events, which are [tail]. *)
Definition ends {A : Type} (R : Effect) (tail : list Event) (m : M A)
  : Prop :=
  forall c r c' t,
    m c = (r, c', t) ->
    match r with
    | Ok _ => exists t0, t = (t0 ++ tail)%list /\ R c t0 c'
    | Throw _ => R c t c'
    end.

(** The files of a resolved page, of an empty ancestor page and of an
    asset, as [addPage] and [addAsset] write them. *)
Definition pageFile (page : JcrPage.t) : string * Content :=
  (JcrPage.contentXmlPath page, Text (JcrPage.processedXml page)).

Definition ancestorFile (page : Ancestor.t) : string * Content :=
  (Ancestor.contentXmlPath page, Text (Ancestor.processedXml page)).

Definition assetFiles (asset : Asset.t) : list (string * Content) :=
  [("jcr_root" ++ Js.tmpl (Asset.jcrPath asset) ++ "/.content.xml",
    Text (getAssetXml (Asset.mimeType asset)));
   ("jcr_root" ++ Js.tmpl (Asset.jcrPath asset)
    ++ "/_jcr_content/renditions/original",
    Binary (Asset.blob asset))].

(* ------------------------------------------------------------------ *)
(** ** Reading the filter document back *)
(* ------------------------------------------------------------------ *)







(** Names that can stand between single quotes: no quote in a path or a
    child name, and neither a quote nor an equals sign in a property
    name. *)
Fixpoint without (ch : ascii) (s : string) : bool :=
  match s with
  | EmptyString => true
  | String c s' => negb (Ascii.eqb c ch) && without ch s'
  end.





(** Counting the calls on [DOMParser] and on [XMLSerializer] for one
    markup, and the pages that hold it. *)
Definition isDomParseOf (xml : string) (e : Event) : bool :=
  match e with
  | DomParse x => String.eqb x xml
  | _ => false
  end.

Definition isXmlSerializeOf (xml : string) (e : Event) : bool :=
  match e with
  | XmlSerialize x => String.eqb x xml
  | _ => false
  end.

Definition parsesOf (xml : string) (t : list Event) : nat :=
  length (filter (isDomParseOf xml) t).

Definition serializationsOf (xml : string) (t : list Event) : nat :=
  length (filter (isXmlSerializeOf xml) t).

Definition pagesWith (xml : string) (pages : list Page.t) : nat :=
  length (filter (fun page => String.eqb (Page.data page) xml) pages).

Definition resolvedWith (xml : string) (resolved : list JcrPage.t) : nat :=
  length (filter (fun page => String.eqb (JcrPage.sourceXml page) xml)
            resolved).

Definition isFetchOf (url : string) (e : Event) : bool :=
  match e with
  | Fetch h => String.eqb h url
  | _ => false
  end.

(* ------------------------------------------------------------------ *)
(** ** A small platform to run the program on examples *)
(* ------------------------------------------------------------------ *)

Module Demo.

(** [cut c s]: the text before the first [c], and the text after it when
    there is one. *)
Fixpoint cut (c : ascii) (s : string) : string * option string :=
  match s with
  | EmptyString => (EmptyString, None)
  | String d s' =>
      if Ascii.eqb d c then (EmptyString, Some s')
      else let (a, b) := cut c s' in (String d a, b)
  end.

Definition parseQuery (q : string) : list (string * string) :=
  map (fun kv =>
         let (k, v) := cut "=" kv in
         (k, match v with Some v => v | None => "" end))
    (filter (fun kv => negb (String.eqb kv "")) (Js.split "&" q)).

(** URLs of the shape [http(s)://host/path?k=v&k=v], without fragment,
    escapes or dot segments: enough for the examples. *)
Definition newURL (s : string) : option URL :=
  let scheme :=
    if Js.startsWith s "https://" then Some "https://"
    else if Js.startsWith s "http://" then Some "http://"
    else None in
  match scheme with
  | None => None
  | Some scheme =>
      let (hostpath, query) := cut "?" (Js.drop (String.length scheme) s) in
      let (host, path) := cut "/" hostpath in
      if String.eqb host "" then None
      else Some (mkURL s (scheme ++ host)
                   (match path with Some p => "/" ++ p | None => "/" end)
                   (match query with Some q => parseQuery q | None => [] end))
  end.

(** Page markup is named, not parsed: [fileReferences] and [jcrContent]
    are tables over the names used in the examples. *)
Definition fileReferences (xml : string) : list string :=
  if String.eqb xml "<plain/>" then []
  else if String.eqb xml "<hero/>" then ["/media/a.png?width=100"]
  else if String.eqb xml "<gallery/>" then
    ["/media/a.png?width=100"; "./b.jpg"; "/media/a.png?width=100"]
  else if String.eqb xml "<external/>" then
    ["https://cdn.example.com/logo.png"; "https://cdn.example.com/logo.png"]
  else if String.eqb xml "<missing/>" then ["/missing/a.png"]
  else [].

Definition jcrContent (xml : string) : option Element :=
  if String.eqb xml "<plain/>" then Some (mkElement [] [])
  else if String.eqb xml "<hero/>" then
    Some (mkElement ["jcr:title"; "cq:template"] ["root"])
  else None.

Definition serialize (xml : string) (rs : list Rewrite) : string :=
  xml ++ Js.join ""
           (map (fun r => "[" ++ set_fileReference r ++ "|"
                          ++ Js.joinItem (set_fileReferenceMimeType r) ++ "]")
              rs).

(** The network: one host that answers, one path that is missing, and
    one host that is unreachable. *)
Definition fetch (href : string) : FetchResult :=
  if Js.startsWith href "https://down.example.com/" then
    NetworkError "TypeError: Failed to fetch"
  else if Js.includes href "/missing/" then
    Response false "404" "" None
  else Response true "200" ("bytes of " ++ href) (Some "image/png").

Definition web : Browser :=
  mkBrowser newURL fileReferences jcrContent serialize fetch
    "2024-05-01T00:00:00.000Z" [].

Definition projectUrl : string := "https://github.com/org/repo".

Definition empty : Cache := mkCache (PagesArray []) [].

Definition dir : DirHandle := directory "import".

(** Inputs of the examples. *)
Definition host : string := "https://main--repo--org.hlx.page".

Definition resizedA : URL :=
  mkURL "https://host/content/dam/other/images/a.png?width=100"
    "https://host" "/content/dam/other/images/a.png" [("width", "100")].

Definition resizedB : URL :=
  mkURL "https://host/content/dam/other/images/a.png?width=200"
    "https://host" "/content/dam/other/images/a.png" [("width", "200")].

Definition thumbA : URL :=
  mkURL "https://host/media/a.png?width=100"
    "https://host" "/media/a.png" [("width", "100")].

Definition thumbB : URL :=
  mkURL "https://host/media/a.png?width=200"
    "https://host" "/media/a.png" [("width", "200")].

Definition scriptUrl : URL :=
  mkURL "https://host/lib.js/app.js" "https://host" "/lib.js/app.js" [].

Definition versionedUrl : URL :=
  mkURL "https://host/v1.2/image" "https://host" "/v1.2/image" [].

Definition plainPage : Page.t :=
  Page.mk "/a/b" "<plain/>" (host ++ "/a/b").

Definition heroPage : Page.t :=
  Page.mk "/a/b" "<hero/>" (host ++ "/a/b").

Definition galleryPage : Page.t :=
  Page.mk "/a/c" "<gallery/>" (host ++ "/a/c").

Definition externalPage : Page.t :=
  Page.mk "/a/d" "<external/>" (host ++ "/a/d").

Definition unreachablePage : Page.t :=
  Page.mk "/a/b" "<hero/>" "https://down.example.com/a/b".

Definition missingPage : Page.t :=
  Page.mk "/a/e" "<missing/>" (host ++ "/a/e").

(** An asset whose bytes are missing on the host, before and after the
    fetch. *)
Definition missingAsset : Asset.t :=
  Asset.mk "/missing/a.png" "/content/dam/repo/missing/a.png"
    (Some "/content/dam/repo/missing/a.png")
    (newURL (host ++ "/missing/a.png")) true None None.

Definition missingFetched : Asset.t :=
  match fetchAssetData web missingAsset empty with
  | (Ok asset, _, _) => asset
  | _ => missingAsset
  end.

(** An asset whose path ends in a name that every object inherits, and
    whose bytes are missing as well. *)
Definition inheritedAsset : Asset.t :=
  Asset.mk "/missing/a.constructor"
    "/content/dam/repo/missing/a.constructor"
    (Some "/content/dam/repo/missing/a.constructor")
    (newURL (host ++ "/missing/a.constructor")) true None None.

Definition inheritedFetched : Asset.t :=
  match fetchAssetData web inheritedAsset empty with
  | (Ok asset, _, _) => asset
  | _ => inheritedAsset
  end.

(** Three builds from the empty cache, and what they leave in the cache. *)
Definition plainBuild : outcome unit * Cache * list Event :=
  createJcrPackage shipped web dir [plainPage] projectUrl empty.

Definition heroBuild : outcome unit * Cache * list Event :=
  createJcrPackage shipped web dir [heroPage] projectUrl empty.

Definition externalBuild : outcome unit * Cache * list Event :=
  createJcrPackage shipped web dir [externalPage] projectUrl empty.

Definition cacheAfter (run : outcome unit * Cache * list Event) : Cache :=
  snd (fst run).


(** The resolved pages of a build of two sibling pages. *)
Definition siblings : list JcrPage.t :=
  match getJcrPages shipped web [plainPage; galleryPage] projectUrl empty with
  | (Ok resolved, _, _) => resolved
  | _ => []
  end.

(** The asset collection of the two sibling pages. *)
Definition siblingAssets : list Asset.t :=
  match getJcrAssets shipped web [plainPage; galleryPage] projectUrl
          (mkCache (PagesArray siblings) []) with
  | (Ok assets, _, _) => assets
  | _ => []
  end.

(** A page whose second element carries an empty [fileReference], on a
    platform that knows its markup. *)
Definition blankPage : Page.t :=
  Page.mk "/a/f" "<blank/>" (host ++ "/a/f").

Definition webBlank : Browser :=
  mkBrowser newURL
    (fun xml => if String.eqb xml "<blank/>" then ["/media/a.png"; ""]
                else fileReferences xml)
    jcrContent serialize fetch "2024-05-01T00:00:00.000Z" [].

Definition blankBuild : outcome unit * Cache * list Event :=
  createJcrPackage shipped webBlank dir [plainPage; blankPage] projectUrl
    empty.

(** A button with a label and an icon, and the same button holding an
    indicator of its own inside the label. *)
Definition button : Node :=
  ElementNode "sp-button" [("id", StringProp "import")]
    [ElementNode "span" [] [TextNode "Import"];
     ElementNode "sp-icon" [] []].

Definition buttonWithOwn : Node :=
  ElementNode "sp-button" [("id", StringProp "import")]
    [ElementNode "span" []
       [TextNode "Import";
        ElementNode "sp-progress-circle" [("size", StringProp "m")] []];
     ElementNode "sp-icon" [] []].

(** Two pages that each reference two images of another host. *)
Definition leftPage : Page.t :=
  Page.mk "/a/l" "<left/>" (host ++ "/a/l").

Definition rightPage : Page.t :=
  Page.mk "/a/r" "<right/>" (host ++ "/a/r").

Definition pairReferences (xml : string) : list string :=
  if String.eqb xml "<left/>" then
    ["https://cdn.example.com/l1.png"; "https://cdn.example.com/l2.png"]
  else if String.eqb xml "<right/>" then
    ["https://cdn.example.com/r1.png"; "https://cdn.example.com/r2.png"]
  else fileReferences xml.

Definition webPair : Browser :=
  mkBrowser newURL pairReferences jcrContent serialize fetch
    "2024-05-01T00:00:00.000Z" [].

Definition pairBuild : outcome unit * Cache * list Event :=
  createJcrPackage shipped webPair dir [leftPage; rightPage] projectUrl
    empty.

(** The same two pages on a platform that resumes the callback of the
    right page first. *)
Definition webPairLate : Browser :=
  mkBrowser newURL pairReferences jcrContent serialize fetch
    "2024-05-01T00:00:00.000Z" [1].

Definition pairBuildLate : outcome unit * Cache * list Event :=
  createJcrPackage shipped webPairLate dir [leftPage; rightPage] projectUrl
    empty.

End Demo.

(* ------------------------------------------------------------------ *)
(** * Properties *)
(* ------------------------------------------------------------------ *)

(** ** Strings and arrays *)

Lemma append_nil_r (s : string) : s ++ "" = s.
Proof. induction s; simpl; congruence. Qed.

Lemma append_assoc (a b c : string) : (a ++ b) ++ c = a ++ b ++ c.
Proof. induction a; simpl; congruence. Qed.

Lemma append_length (a b : string) :
  String.length (a ++ b) = String.length a + String.length b.
Proof. induction a; simpl; congruence. Qed.

Lemma append_inj_l (a b c : string) : a ++ b = a ++ c -> b = c.
Proof. induction a; simpl; intros H; [assumption | injection H; auto]. Qed.

Lemma append_inj_r (a b c : string) : a ++ c = b ++ c -> a = b.
Proof.
  revert b; induction a as [|x a IH]; intros [|y b] H; simpl in *.
  - reflexivity.
  - apply (f_equal String.length) in H. simpl in H.
    rewrite append_length in H. lia.
  - apply (f_equal String.length) in H. simpl in H.
    rewrite append_length in H. lia.
  - injection H as -> H. f_equal. auto.
Qed.

Lemma startsWith_app (p s : string) : Js.startsWith (p ++ s) p = true.
Proof.
  induction p as [|c p IH]; simpl; [reflexivity|].
  now rewrite Ascii.eqb_refl, IH.
Qed.

Lemma startsWith_inv (s p : string) :
  Js.startsWith s p = true -> exists r, s = p ++ r.
Proof.
  revert s; induction p as [|c p IH]; intros s H; simpl in *.
  - now exists s.
  - destruct s as [|d s]; [discriminate|].
    apply andb_prop in H as [Hc Hs]. apply Ascii.eqb_eq in Hc as ->.
    destruct (IH _ Hs) as [r ->]. now exists r.
Qed.

Lemma split_cons (sep : ascii) (s : string) :
  exists t ts, Js.split sep s = t :: ts.
Proof.
  induction s as [|c s (t & ts & IH)]; simpl; [now eauto|].
  destruct (Ascii.eqb c sep); [now eauto|]. rewrite IH. eauto.
Qed.

Lemma join_cons (sep x : string) (a : list string) :
  exists r, Js.join sep (x :: a) = x ++ r.
Proof.
  destruct a as [|y a]; simpl.
  - exists "". now rewrite append_nil_r.
  - eauto.
Qed.

Lemma arrayIncludes_In (a : list string) (x : string) :
  Js.arrayIncludes a x = true <-> In x a.
Proof.
  unfold Js.arrayIncludes. rewrite existsb_exists. split.
  - intros (y & Hy & E). apply String.eqb_eq in E. now subst.
  - intros H. exists x. split; [assumption | apply String.eqb_refl].
Qed.

(* ------------------------------------------------------------------ *)
(** ** Path mapper *)
(* ------------------------------------------------------------------ *)

Section PathMapper.

Variable cfg : Config.
Variable web : Browser.

(** The site name is the override constant if one is configured, else the
    second path segment of the project URL. *)
Lemma getSiteName_spec (projectUrl : string) (siteName : option string) :
  getSiteName cfg web projectUrl = Ok siteName <->
  if Js.truthy (CUSTOM_SITE_NAME cfg) then siteName = CUSTOM_SITE_NAME cfg
  else exists u, newURL web projectUrl = Some u
                 /\ siteName = nth_error (Js.split "/" (pathname u)) 2.
Proof.
  unfold getSiteName, new_URL.
  destruct (Js.truthy (CUSTOM_SITE_NAME cfg)).
  - split; [now intros [= <-] | now intros ->].
  - destruct (newURL web projectUrl) as [u|]; simpl.
    + split; [intros [= <-]; eauto | now intros (u' & [= <-] & ->)].
    + split; [discriminate | now intros (u' & [=] & _)].
Qed.

Lemma getJcrPagePath_prefix (path projectUrl siteName : string) :
  getSiteName cfg web projectUrl = Ok (Some siteName) ->
  exists p, getJcrPagePath cfg web path projectUrl = Ok p
            /\ Js.startsWith p ("/content/" ++ siteName) = true.
Proof.
  intros Hs. unfold getJcrPagePath. rewrite Hs. cbn [obind].
  destruct (Js.startsWith path "/content/") eqn:Hp.
  - apply startsWith_inv in Hp as [r ->].
    destruct (split_cons "/" r) as (t & ts & Hr).
    eexists; split; [reflexivity|].
    cbn -[Js.join Js.startsWith]. rewrite Hr.
    cbn -[Js.join Js.startsWith].
    change (Js.join "/" ("" :: "content" :: siteName
                           :: map Js.joinItem (map Some ts)))
      with ("/content/" ++ Js.join "/" (siteName
                           :: map Js.joinItem (map Some ts))).
    destruct (join_cons "/" siteName (map Js.joinItem (map Some ts)))
      as [r' ->].
    rewrite <- append_assoc. apply startsWith_app.
  - eexists; split; [reflexivity|].
    cbn [Js.tmpl]. rewrite <- append_assoc. apply startsWith_app.
Qed.

Lemma getJcrAssetPath_prefix (assetUrl : URL) (projectUrl siteName : string) :
  getSiteName cfg web projectUrl = Ok (Some siteName) ->
  exists p, getJcrAssetPath cfg web assetUrl projectUrl = Ok p
            /\ Js.startsWith p ("/content/dam/" ++ siteName) = true.
Proof.
  intros Hs. unfold getJcrAssetPath. rewrite Hs. cbn [obind].
  destruct (Js.startsWith (assetBase assetUrl) "/content/dam/") eqn:Hp.
  - apply startsWith_inv in Hp as [r Hp]. rewrite Hp.
    destruct (split_cons "/" r) as (t & ts & Hr).
    eexists; split; [reflexivity|].
    cbn -[Js.join Js.startsWith]. rewrite Hr.
    cbn -[Js.join Js.startsWith].
    change (Js.join "/" ("" :: "content" :: "dam" :: siteName
                           :: map Js.joinItem (map Some ts)))
      with ("/content/dam/" ++ Js.join "/" (siteName
                           :: map Js.joinItem (map Some ts))).
    destruct (join_cons "/" siteName (map Js.joinItem (map Some ts)))
      as [r' ->].
    rewrite <- !append_assoc.
    rewrite (append_assoc ("/content/dam/" ++ siteName)).
    apply startsWith_app.
  - eexists; split; [reflexivity|].
    cbn [Js.tmpl]. rewrite <- append_assoc. apply startsWith_app.
Qed.

(** C7. Namespace containment: when the site name of the project is
    [siteName] (the override constant if configured, else the second path
    segment of the project URL), every page path is mapped below
    [/content/<siteName>] and every asset URL below
    [/content/dam/<siteName>]. *)
Theorem namespace_containment (projectUrl siteName : string) :
  getSiteName cfg web projectUrl = Ok (Some siteName) ->
  (if Js.truthy (CUSTOM_SITE_NAME cfg)
   then CUSTOM_SITE_NAME cfg = Some siteName
   else exists u, newURL web projectUrl = Some u
                  /\ nth_error (Js.split "/" (pathname u)) 2 = Some siteName)
  /\ (forall path, exists p,
         getJcrPagePath cfg web path projectUrl = Ok p
         /\ Js.startsWith p ("/content/" ++ siteName) = true)
  /\ (forall assetUrl, exists p,
         getJcrAssetPath cfg web assetUrl projectUrl = Ok p
         /\ Js.startsWith p ("/content/dam/" ++ siteName) = true).
Proof.
  intros Hs. split; [|split].
  - apply getSiteName_spec in Hs.
    destruct (Js.truthy (CUSTOM_SITE_NAME cfg)); [congruence|].
    destruct Hs as (u & Hu & E). eauto.
  - intros path. now apply getJcrPagePath_prefix.
  - intros assetUrl. now apply getJcrAssetPath_prefix.
Qed.

End PathMapper.

Lemma namespace_containment_witness :
  (exists p, getJcrPagePath shipped Demo.web "/content/other-site/foo"
               Demo.projectUrl = Ok p
             /\ Js.startsWith p "/content/repo" = true)
  /\ (exists p, getJcrAssetPath shipped Demo.web Demo.thumbA
                  Demo.projectUrl = Ok p
                /\ Js.startsWith p "/content/dam/repo" = true).
Proof.
  destruct (namespace_containment shipped Demo.web Demo.projectUrl "repo"
              eq_refl) as (_ & Hpage & Hasset).
  split; [apply Hpage | apply Hasset].
Defined.

(** The worked examples of the path mapper. *)
Example pagePath_content :
  getJcrPagePath shipped Demo.web "/content/other-site/foo" Demo.projectUrl
  = Ok "/content/repo/foo".
Proof. reflexivity. Qed.

Example pagePath_plain :
  getJcrPagePath shipped Demo.web "/foo/bar" Demo.projectUrl
  = Ok "/content/repo/foo/bar".
Proof. reflexivity. Qed.

Example assetPath_dam :
  getJcrAssetPath shipped Demo.web Demo.resizedA Demo.projectUrl
  = Ok "/content/dam/repo/images/a.png".
Proof. reflexivity. Qed.

Example assetPath_query :
  getJcrAssetPath shipped Demo.web Demo.thumbA Demo.projectUrl
  = Ok "/content/dam/repo/media/a_width100.png".
Proof. reflexivity. Qed.

Example packageName_single :
  getPackageName shipped Demo.web [Demo.plainPage] Demo.projectUrl
  = Ok "repo_b".
Proof. reflexivity. Qed.

Example packageName_many :
  getPackageName shipped Demo.web [Demo.plainPage; Demo.galleryPage]
    Demo.projectUrl
  = Ok "repo".
Proof. reflexivity. Qed.

(* ------------------------------------------------------------------ *)
(** ** Asset paths: extension split and query folding *)
(* ------------------------------------------------------------------ *)

(** C5. On the path [/lib.js/app.js] the split of [getJcrAssetPath] removes
    the first occurrence of the extension instead of the trailing one:
    base and extension no longer rebuild the path, and the canonical path
    carries the extension twice. On [/v1.2/image], whose final segment has
    no dot, the extension is taken across the segment boundary. *)
Theorem assetPath_split_failing_inputs :
  (assetExtension Demo.scriptUrl = ".js"
   /\ assetBase Demo.scriptUrl = "/lib/app.js"
   /\ assetBase Demo.scriptUrl ++ assetExtension Demo.scriptUrl
      <> pathname Demo.scriptUrl
   /\ getJcrAssetPath shipped Demo.web Demo.scriptUrl Demo.projectUrl
      = Ok "/content/dam/repo/lib/app.js.js")
  /\ (Js.includes "image" "." = false
      /\ assetExtension Demo.versionedUrl = ".2/image"
      /\ assetBase Demo.versionedUrl = "/v1").
Proof. repeat split; try reflexivity. discriminate. Qed.

(** Where the split is as intended: a path without a dot has no
    extension and is its own base. *)
Lemma assetPath_split_no_dot (assetUrl : URL) :
  Js.includes (pathname assetUrl) "." = false ->
  assetExtension assetUrl = "" /\ assetBase assetUrl = pathname assetUrl.
Proof.
  intros H. unfold assetBase, assetExtension. rewrite H. split.
  - reflexivity.
  - now destruct (pathname assetUrl).
Qed.

Section QueryFolding.

Variable cfg : Config.
Variable web : Browser.

Lemma assetExtension_pathname (u1 u2 : URL) :
  pathname u1 = pathname u2 -> assetExtension u1 = assetExtension u2.
Proof. unfold assetExtension. now intros ->. Qed.

Lemma assetBase_pathname (u1 u2 : URL) :
  pathname u1 = pathname u2 -> assetBase u1 = assetBase u2.
Proof.
  intros H. unfold assetBase.
  now rewrite (assetExtension_pathname _ _ H), H.
Qed.

(** C6, as the code has it. Two asset URLs with the same path are mapped
    to the same canonical path when the path lies under [/content/dam/]
    (the query is not read there); elsewhere their canonical paths differ
    exactly when their folded query suffixes differ. *)
Theorem assetPath_query_folding (u1 u2 : URL) (projectUrl p1 p2 : string) :
  pathname u1 = pathname u2 ->
  getJcrAssetPath cfg web u1 projectUrl = Ok p1 ->
  getJcrAssetPath cfg web u2 projectUrl = Ok p2 ->
  if Js.startsWith (assetBase u1) "/content/dam/" then p1 = p2
  else (p1 <> p2 <->
        querySuffix (searchParams u1) <> querySuffix (searchParams u2)).
Proof.
  intros Hpath. unfold getJcrAssetPath.
  rewrite <- (assetBase_pathname _ _ Hpath).
  rewrite <- (assetExtension_pathname _ _ Hpath).
  destruct (getSiteName cfg web projectUrl) as [siteName|e];
    cbn [obind]; [|discriminate].
  destruct (Js.startsWith (assetBase u1) "/content/dam/").
  - congruence.
  - intros [= <-] [= <-]. split.
    + intros Hne Heq. apply Hne. now rewrite Heq.
    + intros Hne Heq. apply Hne.
      apply (append_inj_l "/content/dam/") in Heq.
      apply append_inj_l in Heq. apply append_inj_l in Heq.
      now apply append_inj_r in Heq.
Qed.

End QueryFolding.

Lemma assetPath_query_folding_witness :
  getJcrAssetPath shipped Demo.web Demo.thumbA Demo.projectUrl
  = Ok "/content/dam/repo/media/a_width100.png"
  /\ getJcrAssetPath shipped Demo.web Demo.thumbB Demo.projectUrl
     = Ok "/content/dam/repo/media/a_width200.png"
  /\ "/content/dam/repo/media/a_width100.png"
     <> "/content/dam/repo/media/a_width200.png".
Proof.
  pose proof (assetPath_query_folding shipped Demo.web Demo.thumbA
                Demo.thumbB Demo.projectUrl
                "/content/dam/repo/media/a_width100.png"
                "/content/dam/repo/media/a_width200.png"
                eq_refl eq_refl eq_refl) as H.
  split; [reflexivity | split; [reflexivity|]].
  apply (proj2 (H : _ <> _ <-> _ <> _)). discriminate.
Defined.

(** C6 as stated fails: two resize variants of one image under
    [/content/dam/] differ only in their query string and are mapped to
    the same canonical path. *)
Lemma assetPath_same_path_different_query :
  pathname Demo.resizedA = pathname Demo.resizedB
  /\ searchParams Demo.resizedA <> searchParams Demo.resizedB
  /\ getJcrAssetPath shipped Demo.web Demo.resizedA Demo.projectUrl
     = getJcrAssetPath shipped Demo.web Demo.resizedB Demo.projectUrl.
Proof. repeat split. discriminate. Qed.

(* ------------------------------------------------------------------ *)
(** ** Asset resolver *)
(* ------------------------------------------------------------------ *)

Section AssetResolver.

Variable cfg : Config.
Variable web : Browser.

(** C10. For an empty or missing reference the classifier returns [null],
    and [getProcessedFileRef], which reads [processedFileRef] of that
    result without a test, throws instead of returning a reference. *)
Theorem getProcessedFileRef_empty_reference
    (fileReference : option string) (pageUrl projectUrl : string) :
  Js.truthy fileReference = false ->
  getAsset cfg web fileReference pageUrl projectUrl = Ok None
  /\ exists e,
       getProcessedFileRef cfg web fileReference pageUrl projectUrl
       = Throw e.
Proof.
  intros H. unfold getProcessedFileRef.
  destruct fileReference as [[|ch s]|]; try discriminate H;
    (split; [reflexivity | eexists; reflexivity]).
Qed.

(** An element carrying an empty [fileReference] makes the rewriting of
    its page fail. *)
Lemma processImage_empty_reference (pageUrl projectUrl : string) (c : Cache) :
  exists e, processImage cfg web pageUrl projectUrl "" c = (Throw e, c, []).
Proof. eexists. reflexivity. Qed.

(** After a response with a non-success status the asset is kept: no
    bytes, and the mime type of the extension table. *)
Lemma fetchAssetData_not_ok (asset : Asset.t) (u : URL)
    (status : string) (body : Blob) (contentType : option string)
    (c : Cache) :
  Asset.url asset = Some u ->
  fetch web (href u) = Response false status body contentType ->
  exists asset',
    fetchAssetData web asset c
    = (Ok asset', c,
       [Fetch (href u);
        ConsoleError ("Failed to fetch image: " ++ status)])
    /\ Asset.blob asset' = None
    /\ Asset.mimeType asset'
       = getMimeTypeFromExtension (Js.pop (Js.split "." (pathname u)))
    /\ Asset.jcrPath asset' = Asset.jcrPath asset.
Proof.
  intros Hu Hf. unfold fetchAssetData. rewrite Hu.
  unfold bind, emit, ret. rewrite Hf. cbn.
  eexists. split; [reflexivity|]. cbn. repeat split.
Qed.

(** After a rejected fetch the handler of [.catch] has logged the error
    and returned nothing: [fetchAssetData] throws. *)
Lemma fetchAssetData_network_error (asset : Asset.t) (u : URL)
    (error : string) (c : Cache) :
  Asset.url asset = Some u ->
  fetch web (href u) = NetworkError error ->
  exists e,
    fetchAssetData web asset c
    = (Throw e, c,
       [Fetch (href u);
        ConsoleError ("Fetch failed with error: " ++ error)]).
Proof.
  intros Hu Hf. unfold fetchAssetData. rewrite Hu.
  unfold bind, emit, throw. rewrite Hf. cbn.
  eexists. reflexivity.
Qed.

(** [addAsset] then writes nothing for the asset. *)
Lemma addAsset_network_error (asset : Asset.t) (u : URL) (error : string)
    (dirHandle : DirHandle) (prefix : string) (c : Cache) :
  Asset.url asset = Some u ->
  fetch web (href u) = NetworkError error ->
  exists e,
    addAsset web asset dirHandle prefix c
    = (Throw e, c,
       [Fetch (href u);
        ConsoleError ("Fetch failed with error: " ++ error)]).
Proof.
  intros Hu Hf.
  destruct (fetchAssetData_network_error asset u error c Hu Hf) as [e He].
  exists e. unfold addAsset, bind. now rewrite He.
Qed.

End AssetResolver.

Lemma getProcessedFileRef_empty_reference_witness :
  getAsset shipped Demo.web (Some "") (Demo.host ++ "/a/b") Demo.projectUrl
  = Ok None
  /\ exists e,
       getProcessedFileRef shipped Demo.web (Some "") (Demo.host ++ "/a/b")
         Demo.projectUrl
       = Throw e.
Proof.
  exact (getProcessedFileRef_empty_reference shipped Demo.web (Some "")
           (Demo.host ++ "/a/b") Demo.projectUrl eq_refl).
Defined.

(* ------------------------------------------------------------------ *)
(** ** Package assembler *)
(* ------------------------------------------------------------------ *)

(** C9. A build with no input page returns at once: no error, no call on
    the archive or the filesystem, no other call either, and the cache is
    left as it was. *)
Theorem createJcrPackage_no_pages (cfg : Config) (web : Browser)
    (dirHandle : DirHandle) (projectUrl : string) (c : Cache) :
  createJcrPackage cfg web dirHandle [] projectUrl c = (Ok tt, c, []).
Proof. reflexivity. Qed.

(** C3. A build whose single page references an image on its own host,
    with the host unreachable when the bytes are fetched: the failure is
    logged, then the build is aborted by the exception of
    [fetchAssetData]; nothing is written for the asset, and neither the
    filter document nor the archive is produced. *)
Theorem asset_fetch_network_failure_aborts_build :
  let run := createJcrPackage shipped Demo.web Demo.dir
               [Demo.unreachablePage] Demo.projectUrl Demo.empty in
  let trace := snd run in
  fetch Demo.web "https://down.example.com/media/a.png?width=100"
  = NetworkError "TypeError: Failed to fetch"
  /\ fst (fst run)
     = Throw (TypeError "Cannot destructure property blob of undefined")
  /\ In (ConsoleError "Fetch failed with error: TypeError: Failed to fetch")
       trace
  /\ (forall path content,
        In (ZipFile path content) trace ->
        Js.startsWith path "jcr_root/content/dam/" = false)
  /\ ~ In ZipGenerate trace.
Proof.
  cbv zeta. split; [reflexivity|]. split; [vm_compute; reflexivity|].
  split; [vm_compute; tauto|]. split.
  - intros path content H. vm_compute in H.
    repeat (destruct H as [H|H]; [try discriminate H; injection H as <- _; reflexivity|]).
    destruct H.
  - intros H. vm_compute in H.
    repeat (destruct H as [H|H]; [discriminate H|]). destruct H.
Qed.

(** The other failure of the fetch is recovered as described: on a 404
    the error is logged, the asset is written without bytes, and its mime
    type comes from the extension table. *)
Example asset_not_found_is_kept :
  let run := createJcrPackage shipped Demo.web Demo.dir [Demo.missingPage]
               Demo.projectUrl Demo.empty in
  fst (fst run) = Ok tt
  /\ In (ConsoleError "Failed to fetch image: 404") (snd run)
  /\ In (ZipFile
           "jcr_root/content/dam/repo/missing/a.png/_jcr_content/renditions/original"
           (Binary None)) (snd run)
  /\ map Asset.mimeType (jcrAssets (snd (fst run))) = [Some "image/png"].
Proof.
  cbv zeta. split; [vm_compute; reflexivity|].
  split; [vm_compute; tauto|]. split; [vm_compute; tauto|].
  vm_compute. reflexivity.
Qed.

(* ------------------------------------------------------------------ *)
(** ** Ancestor scaffold *)
(* ------------------------------------------------------------------ *)

Lemma skipn_cons_nth {A : Type} (i : nat) (l : list A) (x : A)
    (rest : list A) :
  skipn i l = x :: rest -> nth_error l i = Some x /\ skipn (S i) l = rest.
Proof.
  revert l; induction i as [|i IH]; intros [|y l] H; simpl in *;
    try discriminate.
  - injection H as -> ->. now split.
  - now apply IH.
Qed.

Lemma ancestorChain_cons (ancestorPath s s' : string) (rest : list string) :
  ancestorChain ancestorPath (s :: s' :: rest)
  = (ancestorPath ++ "/" ++ s)
    :: ancestorChain (ancestorPath ++ "/" ++ s) (s' :: rest).
Proof. reflexivity. Qed.

(** The [for] loop emits the chain of ancestors of the page, filtered by
    the resolved page paths alone. *)
Lemma ancestor_for_loop (jcrPaths pathSegments : list string) (n : nat) :
  forall (i : nat) (ancestorPath : string) (emitted : list Ancestor.t),
    length (skipn i pathSegments) = S n ->
    snd (fold_left (ancestorStep jcrPaths pathSegments) (seq i n)
           (ancestorPath, emitted))
    = (emitted
       ++ map emptyAncestor
            (filter (notResolved jcrPaths)
               (ancestorChain ancestorPath (skipn i pathSegments))))%list.
Proof.
  induction n as [|n IH]; intros i ancestorPath emitted Hlen.
  - destruct (skipn i pathSegments) as [|x [|y rest]]; try discriminate.
    simpl. now rewrite app_nil_r.
  - destruct (skipn i pathSegments) as [|x rest] eqn:Hskip;
      [discriminate|].
    destruct (skipn_cons_nth i pathSegments x rest Hskip) as [Hnth Hrest].
    injection Hlen as Hlen.
    destruct rest as [|y rest]; [discriminate|].
    cbn [seq fold_left]. unfold ancestorStep at 2. rewrite Hnth.
    rewrite ancestorChain_cons. cbn [Js.tmpl filter].
    fold (notResolved jcrPaths (ancestorPath ++ "/" ++ x)).
    specialize (IH (S i) (ancestorPath ++ "/" ++ x)).
    rewrite Hrest in IH.
    destruct (notResolved jcrPaths (ancestorPath ++ "/" ++ x)).
    + rewrite IH by assumption. cbn [map].
      now rewrite <- app_assoc.
    + now rewrite IH by assumption.
Qed.

Lemma ancestorLoop_chain (jcrPaths : list string)
    (emitted : list Ancestor.t) (pagePath : string) :
  ancestorLoop jcrPaths emitted pagePath
  = (emitted
     ++ map emptyAncestor
          (filter (notResolved jcrPaths) (requiredAncestors pagePath)))%list.
Proof.
  unfold ancestorLoop, requiredAncestors.
  remember (Js.split "/" pagePath) as segs.
  destruct (skipn 2 segs) as [|x rest] eqn:Hskip.
  - assert (Hlen : length segs - 1 - 2 = 0).
    { apply (f_equal (@length string)) in Hskip.
      rewrite length_skipn in Hskip. simpl in Hskip. lia. }
    rewrite Hlen. simpl. now rewrite app_nil_r.
  - assert (Hlen : length (skipn 2 segs) = S (length segs - 1 - 2)).
    { rewrite length_skipn.
      apply (f_equal (@length string)) in Hskip.
      rewrite length_skipn in Hskip. simpl in Hskip. lia. }
    rewrite (ancestor_for_loop jcrPaths segs _ 2 "/content" emitted Hlen).
    now rewrite Hskip.
Qed.

Lemma fold_ancestorLoop (jcrPaths pagePaths : list string) :
  forall emitted,
    fold_left (ancestorLoop jcrPaths) pagePaths emitted
    = (emitted
       ++ map emptyAncestor
            (filter (notResolved jcrPaths)
               (flat_map requiredAncestors pagePaths)))%list.
Proof.
  induction pagePaths as [|p ps IH]; intros emitted; simpl.
  - now rewrite app_nil_r.
  - rewrite IH, ancestorLoop_chain, filter_app, map_app.
    now rewrite app_assoc.
Qed.

(** What [getEmptyAncestorPages] emits, in order. *)
Lemma getEmptyAncestorPages_paths (pages : list JcrPage.t) :
  map Ancestor.jcrPath (getEmptyAncestorPages pages)
  = filter (notResolved (map JcrPage.jcrPath pages))
      (flat_map requiredAncestors (map JcrPage.jcrPath pages)).
Proof.
  unfold getEmptyAncestorPages. rewrite fold_ancestorLoop. simpl.
  rewrite map_map. simpl. apply map_id.
Qed.

Lemma ancestorChain_longer (segments : list string) :
  forall ancestorPath x,
    In x (ancestorChain ancestorPath segments) ->
    String.length ancestorPath < String.length x.
Proof.
  induction segments as [|s rest IH]; intros ancestorPath x H;
    [destruct H|].
  destruct rest as [|s' rest]; [destruct H|].
  rewrite ancestorChain_cons in H. destruct H as [<-|H].
  - rewrite append_length. simpl. lia.
  - apply IH in H. rewrite append_length in H. simpl in H. lia.
Qed.

Lemma ancestorChain_NoDup (segments : list string) :
  forall ancestorPath, NoDup (ancestorChain ancestorPath segments).
Proof.
  induction segments as [|s rest IH]; intros ancestorPath;
    [constructor|].
  destruct rest as [|s' rest]; [constructor|].
  rewrite ancestorChain_cons. constructor; [|apply IH].
  intros H. apply ancestorChain_longer in H. lia.
Qed.

Lemma count_occ_filter (P : string -> bool) (l : list string) (a : string) :
  count_occ string_dec (filter P l) a
  = if P a then count_occ string_dec l a else 0.
Proof.
  induction l as [|x l IH]; simpl; [now destruct (P a)|].
  destruct (P x) eqn:Px; simpl; destruct (string_dec x a) as [->|Hne].
  - rewrite IH, Px. reflexivity.
  - exact IH.
  - rewrite IH, Px. reflexivity.
  - exact IH.
Qed.

Lemma count_occ_requiredAncestors (pagePaths : list string) (a : string) :
  count_occ string_dec (flat_map requiredAncestors pagePaths) a
  = length (filter (fun pagePath =>
                      Js.arrayIncludes (requiredAncestors pagePath) a)
              pagePaths).
Proof.
  induction pagePaths as [|p ps IH]; simpl; [reflexivity|].
  rewrite count_occ_app, IH.
  destruct (Js.arrayIncludes (requiredAncestors p) a) eqn:Hin.
  - apply arrayIncludes_In in Hin.
    pose proof (ancestorChain_NoDup (skipn 2 (Js.split "/" p)) "/content")
      as Hnd.
    fold (requiredAncestors p) in Hnd.
    rewrite (proj1 (NoDup_count_occ' string_dec (requiredAncestors p))
               Hnd a Hin).
    reflexivity.
  - assert (Hnot : ~ In a (requiredAncestors p)).
    { intros H. apply arrayIncludes_In in H. congruence. }
    apply (count_occ_not_In string_dec) in Hnot. now rewrite Hnot.
Qed.

(** C2, as the code has it. An ancestor path is emitted once for every
    resolved page that requires it, unless it is itself a resolved page
    path: so every required ancestor that is not a resolved page is
    emitted, and nothing else is; it is emitted several times when several
    pages lie below it, the test being membership in the resolved page
    paths only. *)
Theorem ancestors_emitted_once_per_requiring_page
    (pages : list JcrPage.t) (a : string) :
  let jcrPaths := map JcrPage.jcrPath pages in
  let emitted := map Ancestor.jcrPath (getEmptyAncestorPages pages) in
  count_occ string_dec emitted a
  = (if Js.arrayIncludes jcrPaths a then 0
     else length (filter (fun pagePath =>
                            Js.arrayIncludes (requiredAncestors pagePath) a)
                    jcrPaths))
  /\ (In a emitted <->
      ~ In a jcrPaths
      /\ exists pagePath, In pagePath jcrPaths
                          /\ In a (requiredAncestors pagePath)).
Proof.
  cbv zeta. rewrite getEmptyAncestorPages_paths. split.
  - rewrite count_occ_filter. unfold notResolved.
    destruct (Js.arrayIncludes (map JcrPage.jcrPath pages) a);
      [reflexivity|]. apply count_occ_requiredAncestors.
  - rewrite filter_In, in_flat_map. unfold notResolved.
    rewrite negb_true_iff, <- not_true_iff_false, arrayIncludes_In.
    tauto.
Qed.

(** C2 as stated fails: the parent of two sibling pages is required by
    both and is emitted twice. *)
Lemma ancestor_of_siblings_emitted_twice :
  map JcrPage.jcrPath Demo.siblings
  = ["/content/repo/a/b"; "/content/repo/a/c"]
  /\ map Ancestor.jcrPath (getEmptyAncestorPages Demo.siblings)
     = ["/content/repo"; "/content/repo/a";
        "/content/repo"; "/content/repo/a"]
  /\ count_occ string_dec
       (map Ancestor.jcrPath (getEmptyAncestorPages Demo.siblings))
       "/content/repo/a" <> 1.
Proof. repeat split. vm_compute. discriminate. Qed.

(* ------------------------------------------------------------------ *)
(** ** Reasoning about programs *)
(* ------------------------------------------------------------------ *)

Lemma bind_inv {A B : Type} (m : M A) (k : A -> M B) (c c' : Cache)
    (r : outcome B) (t : list Event) :
  bind m k c = (r, c', t) ->
  (exists e, m c = (Throw e, c', t) /\ r = Throw e)
  \/ (exists a c1 t1 t2,
        m c = (Ok a, c1, t1) /\ k a c1 = (r, c', t2)
        /\ t = (t1 ++ t2)%list).
Proof.
  unfold bind. destruct (m c) as [[[a|e] c1] t1].
  - destruct (k a c1) as [[r2 c2] t2] eqn:Hk. intros [= <- <- <-].
    right. now exists a, c1, t1, t2.
  - intros [= <- <- <-]. left. now exists e.
Qed.

Lemma bind_Ok_inv {A B : Type} (m : M A) (k : A -> M B) (c c' : Cache)
    (b : B) (t : list Event) :
  bind m k c = (Ok b, c', t) ->
  exists a c1 t1 t2,
    m c = (Ok a, c1, t1) /\ k a c1 = (Ok b, c', t2) /\ t = (t1 ++ t2)%list.
Proof.
  intros H. apply bind_inv in H as [(e & _ & [=])|H]. exact H.
Qed.

Section Related.

Variable R : Effect.
Hypothesis R_refl : forall c, R c [] c.
Hypothesis R_trans :
  forall a t1 b t2 c, R a t1 b -> R b t2 c -> R a (t1 ++ t2)%list c.

Lemma related_ret {A : Type} (a : A) : related R (ret a).
Proof. intros c r c' t [= _ <- <-]. apply R_refl. Qed.

Lemma related_throw {A : Type} (e : JsError) : related R (@throw A e).
Proof. intros c r c' t [= _ <- <-]. apply R_refl. Qed.

Lemma related_lift {A : Type} (o : outcome A) : related R (lift o).
Proof. intros c r c' t [= _ <- <-]. apply R_refl. Qed.

Lemma related_getCache : related R getCache.
Proof. intros c r c' t [= _ <- <-]. apply R_refl. Qed.

Lemma related_bind {A B : Type} (m : M A) (k : A -> M B) :
  related R m -> (forall a, related R (k a)) -> related R (bind m k).
Proof.
  intros Hm Hk c r c' t H.
  apply bind_inv in H as [(e & H & _)|(a & c1 & t1 & t2 & H1 & H2 & ->)].
  - exact (Hm _ _ _ _ H).
  - exact (R_trans _ _ _ _ _ (Hm _ _ _ _ H1) (Hk a _ _ _ _ H2)).
Qed.

(** The continuation may rely on what a successful run of [m] ensures. *)
Lemma related_bind_post {A B : Type} (m : M A) (k : A -> M B)
    (Q : A -> Cache -> Prop) :
  related R m ->
  (forall c a c' t, m c = (Ok a, c', t) -> Q a c') ->
  (forall a c r c' t, Q a c -> k a c = (r, c', t) -> R c t c') ->
  related R (bind m k).
Proof.
  intros Hm HQ Hk c r c' t H.
  apply bind_inv in H as [(e & H & _)|(a & c1 & t1 & t2 & H1 & H2 & ->)].
  - exact (Hm _ _ _ _ H).
  - exact (R_trans _ _ _ _ _ (Hm _ _ _ _ H1)
             (Hk a _ _ _ _ (HQ _ _ _ _ H1) H2)).
Qed.

Lemma related_forEachM {A : Type} (f : A -> M unit) (a : list A) :
  (forall x, related R (f x)) -> related R (forEachM f a).
Proof.
  intros Hf. induction a as [|x a IH]; simpl.
  - apply related_ret.
  - apply related_bind; [apply Hf | intros _; exact IH].
Qed.

Lemma related_mapM {A B : Type} (f : A -> M B) (a : list A) :
  (forall x, related R (f x)) -> related R (mapM f a).
Proof.
  intros Hf. induction a as [|x a IH]; simpl.
  - apply related_ret.
  - apply related_bind; [apply Hf | intros y].
    apply related_bind; [exact IH | intros ys; apply related_ret].
Qed.

End Related.

Lemma related_emit (R : Effect) (e : Event) :
  (forall c, R c [e] c) -> related R (emit e).
Proof. intros H c r c' t [= _ <- <-]. apply H. Qed.

(** The effects used below are reflexive on every trace, or on the traces
    without parsing, and compose. *)
Lemma unchanged_same (t : list Event) (c : Cache) : unchanged c t c.
Proof. reflexivity. Qed.

Lemma unchanged_trans (a : Cache) (t1 : list Event) (b : Cache)
    (t2 : list Event) (c : Cache) :
  unchanged a t1 b -> unchanged b t2 c -> unchanged a (t1 ++ t2)%list c.
Proof. unfold unchanged. congruence. Qed.

Lemma sameAssets_same (t : list Event) (c : Cache) : sameAssets c t c.
Proof. reflexivity. Qed.

Lemma sameAssets_trans (a : Cache) (t1 : list Event) (b : Cache)
    (t2 : list Event) (c : Cache) :
  sameAssets a t1 b -> sameAssets b t2 c -> sameAssets a (t1 ++ t2)%list c.
Proof. unfold sameAssets. congruence. Qed.

Lemma samePages_same (t : list Event) (c : Cache) : samePages c t c.
Proof. reflexivity. Qed.

Lemma samePages_trans (a : Cache) (t1 : list Event) (b : Cache)
    (t2 : list Event) (c : Cache) :
  samePages a t1 b -> samePages b t2 c -> samePages a (t1 ++ t2)%list c.
Proof. unfold samePages. congruence. Qed.

Lemma keepsUnique_same (t : list Event) (c : Cache) : keepsUnique c t c.
Proof. now intros H. Qed.

Lemma keepsUnique_trans (a : Cache) (t1 : list Event) (b : Cache)
    (t2 : list Event) (c : Cache) :
  keepsUnique a t1 b -> keepsUnique b t2 c -> keepsUnique a (t1 ++ t2)%list c.
Proof. unfold keepsUnique. auto. Qed.

Lemma parses_app (t1 t2 : list Event) :
  parses (t1 ++ t2) = parses t1 + parses t2.
Proof. unfold parses. now rewrite filter_app, length_app. Qed.

Lemma serializations_app (t1 t2 : list Event) :
  serializations (t1 ++ t2) = serializations t1 + serializations t2.
Proof. unfold serializations. now rewrite filter_app, length_app. Qed.

Lemma quiet_nil (c : Cache) : quiet c [] c.
Proof. now split. Qed.

Lemma quiet_trans (a : Cache) (t1 : list Event) (b : Cache)
    (t2 : list Event) (c : Cache) :
  quiet a t1 b -> quiet b t2 c -> quiet a (t1 ++ t2)%list c.
Proof.
  unfold quiet. rewrite parses_app, serializations_app. lia.
Qed.

Lemma stateless_related {A : Type} (R : Effect) (m : M A) :
  (forall t c, R c t c) -> stateless m -> related R m.
Proof. intros Hr Hm c r c' t H. rewrite (Hm _ _ _ _ H). apply Hr. Qed.

Lemma related_set_jcrPages (v : PagesVar) :
  related sameAssets (set_jcrPages v).
Proof. intros c r c' t [= _ <- _]. reflexivity. Qed.

Lemma related_set_jcrAssets (a : list Asset.t) :
  related samePages (set_jcrAssets a).
Proof. intros c r c' t [= _ <- _]. reflexivity. Qed.

Lemma quiet_set_jcrPages (v : PagesVar) : related quiet (set_jcrPages v).
Proof. intros c r c' t [= _ _ <-]. now split. Qed.

Lemma quiet_set_jcrAssets (a : list Asset.t) : related quiet (set_jcrAssets a).
Proof. intros c r c' t [= _ _ <-]. now split. Qed.

Ltac rel_side :=
  first [ exact (unchanged_same _) | exact unchanged_trans
        | exact (sameAssets_same _) | exact sameAssets_trans
        | exact (samePages_same _) | exact samePages_trans
        | exact (keepsUnique_same _) | exact keepsUnique_trans
        | exact quiet_nil | exact quiet_trans
        | solve [intros; split; reflexivity]
        | assumption ].

Create HintDb prog.

Ltac rel_step :=
  first
    [ solve [auto 1 with prog nocore]
    | apply related_ret; rel_side
    | apply related_throw; rel_side
    | apply related_lift; rel_side
    | apply related_emit; rel_side
    | apply related_getCache; rel_side
    | apply related_set_jcrPages
    | apply related_set_jcrAssets
    | apply quiet_set_jcrPages
    | apply quiet_set_jcrAssets
    | apply related_bind; [rel_side | | intros ?]
    | apply related_forEachM; [rel_side | rel_side | intros ?]
    | apply related_mapM; [rel_side | rel_side | intros ?]
    | match goal with
      | |- related _ (if ?b then _ else _) => destruct b
      | |- related _ (match ?x with _ => _ end) => destruct x
      | |- related _ (let (_, _) := ?x in _) => destruct x
      end
    | assumption ].

Ltac rel := repeat rel_step.

(* ------------------------------------------------------------------ *)
(** ** [Promise.all]: what the order of the callbacks leaves alone *)
(* ------------------------------------------------------------------ *)

Lemma syncPart_asyncPart (t : list Event) :
  (syncPart t ++ asyncPart t)%list = t.
Proof.
  induction t as [|e t IH]; [reflexivity|].
  destruct e; cbn; now rewrite ?IH.
Qed.

Lemma tails_shorter {X : Type} (queues : list (list X)) :
  length (concat (tails queues)) <= pred (length (concat queues)).
Proof.
  induction queues as [|q queues IH]; [reflexivity|].
  unfold tails in *. cbn [map concat]. rewrite !length_app.
  destruct q as [|x q]; cbn in *; lia.
Qed.

Lemma heads_tails {X : Type} (queues : list (list X)) :
  Permutation (heads queues ++ concat (tails queues)) (concat queues).
Proof.
  induction queues as [|q queues IH]; [constructor|].
  unfold heads, tails in *. cbn [flat_map map concat].
  destruct q as [|x q]; cbn [firstn skipn app]; [exact IH|].
  constructor.
  rewrite (Permutation_app_swap_app (flat_map (firstn 1) queues) q).
  now apply Permutation_app_head.
Qed.

Lemma inTurn_perm {X : Type} (rounds : nat) :
  forall queues : list (list X),
    length (concat queues) <= rounds ->
    Permutation (inTurn rounds queues) (concat queues).
Proof.
  induction rounds as [|rounds IH]; intros queues Hlen; cbn [inTurn].
  - destruct (concat queues); [constructor | cbn in Hlen; lia].
  - rewrite <- (heads_tails queues). apply Permutation_app_head.
    apply IH. pose proof (tails_shorter queues). lia.
Qed.

Lemma replaceAt_perm {X : Type} (queues : list (list X)) :
  forall (i : nat) (x : X) (queue : list X),
    nth_error queues i = Some (x :: queue) ->
    Permutation (x :: concat (replaceAt i queue queues)) (concat queues).
Proof.
  induction queues as [|q queues IH]; intros [|i] x queue H;
    try discriminate H; cbn in H.
  - injection H as ->. reflexivity.
  - cbn [replaceAt concat]. rewrite <- (IH i x queue H).
    apply Permutation_middle.
Qed.

Lemma weave_perm {X : Type} (resumes : list nat) :
  forall queues : list (list X),
    Permutation (weave resumes queues) (concat queues).
Proof.
  induction resumes as [|i resumes IH]; intros queues; cbn [weave].
  - now apply inTurn_perm.
  - destruct (nth_error queues i) as [[|x queue]|] eqn:Hi; try apply IH.
    rewrite <- (replaceAt_perm queues i x queue Hi). constructor. apply IH.
Qed.

Lemma emitted_turnsOf {A : Type}
    (runs : list (nat * (outcome A * list Event))) :
  emitted (concat (map turnsOf runs))
  = flat_map (fun run => asyncPart (snd (snd run))) runs.
Proof.
  induction runs as [|run runs IH]; [reflexivity|].
  cbn [map concat flat_map]. unfold emitted in *.
  rewrite flat_map_app, IH. f_equal. unfold turnsOf.
  rewrite flat_map_app. cbn. rewrite app_nil_r.
  induction (asyncPart (snd (snd run))) as [|e l IHl]; cbn; congruence.
Qed.

Lemma flat_map_combine_seq {A B : Type} (f : A -> list B) (l : list A) :
  forall n,
    flat_map (fun run => f (snd run)) (combine (seq n (length l)) l)
    = flat_map f l.
Proof.
  induction l as [|x l IH]; intros n; [reflexivity|].
  cbn. now rewrite IH.
Qed.

Lemma flat_map_pointwise_app {A B : Type} (f g : A -> list B) (l : list A) :
  Permutation (flat_map f l ++ flat_map g l)
    (flat_map (fun x => f x ++ g x)%list l).
Proof.
  induction l as [|x l IH]; [constructor|]. cbn [flat_map].
  rewrite <- !app_assoc. apply Permutation_app_head.
  rewrite (Permutation_app_swap_app (flat_map f l) (g x)).
  now apply Permutation_app_head.
Qed.

Lemma allOf_Ok {A : Type} (outcomes : list (outcome A)) (l : list A) :
  allOf outcomes = Ok l -> outcomes = map Ok l.
Proof.
  revert l; induction outcomes as [|[a|e] outcomes IH]; intros l H;
    cbn in H; try discriminate H.
  - now injection H as <-.
  - destruct (allOf outcomes) as [l'|e]; [|discriminate H].
    injection H as <-. cbn. f_equal. now apply IH.
Qed.

Lemma allOf_Throw {A : Type} (outcomes : list (outcome A)) (e : JsError) :
  allOf outcomes = Throw e -> In (Throw e) outcomes.
Proof.
  induction outcomes as [|[a|e'] outcomes IH]; intros H; cbn in H;
    try discriminate H.
  - destruct (allOf outcomes) as [l'|e'']; [discriminate H|].
    injection H as ->. right. now apply IH.
  - injection H as ->. now left.
Qed.

Lemma allOf_rejected {A : Type} (outcomes : list (outcome A)) (e : JsError) :
  In (Throw e) outcomes -> exists e', allOf outcomes = Throw e'.
Proof.
  induction outcomes as [|[a|e'] outcomes IH]; intros H; [destruct H| |].
  - destruct H as [H|H]; [discriminate H|].
    destruct (IH H) as [e'' He]. cbn. rewrite He. eauto.
  - cbn. eauto.
Qed.

Lemma firstRejected_In {A : Type} (order : list nat)
    (outcomes : list (outcome A)) (e : JsError) :
  firstRejected order outcomes = Some e -> In (Throw e) outcomes.
Proof.
  induction order as [|i order IH]; intros H; cbn in H; [discriminate H|].
  destruct (nth_error outcomes i) as [[a|e']|] eqn:Hi; try now apply IH.
  injection H as ->. exact (nth_error_In _ _ Hi).
Qed.

(** A settled [Promise.all], taken apart: the callbacks have all run;
    the trace is made of their synchronous parts, in array order,
    followed by the rest of what they emit, in some order; the promise is
    fulfilled exactly when no callback throws, with their results in
    array order, and is otherwise rejected with the error of one of
    them. *)
Lemma promiseAll_inv {A : Type} (resumes : list nat)
    (callbacks : list (M A)) (c c' : Cache)
    (r : outcome (outcome (list A))) (t : list Event) :
  promiseAll resumes callbacks c = (r, c', t) ->
  exists runs rest settled,
    startAll callbacks c = (runs, c')
    /\ r = Ok settled
    /\ t = (flat_map (fun run => syncPart (snd run)) runs ++ rest)%list
    /\ Permutation rest (flat_map (fun run => asyncPart (snd run)) runs)
    /\ Permutation t (flat_map snd runs)
    /\ (forall l, settled = Ok l -> map fst runs = map Ok l)
    /\ (forall e, settled = Throw e -> In (Throw e) (map fst runs))
    /\ (forall e, In (Throw e) (map fst runs) ->
                  exists e', settled = Throw e').
Proof.
  unfold promiseAll. destruct (startAll callbacks c) as [runs c1].
  intros [= <- <- <-].
  set (turns := weave resumes
                  (map (@turnsOf A) (combine (seq 0 (length runs)) runs))).
  assert (Hrest : Permutation (emitted turns)
                    (flat_map (fun run => asyncPart (snd run)) runs)).
  { subst turns. unfold emitted at 1.
    eapply Permutation_trans;
      [apply Permutation_flat_map, weave_perm|].
    fold (emitted (concat (map turnsOf
                             (combine (seq 0 (length runs)) runs)))).
    rewrite emitted_turnsOf.
    now rewrite (flat_map_combine_seq (fun run => asyncPart (snd run))). }
  exists runs, (emitted turns). eexists.
  split; [reflexivity|]. split; [reflexivity|]. split; [reflexivity|].
  split; [exact Hrest|]. split; [|split; [|split]].
  - rewrite Hrest, flat_map_pointwise_app.
    erewrite flat_map_ext; [reflexivity|].
    intros run. apply syncPart_asyncPart.
  - intros l H.
    destruct (firstRejected (settledOrder turns) (map fst runs));
      [discriminate H|]. now apply allOf_Ok.
  - intros e H.
    destruct (firstRejected (settledOrder turns) (map fst runs)) as [e'|]
      eqn:Hf.
    + injection H as ->. exact (firstRejected_In _ _ _ Hf).
    + now apply allOf_Throw.
  - intros e H.
    destruct (firstRejected (settledOrder turns) (map fst runs)) as [e'|];
      [eauto|]. exact (allOf_rejected _ _ H).
Qed.

(** The callbacks as they are started, one after the other. *)
Lemma startAll_runs {A B : Type} (f : A -> M B) (a : list A) :
  forall c runs c',
    startAll (map f a) c = (runs, c') ->
    (forall x, stateless (f x)) ->
    c' = c
    /\ Forall2 (fun x run => f x c = (fst run, c, snd run)) a runs.
Proof.
  induction a as [|x a IH]; intros c runs c' H Hf; cbn [map startAll] in H.
  - injection H as <- <-. split; [reflexivity | constructor].
  - destruct (f x c) as [[r c1] t] eqn:Hx.
    destruct (startAll (map f a) c1) as [runs' c2] eqn:Ha.
    injection H as <- <-.
    pose proof (Hf x _ _ _ _ Hx) as Hc. unfold unchanged in Hc. subst c1.
    destruct (IH _ _ _ Ha Hf) as [-> Hruns].
    split; [reflexivity|]. constructor; [exact Hx | exact Hruns].
Qed.

Lemma startAll_related {A B : Type} (R : Effect)
    (R_refl : forall c, R c [] c)
    (R_trans : forall a t1 b t2 c,
        R a t1 b -> R b t2 c -> R a (t1 ++ t2)%list c)
    (f : A -> M B) (a : list A) :
  (forall x, related R (f x)) ->
  forall c runs c',
    startAll (map f a) c = (runs, c') -> R c (flat_map snd runs) c'.
Proof.
  intros Hf. induction a as [|x a IH]; intros c runs c' H;
    cbn [map startAll] in H.
  - injection H as <- <-. apply R_refl.
  - destruct (f x c) as [[r c1] t] eqn:Hx.
    destruct (startAll (map f a) c1) as [runs' c2] eqn:Ha.
    injection H as <- <-. cbn [flat_map snd].
    exact (R_trans _ _ _ _ _ (Hf x _ _ _ _ Hx) (IH _ _ _ Ha)).
Qed.

(** An effect that every callback has, and that does not depend on the
    order of the events, is an effect of [Promise.all]. *)
Lemma related_promiseAll {A B : Type} (R : Effect)
    (R_refl : forall c, R c [] c)
    (R_trans : forall a t1 b t2 c,
        R a t1 b -> R b t2 c -> R a (t1 ++ t2)%list c)
    (R_perm : forall c t t' c', Permutation t t' -> R c t c' -> R c t' c')
    (resumes : list nat) (f : A -> M B) (a : list A) :
  (forall x, related R (f x)) ->
  related R (promiseAll resumes (map f a)).
Proof.
  intros Hf c r c' t H.
  apply promiseAll_inv in H
    as (runs & rest & settled & Hruns & _ & _ & _ & Hperm & _).
  apply (R_perm c (flat_map snd runs)); [now symmetry|].
  exact (startAll_related R R_refl R_trans f a Hf _ _ _ Hruns).
Qed.

Lemma Permutation_filter_length {X : Type} (p : X -> bool) (l l' : list X) :
  Permutation l l' -> length (filter p l) = length (filter p l').
Proof.
  induction 1 as [|x l l' _ IH|x y l|l l' l'' _ IH1 _ IH2]; cbn.
  - reflexivity.
  - destruct (p x); cbn; congruence.
  - destruct (p x), (p y); reflexivity.
  - congruence.
Qed.

Lemma Permutation_filter_nil {X : Type} (p : X -> bool) (l l' : list X) :
  Permutation l l' -> filter p l = [] -> filter p l' = [].
Proof.
  intros Hperm H. apply length_zero_iff_nil.
  rewrite <- (Permutation_filter_length p l l' Hperm), H. reflexivity.
Qed.

Lemma sameAssets_perm (c : Cache) (t t' : list Event) (c' : Cache) :
  Permutation t t' -> sameAssets c t c' -> sameAssets c t' c'.
Proof. now intros _ H. Qed.

Lemma quiet_perm (c : Cache) (t t' : list Event) (c' : Cache) :
  Permutation t t' -> quiet c t c' -> quiet c t' c'.
Proof.
  unfold quiet, parses, serializations. intros Hperm [Hp Hs].
  now rewrite <- !(Permutation_filter_length _ t t' Hperm).
Qed.

(* ------------------------------------------------------------------ *)
(** ** What each operation does to the cache and to the trace *)
(* ------------------------------------------------------------------ *)

Section CacheEffects.

Variable cfg : Config.
Variable web : Browser.

Lemma fetchAssetData_stateless (asset : Asset.t) :
  stateless (fetchAssetData web asset).
Proof. unfold stateless, fetchAssetData. rel. Qed.

Lemma fetchAssetData_quiet (asset : Asset.t) :
  related quiet (fetchAssetData web asset).
Proof. unfold fetchAssetData. rel. Qed.

#[local] Hint Extern 1 (related unchanged (fetchAssetData _ _)) =>
  apply fetchAssetData_stateless : prog.
#[local] Hint Extern 1 (related quiet (fetchAssetData _ _)) =>
  apply fetchAssetData_quiet : prog.

Lemma processImage_stateless (pageUrl projectUrl fileReference : string) :
  stateless (processImage cfg web pageUrl projectUrl fileReference).
Proof. unfold stateless, processImage. rel. Qed.

Lemma processImage_quiet (pageUrl projectUrl fileReference : string) :
  related quiet (processImage cfg web pageUrl projectUrl fileReference).
Proof. unfold processImage. rel. Qed.

#[local] Hint Extern 1 (related unchanged (processImage _ _ _ _ _)) =>
  apply processImage_stateless : prog.
#[local] Hint Extern 1 (related quiet (processImage _ _ _ _ _)) =>
  apply processImage_quiet : prog.

Lemma resolvePage_stateless (projectUrl : string) (page : Page.t) :
  stateless (resolvePage cfg web projectUrl page).
Proof.
  unfold stateless, resolvePage, getPageProperties, getPageContentChildren,
    getProcessedJcr.
  rel.
Qed.

Lemma addAsset_stateless (asset : Asset.t) (dirHandle : DirHandle)
    (prefix : string) :
  stateless (addAsset web asset dirHandle prefix).
Proof. unfold stateless, addAsset. rel. Qed.

Lemma addAsset_quiet (asset : Asset.t) (dirHandle : DirHandle)
    (prefix : string) :
  related quiet (addAsset web asset dirHandle prefix).
Proof. unfold addAsset. rel. Qed.

Lemma addPage_stateless (contentXmlPath processedXml : string)
    (dirHandle : DirHandle) (prefix : string) :
  stateless (addPage contentXmlPath processedXml dirHandle prefix).
Proof. unfold stateless, addPage. rel. Qed.


Lemma addPropertiesXml_stateless (dirHandle : DirHandle) (prefix : string)
    (pages : list Page.t) (packageName : string) :
  stateless (addPropertiesXml web dirHandle prefix pages packageName).
Proof. unfold stateless, addPropertiesXml. rel. Qed.


#[local] Hint Extern 1 (related sameAssets (resolvePage _ _ _ _)) =>
  apply stateless_related;
  [exact sameAssets_same | apply resolvePage_stateless] : prog.

(** An effect of resolving a page and of assigning [jcrPages] that does
    not depend on the order of the events is an effect of
    [getJcrPages]. *)
Lemma getJcrPages_related (R : Effect)
    (R_refl : forall c, R c [] c)
    (R_trans : forall a t1 b t2 c,
        R a t1 b -> R b t2 c -> R a (t1 ++ t2)%list c)
    (R_perm : forall c t t' c', Permutation t t' -> R c t c' -> R c t' c')
    (pages : list Page.t) (projectUrl : string) :
  (forall v, related R (set_jcrPages v)) ->
  (forall page, related R (resolvePage cfg web projectUrl page)) ->
  related R (getJcrPages cfg web pages projectUrl).
Proof.
  intros Hset Hres. unfold getJcrPages.
  apply related_bind;
    [exact R_trans | now apply related_getCache | intros c0].
  apply related_bind; [exact R_trans | | intros _].
  - destruct (pages_length_is_0 (jcrPages c0));
      [|now apply related_ret].
    apply related_bind; [exact R_trans | | intros settled; apply Hset].
    now apply related_promiseAll.
  - apply related_bind;
      [exact R_trans | now apply related_getCache | intros c1].
    now apply related_lift.
Qed.

Lemma getJcrPages_sameAssets (pages : list Page.t) (projectUrl : string) :
  related sameAssets (getJcrPages cfg web pages projectUrl).
Proof.
  apply getJcrPages_related.
  - exact (sameAssets_same []).
  - exact sameAssets_trans.
  - exact sameAssets_perm.
  - exact related_set_jcrPages.
  - intros page. apply stateless_related;
      [exact sameAssets_same | apply resolvePage_stateless].
Qed.

Lemma collectAsset_samePages (pageUrl projectUrl fileReference : string) :
  related samePages (collectAsset cfg web pageUrl projectUrl fileReference).
Proof. unfold collectAsset. rel. Qed.

Lemma collectAsset_quiet (pageUrl projectUrl fileReference : string) :
  related quiet (collectAsset cfg web pageUrl projectUrl fileReference).
Proof. unfold collectAsset. rel. Qed.

#[local] Hint Extern 1 (related samePages (addAsset _ _ _ _)) =>
  apply stateless_related;
  [exact samePages_same | apply addAsset_stateless] : prog.
#[local] Hint Extern 1 (related quiet (addAsset _ _ _ _)) =>
  apply addAsset_quiet : prog.

Lemma addAssets_samePages (dirHandle : DirHandle) (prefix : string)
    (todo : list Asset.t) :
  forall done, related samePages (addAssets web dirHandle prefix done todo).
Proof.
  induction todo as [|asset rest IH]; intros done; cbn [addAssets]; rel.
Qed.

Lemma addAssets_quiet (dirHandle : DirHandle) (prefix : string)
    (todo : list Asset.t) :
  forall done, related quiet (addAssets web dirHandle prefix done todo).
Proof.
  induction todo as [|asset rest IH]; intros done; cbn [addAssets]; rel.
Qed.

End CacheEffects.

(* ------------------------------------------------------------------ *)
(** ** Dedup invariant of the asset cache *)
(* ------------------------------------------------------------------ *)

Lemma sameAssets_keepsUnique {A : Type} (m : M A) :
  related sameAssets m -> related keepsUnique m.
Proof.
  intros Hm c r c' t H Hu. unfold sameAssets in Hm.
  now rewrite (Hm _ _ _ _ H).
Qed.

Lemma stateless_keepsUnique {A : Type} (m : M A) :
  stateless m -> related keepsUnique m.
Proof. apply stateless_related. exact keepsUnique_same. Qed.

Lemma option_string_eqb_eq (a b : option string) :
  option_string_eqb a b = true <-> a = b.
Proof.
  destruct a as [x|], b as [y|]; simpl; try (split; congruence).
  rewrite String.eqb_eq. split; congruence.
Qed.

Lemma find_jcrPath_false (assets : list Asset.t) (asset : Asset.t) :
  existsb (fun a => option_string_eqb (Asset.jcrPath a) (Asset.jcrPath asset))
    assets = false ->
  ~ In (Asset.jcrPath asset) (map Asset.jcrPath assets).
Proof.
  intros H Hin. apply in_map_iff in Hin as (a & E & Ha).
  assert (Ht : existsb (fun a => option_string_eqb (Asset.jcrPath a)
                                   (Asset.jcrPath asset)) assets = true).
  { apply existsb_exists. exists a. split; [assumption|].
    now apply option_string_eqb_eq. }
  congruence.
Qed.

Lemma uniquePaths_push (assets : list Asset.t) (asset : Asset.t) :
  uniquePaths assets ->
  ~ In (Asset.jcrPath asset) (map Asset.jcrPath assets) ->
  uniquePaths (assets ++ [asset]).
Proof.
  unfold uniquePaths. intros Hu Hn. rewrite map_app. simpl.
  apply NoDup_app; [assumption | repeat constructor; intros [] |].
  intros x Hx [<-|[]]. contradiction.
Qed.

Section Dedup.

Variable cfg : Config.
Variable web : Browser.

Ltac unique_side :=
  first [ exact (keepsUnique_same _) | exact keepsUnique_trans ].

(** The push of [getJcrAssets] is guarded by the search for an entry with
    the same [jcrPath]. *)
Lemma collectAsset_keepsUnique (pageUrl projectUrl fileReference : string) :
  related keepsUnique (collectAsset cfg web pageUrl projectUrl fileReference).
Proof.
  intros c r c' t H Hu.
  unfold collectAsset, bind, lift, getCache, set_jcrAssets, ret in H.
  destruct (getAsset cfg web (Some fileReference) pageUrl projectUrl)
    as [[asset|]|e]; cbn in H.
  - destruct (Asset.add asset); cbn in H.
    + destruct (existsb _ (jcrAssets c)) eqn:Hfind; cbn in H;
        injection H as _ <- _; cbn; [assumption|].
      apply uniquePaths_push; [assumption|].
      now apply find_jcrPath_false.
    + now injection H as _ <- _.
  - now injection H as _ <- _.
  - now injection H as _ <- _.
Qed.

Lemma getJcrAssets_keepsUnique (pages : list Page.t) (projectUrl : string) :
  related keepsUnique (getJcrAssets cfg web pages projectUrl).
Proof.
  unfold getJcrAssets.
  apply related_bind; [unique_side | apply related_getCache; unique_side|].
  intros c0.
  apply related_bind; [unique_side | | intros _].
  - destruct (Nat.eqb (length (jcrAssets c0)) 0).
    + apply related_bind; [unique_side | | intros resolved].
      * apply sameAssets_keepsUnique, getJcrPages_sameAssets.
      * apply related_bind; [unique_side | | intros _].
        -- apply sameAssets_keepsUnique, related_set_jcrPages.
        -- apply related_forEachM; [unique_side | unique_side |].
           intros page.
           apply related_bind;
             [unique_side | apply related_emit; unique_side | intros _].
           apply related_forEachM; [unique_side | unique_side |].
           intros fileReference. apply collectAsset_keepsUnique.
    + apply related_ret; unique_side.
  - apply related_bind;
      [unique_side | apply related_getCache; unique_side | intros c1].
    apply related_ret; unique_side.
Qed.

(** [getJcrAssets] returns the array held by the module variable. *)
Lemma getJcrAssets_result (pages : list Page.t) (projectUrl : string)
    (c c' : Cache) (assets : list Asset.t) (t : list Event) :
  getJcrAssets cfg web pages projectUrl c = (Ok assets, c', t) ->
  assets = jcrAssets c'.
Proof.
  unfold getJcrAssets. intros H.
  apply bind_Ok_inv in H as (c0 & c1 & t1 & t2 & _ & H & _).
  apply bind_Ok_inv in H as (u & c2 & t3 & t4 & _ & H & _).
  unfold bind, getCache, ret in H. now injection H as <- <- _.
Qed.

Lemma related_after_getJcrAssets {B : Type} (pages : list Page.t)
    (projectUrl : string) (k : list Asset.t -> M B) :
  (forall c r c' t, k (jcrAssets c) c = (r, c', t) -> keepsUnique c t c') ->
  related keepsUnique (bind (getJcrAssets cfg web pages projectUrl) k).
Proof.
  intros Hk.
  apply related_bind_post with (Q := fun a c => a = jcrAssets c).
  - exact keepsUnique_trans.
  - apply getJcrAssets_keepsUnique.
  - intros c a c' t H. exact (getJcrAssets_result _ _ _ _ _ _ H).
  - intros a c r c' t -> H. exact (Hk _ _ _ _ H).
Qed.

Lemma fetchAssetData_jcrPath (asset asset' : Asset.t) (c c' : Cache)
    (t : list Event) :
  fetchAssetData web asset c = (Ok asset', c', t) ->
  Asset.jcrPath asset' = Asset.jcrPath asset.
Proof.
  unfold fetchAssetData. destruct (Asset.url asset) as [u|].
  - unfold bind, emit, ret, throw.
    destruct (fetch web (href u)) as [[|] status body contentType|error];
      cbn; intros H; try discriminate H; now injection H as <- _ _.
  - unfold ret. now intros [= <- _ _].
Qed.

Lemma addAsset_jcrPath (asset asset' : Asset.t) (dirHandle : DirHandle)
    (prefix : string) (c c' : Cache) (t : list Event) :
  addAsset web asset dirHandle prefix c = (Ok asset', c', t) ->
  Asset.jcrPath asset' = Asset.jcrPath asset.
Proof.
  unfold addAsset. intros H.
  apply bind_Ok_inv in H as (a & c1 & t1 & t2 & Hf & H & _).
  apply fetchAssetData_jcrPath in Hf.
  unfold bind, emit, ret in H. cbn in H. now injection H as <- _ _.
Qed.

(** The loop that writes the assets replaces each cached entry by itself
    with [blob] and [mimeType] assigned: the paths stay as they were. *)
Lemma addAssets_keepsUnique (dirHandle : DirHandle) (prefix : string)
    (todo : list Asset.t) :
  forall (done : list Asset.t) (c c' : Cache) (r : outcome unit)
         (t : list Event),
    addAssets web dirHandle prefix done todo c = (r, c', t) ->
    uniquePaths (jcrAssets c) ->
    uniquePaths (done ++ todo) ->
    uniquePaths (jcrAssets c').
Proof.
  induction todo as [|asset rest IH]; intros done c c' r t H Hc Hu.
  - cbn in H. now injection H as _ <- _.
  - cbn [addAssets] in H.
    apply bind_inv in H as [(e & H & _)|(asset' & c1 & t1 & t2 & Ha & H & _)].
    + now rewrite (addAsset_stateless web asset dirHandle prefix c _ _ _ H).
    + pose proof (addAsset_jcrPath _ _ _ _ _ _ _ Ha) as Hp.
      pose proof (addAsset_stateless web asset dirHandle prefix c _ _ _ Ha)
        as ->.
      apply bind_inv in H as [(e & H & _)|(u & c2 & t3 & t4 & Hs & H & _)];
        [discriminate H|].
      unfold set_jcrAssets in Hs. injection Hs as _ <- _.
      assert (Hu' : uniquePaths (done ++ asset' :: rest)).
      { unfold uniquePaths in *. rewrite map_app in *. cbn [map] in *.
        now rewrite Hp. }
      apply (IH _ _ _ _ _ H); cbn; [assumption|].
      now rewrite <- app_assoc.
Qed.

Lemma getJcrAssetPaths_keepsUnique (pages : list Page.t)
    (projectUrl : string) :
  related keepsUnique (getJcrAssetPaths cfg web pages projectUrl).
Proof.
  unfold getJcrAssetPaths. apply related_after_getJcrAssets.
  intros c r c' t H Hu. unfold bind, set_jcrAssets, ret in H.
  now injection H as _ <- _.
Qed.

Lemma addFilterXml_keepsUnique (pages : list Page.t) (projectUrl : string)
    (dirHandle : DirHandle) (prefix : string) :
  related keepsUnique (addFilterXml cfg web pages projectUrl dirHandle prefix).
Proof.
  unfold addFilterXml, getFilterXml.
  repeat first
    [ apply getJcrAssetPaths_keepsUnique
    | apply sameAssets_keepsUnique, getJcrPages_sameAssets
    | apply sameAssets_keepsUnique, related_set_jcrPages
    | apply related_ret; unique_side
    | apply related_emit; unique_side
    | apply related_bind; [unique_side | | intros ?]
    | match goal with
      | |- related _ (let (_, _) := ?x in _) => destruct x
      end ].
Qed.

(** The asset collection at the end of a build holds no [jcrPath]
    twice. *)
Lemma build_uniquePaths (dirHandle : DirHandle) (pages : list Page.t)
    (projectUrl : string) (c c' : Cache) (r : outcome unit)
    (t : list Event) :
  pages <> [] ->
  createJcrPackage cfg web dirHandle pages projectUrl c = (r, c', t) ->
  uniquePaths (jcrAssets c').
Proof.
  unfold uniquePaths.
  intros Hne H. unfold createJcrPackage in H.
  destruct (Nat.eqb (length pages) 0) eqn:Hlen.
  { destruct pages; [contradiction | discriminate Hlen]. }
  apply bind_inv in H as [(e & H & _)|(u & c0 & t1 & t2 & Hi & H & _)];
    [discriminate H|].
  unfold init in Hi. injection Hi as _ <- _.
  enough (Hrel : keepsUnique (mkCache (PagesArray []) []) t2 c')
    by (apply Hrel; constructor).
  revert H. generalize (mkCache (PagesArray []) []), r, c', t2.
  match goal with
  | |- forall c0 r c' t2, ?m c0 = (r, c', t2) -> keepsUnique c0 t2 c' =>
      change (related keepsUnique m)
  end.
  apply related_bind; [unique_side | apply related_lift; unique_side|].
  intros packageName.
  apply related_bind;
    [unique_side | apply sameAssets_keepsUnique, getJcrPages_sameAssets|].
  intros resolved.
  apply related_bind;
    [unique_side | apply sameAssets_keepsUnique, related_set_jcrPages|].
  intros _.
  apply related_bind; [unique_side | | intros _].
  { apply related_forEachM; [unique_side | unique_side | intros p].
    apply stateless_keepsUnique, addPage_stateless. }
  apply related_bind; [unique_side | | intros _].
  { apply related_forEachM; [unique_side | unique_side | intros p].
    apply stateless_keepsUnique, addPage_stateless. }
  apply related_after_getJcrAssets. intros c1 r1 c2 t3 H Hu.
  apply bind_inv in H as [(e & H & _)|(u1 & c3 & t4 & t5 & Hs & H & _)];
    [discriminate H|].
  unfold set_jcrAssets in Hs. injection Hs as _ <- _.
  apply bind_inv in H as [(e & H & _)|(u2 & c4 & t6 & t7 & Ha & H & _)].
  { now apply (addAssets_keepsUnique _ _ _ _ _ _ _ _ H). }
  apply (addAssets_keepsUnique _ _ _ _ _ _ _ _ Ha) in Hu; [|exact Hu].
  revert Hu. change (keepsUnique c4 t7 c2). revert H.
  generalize c4, r1, c2, t7.
  match goal with
  | |- forall c0 r c' t2, ?m c0 = (r, c', t2) -> keepsUnique c0 t2 c' =>
      change (related keepsUnique m)
  end.
  apply related_bind; [unique_side | apply addFilterXml_keepsUnique|].
  intros _.
  apply related_bind; [unique_side | | intros _].
  { apply stateless_keepsUnique, addPropertiesXml_stateless. }
  apply related_bind; [unique_side | apply related_emit; unique_side|].
  intros _. apply related_emit; unique_side.
Qed.

(** C8. Whatever the cache held before, at the end of a build of at least
    one page (completed or aborted) no two entries of the resolved-asset
    collection share a [jcrPath]. *)
Theorem build_assets_unique (dirHandle : DirHandle) (pages : list Page.t)
    (projectUrl : string) (c c' : Cache) (r : outcome unit)
    (t : list Event) :
  pages <> [] ->
  createJcrPackage cfg web dirHandle pages projectUrl c = (r, c', t) ->
  NoDup (map Asset.jcrPath (jcrAssets c')).
Proof. exact (build_uniquePaths dirHandle pages projectUrl c c' r t). Qed.

End Dedup.

Lemma build_assets_unique_witness :
  let run := createJcrPackage shipped Demo.web Demo.dir [Demo.galleryPage]
               Demo.projectUrl Demo.empty in
  Demo.fileReferences "<gallery/>"
  = ["/media/a.png?width=100"; "./b.jpg"; "/media/a.png?width=100"]
  /\ map Asset.jcrPath (jcrAssets (snd (fst run)))
     = [Some "/content/dam/repo/media/a_width100.png";
        Some "/content/dam/repo/a/b.jpg"]
  /\ NoDup (map Asset.jcrPath (jcrAssets (snd (fst run)))).
Proof.
  intros run. split; [reflexivity|]. split; [vm_compute; reflexivity|].
  apply (build_assets_unique shipped Demo.web Demo.dir [Demo.galleryPage]
           Demo.projectUrl Demo.empty (snd (fst run)) (fst (fst run))
           (snd run)).
  - discriminate.
  - vm_compute. reflexivity.
Defined.

(* ------------------------------------------------------------------ *)
(** ** Successful runs: what is computed, and how often pages are parsed *)
(* ------------------------------------------------------------------ *)

Lemma mapM_length {A B : Type} (f : A -> M B) (a : list A) :
  forall c bs c' t, mapM f a c = (Ok bs, c', t) -> length bs = length a.
Proof.
  induction a as [|x a IH]; intros c bs c' t H; cbn [mapM] in H.
  - now injection H as <- _ _.
  - apply bind_Ok_inv in H as (y & c1 & t1 & t2 & _ & H & _).
    apply bind_Ok_inv in H as (ys & c2 & t3 & t4 & Hys & H & _).
    injection H as <- _ _. simpl. f_equal. exact (IH _ _ _ _ Hys).
Qed.

(** Inversion of a successful run, bind by bind. *)
Ltac inv_run :=
  repeat match goal with
         | E : bind _ _ _ = (Ok _, _, _) |- _ =>
             apply bind_Ok_inv in E as (? & ? & ? & ? & ? & ? & ->)
         | E : emit _ _ = _ |- _ => injection E; intros; subst; clear E
         | E : ret _ _ = _ |- _ => injection E; intros; subst; clear E
         | E : lift _ _ = _ |- _ => injection E; intros; subst; clear E
         | E : getCache _ = _ |- _ => injection E; intros; subst; clear E
         end.

Section Runs.

Variable cfg : Config.
Variable web : Browser.

(** Resolving one page parses its markup three times and serializes it
    once. *)
Lemma resolvePage_counts (projectUrl : string) (page : Page.t)
    (c c' : Cache) (resolved : JcrPage.t) (t : list Event) :
  resolvePage cfg web projectUrl page c = (Ok resolved, c', t) ->
  parses t = 3 /\ serializations t = 1.
Proof.
  unfold resolvePage, getPageProperties, getPageContentChildren,
    getProcessedJcr. intros H. inv_run.
  match goal with
  | E : mapM _ _ _ = _ |- _ =>
      destruct (related_mapM quiet quiet_nil quiet_trans _ _
                  (processImage_quiet cfg web (Page.url page) projectUrl)
                  _ _ _ _ E) as [Ep Es]
  end.
  rewrite !parses_app, !serializations_app, Ep, Es. split; reflexivity.
Qed.

(** A request for the resolved pages is served from the cache once the
    cache holds a non-empty array. *)
Lemma getJcrPages_hit (pages : list Page.t) (projectUrl : string)
    (c : Cache) (resolved : list JcrPage.t) :
  jcrPages c = PagesArray resolved -> resolved <> [] ->
  getJcrPages cfg web pages projectUrl c = (Ok resolved, c, []).
Proof.
  intros Hc Hne. unfold getJcrPages, bind, getCache, lift, ret.
  rewrite Hc. destruct resolved; [contradiction|]. cbn. now rewrite Hc.
Qed.

(** A first call of [getJcrPages], taken apart: every page has been
    resolved; the trace is made of the synchronous parts of the
    callbacks, in page order, followed by the rest of what they emit, in
    some order; the module variable holds the settled promise, which is
    fulfilled when no callback throws and is otherwise rejected with the
    error of one of them. *)
Lemma getJcrPages_inv (pages : list Page.t) (projectUrl : string)
    (c c' : Cache) (r : outcome (list JcrPage.t)) (t : list Event) :
  jcrPages c = PagesArray [] ->
  getJcrPages cfg web pages projectUrl c = (r, c', t) ->
  exists runs rest,
    Forall2 (fun page run =>
               resolvePage cfg web projectUrl page c
               = (fst run, c, snd run)) pages runs
    /\ c' = mkCache (PagesPromise r) (jcrAssets c)
    /\ t = (flat_map (fun run => syncPart (snd run)) runs ++ rest)%list
    /\ Permutation rest (flat_map (fun run => asyncPart (snd run)) runs)
    /\ Permutation t (flat_map snd runs)
    /\ (forall l, r = Ok l -> map fst runs = map Ok l)
    /\ (forall e, r = Throw e -> In (Throw e) (map fst runs))
    /\ (forall e, In (Throw e) (map fst runs) -> exists e', r = Throw e').
Proof.
  intros Hc H. unfold getJcrPages in H.
  unfold bind at 1, getCache at 1 in H. rewrite Hc in H.
  cbn [pages_length_is_0] in H. unfold bind at 1 2 in H.
  destruct (promiseAll (resumes web)
              (map (resolvePage cfg web projectUrl) pages) c)
    as [[r0 c1] t0] eqn:Hp.
  apply promiseAll_inv in Hp
    as (runs & rest & settled & Hruns & -> & -> & Hrest & Hperm
        & Hok & Hthrow & Hrej).
  apply startAll_runs in Hruns as [-> Hruns];
    [|apply resolvePage_stateless].
  cbn in H. injection H as <- <- <-.
  exists runs, rest. rewrite !app_nil_r.
  repeat split; assumption.
Qed.

(** What the callbacks that have all returned add up to. *)
Lemma runs_measure (projectUrl : string) (m : list Event -> nat)
    (h : Page.t -> nat) (c : Cache) :
  m [] = 0 ->
  (forall t1 t2, m (t1 ++ t2)%list = m t1 + m t2) ->
  (forall page y c' t,
      resolvePage cfg web projectUrl page c = (Ok y, c', t) ->
      m t = h page) ->
  forall pages runs l,
    Forall2 (fun page run =>
               resolvePage cfg web projectUrl page c
               = (fst run, c, snd run)) pages runs ->
    map fst runs = map Ok l ->
    m (flat_map snd runs) = list_sum (map h pages).
Proof.
  intros Hnil Happ Hm pages runs l Hruns. revert l.
  induction Hruns as [|page run pages runs Hrun _ IH]; intros l Hl;
    [exact Hnil|].
  destruct l as [|y l]; [discriminate Hl|]. injection Hl as Hy Hl.
  rewrite Hy in Hrun. cbn [flat_map map list_sum].
  now rewrite Happ, (Hm _ _ _ _ Hrun), (IH l Hl).
Qed.

Lemma runs_flat_map {B : Type} (projectUrl : string)
    (g : list Event -> list B) (h : Page.t -> list B) (c : Cache) :
  (forall page y c' t,
      resolvePage cfg web projectUrl page c = (Ok y, c', t) ->
      g t = h page) ->
  forall pages runs l,
    Forall2 (fun page run =>
               resolvePage cfg web projectUrl page c
               = (fst run, c, snd run)) pages runs ->
    map fst runs = map Ok l ->
    flat_map (fun run => g (snd run)) runs = flat_map h pages.
Proof.
  intros Hg pages runs l Hruns. revert l.
  induction Hruns as [|page run pages runs Hrun _ IH]; intros l Hl;
    [reflexivity|].
  destruct l as [|y l]; [discriminate Hl|]. injection Hl as Hy Hl.
  rewrite Hy in Hrun. cbn [flat_map].
  now rewrite (Hg _ _ _ _ Hrun), (IH l Hl).
Qed.

Lemma runs_results (projectUrl : string)
    (P : Page.t -> JcrPage.t -> Prop) (c : Cache) :
  (forall page y c' t,
      resolvePage cfg web projectUrl page c = (Ok y, c', t) -> P page y) ->
  forall pages runs l,
    Forall2 (fun page run =>
               resolvePage cfg web projectUrl page c
               = (fst run, c, snd run)) pages runs ->
    map fst runs = map Ok l ->
    Forall2 P pages l.
Proof.
  intros HP pages runs l Hruns. revert l.
  induction Hruns as [|page run pages runs Hrun _ IH]; intros l Hl.
  - destruct l; [constructor | discriminate Hl].
  - destruct l as [|y l]; [discriminate Hl|]. injection Hl as Hy Hl.
    rewrite Hy in Hrun. constructor; [exact (HP _ _ _ _ Hrun) | auto].
Qed.

Lemma list_sum_const {X : Type} (n : nat) (l : list X) :
  list_sum (map (fun _ => n) l) = n * length l.
Proof.
  induction l as [|x l IH]; cbn [map list_sum fold_right length];
    [lia | rewrite Nat.mul_succ_r; unfold list_sum in IH; lia].
Qed.

(** On the empty cache the pages are resolved, one resolved page per
    input page. *)
Lemma getJcrPages_fresh (pages : list Page.t) (projectUrl : string)
    (c c' : Cache) (resolved : list JcrPage.t) (t : list Event) :
  jcrPages c = PagesArray [] ->
  getJcrPages cfg web pages projectUrl c = (Ok resolved, c', t) ->
  c' = mkCache (PagesPromise (Ok resolved)) (jcrAssets c)
  /\ length resolved = length pages
  /\ parses t = 3 * length pages
  /\ serializations t = length pages.
Proof.
  intros Hc H.
  apply (getJcrPages_inv _ _ _ _ _ _ Hc) in H
    as (runs & rest & Hruns & -> & _ & _ & Hperm & Hok & _).
  specialize (Hok resolved eq_refl).
  split; [reflexivity|]. split.
  { apply (f_equal (@length _)) in Hok. rewrite !length_map in Hok.
    rewrite <- Hok. symmetry. exact (Forall2_length Hruns). }
  unfold parses, serializations.
  rewrite !(Permutation_filter_length _ _ _ Hperm).
  fold (parses (flat_map snd runs)) (serializations (flat_map snd runs)).
  split.
  - rewrite (runs_measure projectUrl parses (fun _ => 3) c eq_refl
               parses_app
               (fun page y c0 t0 H0 =>
                  proj1 (resolvePage_counts _ _ _ _ _ _ H0))
               pages runs resolved Hruns Hok).
    apply list_sum_const.
  - rewrite (runs_measure projectUrl serializations (fun _ => 1) c eq_refl
               serializations_app
               (fun page y c0 t0 H0 =>
                  proj2 (resolvePage_counts _ _ _ _ _ _ H0))
               pages runs resolved Hruns Hok).
    rewrite list_sum_const. lia.
Qed.

(** The scan of [getJcrAssets] parses each resolved page once and leaves
    [jcrPages] alone. *)
Lemma collectLoop_run (projectUrl : string) (resolved : list JcrPage.t) :
  forall c c' t,
    forEachM
      (fun page =>
         bind (emit (DomParse (JcrPage.sourceXml page)))
           (fun _ =>
              forEachM (collectAsset cfg web (JcrPage.url page) projectUrl)
                (fileReferences web (JcrPage.sourceXml page))))
      resolved c = (Ok tt, c', t) ->
    jcrPages c' = jcrPages c
    /\ parses t = length resolved /\ serializations t = 0.
Proof.
  induction resolved as [|page resolved IH]; intros c c' t H;
    cbn [forEachM] in H.
  - injection H as <- <-. now repeat split.
  - inv_run.
    match goal with
    | E : forEachM (collectAsset _ _ _ _) _ _ = _ |- _ =>
        pose proof (related_forEachM quiet quiet_nil quiet_trans _ _
                      (collectAsset_quiet cfg web (JcrPage.url page)
                         projectUrl) _ _ _ _ E) as [Ep Es];
        pose proof (related_forEachM samePages (samePages_same [])
                      samePages_trans _ _
                      (collectAsset_samePages cfg web (JcrPage.url page)
                         projectUrl) _ _ _ _ E) as Hpages
    end.
    match goal with
    | E : forEachM _ resolved _ = _ |- _ =>
        apply IH in E as (Hpages' & Hp & Hs)
    end.
    unfold samePages in Hpages.
    rewrite !parses_app, !serializations_app, Ep, Es, Hp, Hs.
    cbn. split; [congruence | split; reflexivity].
Qed.

(** A successful [getJcrAssets] in a build whose pages are resolved:
    the result is the array held by the module variable; a non-empty
    cached array is returned as it is, an empty one is computed again. *)
Lemma getJcrAssets_run (pages : list Page.t) (projectUrl : string)
    (c c' : Cache) (resolved : list JcrPage.t) (assets : list Asset.t)
    (t : list Event) :
  jcrPages c = PagesArray resolved -> resolved <> [] ->
  getJcrAssets cfg web pages projectUrl c = (Ok assets, c', t) ->
  jcrPages c' = PagesArray resolved
  /\ jcrAssets c' = assets
  /\ serializations t = 0
  /\ parses t = match jcrAssets c with
                | [] => length resolved
                | _ :: _ => 0
                end
  /\ (jcrAssets c <> [] -> assets = jcrAssets c).
Proof.
  intros Hc Hne H. unfold getJcrAssets in H.
  apply bind_Ok_inv in H as (c0 & c1 & t1 & t2 & Hg & H & ->).
  injection Hg as <- <- <-.
  apply bind_Ok_inv in H as (u & c2 & t3 & t4 & Hif & H & ->).
  unfold bind, getCache, ret in H. injection H as <- <- <-.
  destruct (jcrAssets c) as [|a0 rest] eqn:Ha; cbn [length Nat.eqb] in Hif.
  - apply bind_Ok_inv in Hif as (rs & c3 & t5 & t6 & Hp & Hif & ->).
    rewrite (getJcrPages_hit pages projectUrl c resolved Hc Hne) in Hp.
    injection Hp as <- <- <-.
    apply bind_Ok_inv in Hif as (u' & c4 & t7 & t8 & Hs & Hif & ->).
    injection Hs as _ <- <-. destruct u.
    apply collectLoop_run in Hif as (Hpages & Hp & Hs).
    cbn in Hpages. rewrite !app_nil_r, !parses_app, !serializations_app.
    cbn [app parses serializations filter length]. rewrite Hp, Hs.
    repeat split; try assumption; try lia. intros Hn. now contradiction Hn.
  - injection Hif as _ <- <-. rewrite Ha, Hc. repeat split.
Qed.


(** A successful [getFilterXml] in a build whose pages are resolved. *)
Lemma getFilterXml_run (pages : list Page.t) (projectUrl : string)
    (c c' : Cache) (resolved : list JcrPage.t) (path xml : string)
    (t : list Event) :
  jcrPages c = PagesArray resolved -> resolved <> [] ->
  getFilterXml cfg web pages projectUrl c = (Ok (path, xml), c', t) ->
  exists c1 t1,
    getJcrAssets cfg web pages projectUrl
      (mkCache (PagesArray resolved) (jcrAssets c))
    = (Ok (jcrAssets c'), c1, t1)
    /\ path = "META-INF/vault/filter.xml"
    /\ xml = filterXmlOf resolved (getResourcePaths (jcrAssets c') true)
    /\ jcrPages c' = PagesArray resolved
    /\ serializations t = 0
    /\ parses t = match jcrAssets c with
                  | [] => length resolved
                  | _ :: _ => 0
                  end.
Proof.
  intros Hc Hne H. unfold getFilterXml, getJcrAssetPaths in H.
  apply bind_Ok_inv in H as (rs & c1 & t1 & t2 & Hp & H & ->).
  rewrite (getJcrPages_hit pages projectUrl c resolved Hc Hne) in Hp.
  injection Hp as <- <- <-.
  apply bind_Ok_inv in H as (u & c2 & t3 & t4 & Hs & H & ->).
  injection Hs as _ <- <-.
  apply bind_Ok_inv in H as (paths & c3 & t5 & t6 & Hpaths & H & ->).
  injection H as <- <- <- <-.
  apply bind_Ok_inv in Hpaths as (assets & c4 & t7 & t8 & Ha & H & ->).
  apply bind_Ok_inv in H as (u' & c5 & t9 & t10 & Hs & H & ->).
  injection Hs as _ <- <-. injection H as <- <- <-.
  pose proof Ha as Hrun.
  apply (getJcrAssets_run pages projectUrl _ _ resolved) in Hrun
    as (Hpages & Hassets & Hser & Hpar & _);
    [|reflexivity|assumption].
  cbn [jcrAssets jcrPages] in *.
  exists c4, t7. rewrite !app_nil_r. cbn [app].
  repeat split; assumption.
Qed.


End Runs.

(** C4 as stated fails. In the build of one page without references the
    markup of the page is parsed five times, not once; in the build of a
    page that references the same image of another host twice, the image
    is fetched twice. *)
Lemma pages_parsed_again_and_assets_fetched_again :
  (fst (fst Demo.plainBuild) = Ok tt
   /\ filter isDomParse (snd Demo.plainBuild)
      = [DomParse "<plain/>"; DomParse "<plain/>"; DomParse "<plain/>";
         DomParse "<plain/>"; DomParse "<plain/>"]
   /\ parses (snd Demo.plainBuild) <> 1)
  /\ (fst (fst Demo.externalBuild) = Ok tt
      /\ Demo.fileReferences "<external/>"
         = ["https://cdn.example.com/logo.png";
            "https://cdn.example.com/logo.png"]
      /\ length (filter (isFetchOf "https://cdn.example.com/logo.png")
                   (snd Demo.externalBuild)) = 2).
Proof.
  repeat split; try (vm_compute; reflexivity).
  vm_compute. discriminate.
Qed.


(* ------------------------------------------------------------------ *)
(** ** Filter document *)
(* ------------------------------------------------------------------ *)
























Section FilterDocument.

Variable cfg : Config.
Variable web : Browser.


End FilterDocument.



(* ------------------------------------------------------------------ *)
(** * Further properties of the module *)
(* ------------------------------------------------------------------ *)

(** ** Segments of a path *)

Lemma join_push (c : ascii) (sep t : string) (ts : list string) :
  Js.join sep (String c t :: ts) = String c (Js.join sep (t :: ts)).
Proof. destruct ts; reflexivity. Qed.

(** Splitting at a character and joining with it gives the text back. *)
Lemma join_split (sep : ascii) (s : string) :
  Js.join (String sep "") (Js.split sep s) = s.
Proof.
  induction s as [|c s IH]; [reflexivity|]. cbn [Js.split].
  destruct (split_cons sep s) as (t & ts & E). rewrite E in *.
  destruct (Ascii.eqb c sep) eqn:Hc.
  - apply Ascii.eqb_eq in Hc as ->.
    change (Js.join (String sep "") ("" :: t :: ts))
      with (String sep (Js.join (String sep "") (t :: ts))).
    now rewrite IH.
  - now rewrite join_push, IH.
Qed.

Lemma split_last (sep : ascii) (t : string) :
  without sep t = true -> Js.split sep t = [t].
Proof.
  induction t as [|c t IH]; intros H; [reflexivity|]. cbn in *.
  apply andb_prop in H as [Hc Ht]. apply negb_true_iff in Hc.
  now rewrite Hc, (IH Ht).
Qed.

Lemma split_segment (sep : ascii) (t r : string) :
  without sep t = true ->
  Js.split sep (t ++ String sep r) = t :: Js.split sep r.
Proof.
  induction t as [|c t IH]; intros H; cbn in *.
  - now rewrite Ascii.eqb_refl.
  - apply andb_prop in H as [Hc Ht]. apply negb_true_iff in Hc.
    now rewrite Hc, (IH Ht).
Qed.

(** Every text is a first segment followed by nothing or by a slash and
    the rest. *)
Lemma first_segment (sep : ascii) (s : string) :
  exists t after,
    s = t ++ after /\ without sep t = true
    /\ (after = "" \/ exists r, after = String sep r).
Proof.
  induction s as [|c s (t & after & -> & Ht & Hafter)].
  - exists "", "". auto.
  - destruct (Ascii.eqb c sep) eqn:Hc.
    + apply Ascii.eqb_eq in Hc as ->.
      exists "", (String sep (t ++ after)). repeat split; eauto.
    + exists (String c t), after. repeat split; [|assumption].
      cbn. now rewrite Hc.
Qed.

Lemma split_two (sep : ascii) (a b : string) :
  exists t t' ts, Js.split sep (a ++ String sep b) = t :: t' :: ts.
Proof.
  induction a as [|c a (t & t' & ts & IH)]; cbn.
  - rewrite Ascii.eqb_refl. destruct (split_cons sep b) as (t & ts & ->).
    eauto.
  - rewrite IH. destruct (Ascii.eqb c sep); eauto.
Qed.

(** The last segment of a text: what [split(sep).pop()] returns. *)
Lemma pop_split (sep : ascii) (s : string) :
  exists pre last,
    s = pre ++ last /\ Js.pop (Js.split sep s) = Some last
    /\ without sep last = true
    /\ (pre = "" \/ exists pre', pre = pre' ++ String sep "").
Proof.
  induction s as [|c s (pre & last & -> & Hpop & Hlast & Hpre)].
  - exists "", "". auto.
  - cbn [Js.split].
    destruct (split_cons sep (pre ++ last)) as (t & ts & E).
    rewrite E in *. destruct (Ascii.eqb c sep) eqn:Hc.
    + apply Ascii.eqb_eq in Hc as ->.
      exists (String sep pre), last. repeat split; try assumption.
      right. destruct Hpre as [->|[pre' ->]].
      * now exists "".
      * now exists (String sep pre').
    + destruct ts as [|t' ts].
      * cbn in Hpop. injection Hpop as ->.
        assert (pre = "") as ->.
        { destruct Hpre as [->|[pre' ->]]; [reflexivity|].
          exfalso. rewrite append_assoc in E. cbn in E.
          destruct (split_two sep pre' last) as (x & y & l & E').
          rewrite E' in E. discriminate E. }
        exists "", (String c last). repeat split; auto.
        cbn. now rewrite Hc, Hlast.
      * exists (String c pre), last. repeat split; try assumption.
        destruct Hpre as [->|[pre' ->]].
        -- exfalso. cbn in E. rewrite (split_last sep last Hlast) in E.
           discriminate E.
        -- right. now exists (String c pre').
Qed.

Lemma joinItem_Some (l : list string) : map Js.joinItem (map Some l) = l.
Proof. induction l as [|x l IH]; cbn; congruence. Qed.

(** ** Page paths and package names *)

Section PagePaths.

Variable cfg : Config.
Variable web : Browser.

(** Under [/content/] the segment after it is replaced and the rest of
    the path is kept. *)
Lemma getJcrPagePath_content (projectUrl : string)
    (siteName : option string) (t after : string) :
  getSiteName cfg web projectUrl = Ok siteName ->
  without "/" t = true ->
  (after = "" \/ exists r, after = String "/" r) ->
  getJcrPagePath cfg web ("/content/" ++ t ++ after) projectUrl
  = Ok ("/content/" ++ Js.joinItem siteName ++ after).
Proof.
  intros Hs Ht Hafter. unfold getJcrPagePath. rewrite Hs. cbn [obind].
  rewrite startsWith_app.
  change ("/content/" ++ t ++ after)
    with ("" ++ String "/" ("content" ++ String "/" (t ++ after))).
  rewrite !split_segment by reflexivity.
  destruct Hafter as [->|[r ->]].
  - rewrite append_nil_r, (split_last "/" t Ht). cbn. 
    now rewrite append_nil_r.
  - rewrite (split_segment "/" t r Ht).
    destruct (split_cons "/" r) as (x & xs & E). rewrite E.
    cbn [map Js.splice1 firstn skipn app Js.joinItem].
    rewrite joinItem_Some.
    change (Js.join "/" ("" :: "content" :: Js.joinItem siteName :: x :: xs))
      with ("/content/" ++ Js.joinItem siteName ++ "/"
            ++ Js.join "/" (x :: xs)).
    now rewrite <- E, join_split.
Qed.

(** X1. The page path mapper replaces the site segment of a path under
    [/content/] and keeps what follows it; any other path is appended to
    [/content/<site>]. Without a site name (no second segment in the
    project URL) the first case leaves the segment empty and the second
    writes the text "undefined". *)
Theorem getJcrPagePath_shape (projectUrl : string)
    (siteName : option string) :
  getSiteName cfg web projectUrl = Ok siteName ->
  (forall t after,
      without "/" t = true ->
      (after = "" \/ exists r, after = String "/" r) ->
      getJcrPagePath cfg web ("/content/" ++ t ++ after) projectUrl
      = Ok ("/content/" ++ Js.joinItem siteName ++ after))
  /\ (forall path,
         Js.startsWith path "/content/" = false ->
         getJcrPagePath cfg web path projectUrl
         = Ok ("/content/" ++ Js.tmpl siteName ++ path)).
Proof.
  intros Hs. split.
  - intros t after. now apply getJcrPagePath_content.
  - intros path Hp. unfold getJcrPagePath. now rewrite Hs, Hp.
Qed.

(** X2. Mapping a mapped page path again changes nothing, for a rooted source
    path and a site name without a slash. *)
Theorem getJcrPagePath_idempotent (projectUrl siteName path mapped : string) :
  getSiteName cfg web projectUrl = Ok (Some siteName) ->
  without "/" siteName = true ->
  Js.startsWith path "/" = true ->
  getJcrPagePath cfg web path projectUrl = Ok mapped ->
  getJcrPagePath cfg web mapped projectUrl = Ok mapped.
Proof.
  intros Hs Hsite Hroot Hmap.
  destruct (Js.startsWith path "/content/") eqn:Hp.
  - apply startsWith_inv in Hp as [tail ->].
    destruct (first_segment "/" tail) as (t & after & -> & Ht & Hafter).
    rewrite (getJcrPagePath_content projectUrl (Some siteName) t after
               Hs Ht Hafter) in Hmap.
    injection Hmap as <-.
    exact (getJcrPagePath_content projectUrl (Some siteName) siteName after
             Hs Hsite Hafter).
  - unfold getJcrPagePath in Hmap. rewrite Hs, Hp in Hmap.
    injection Hmap as <-. cbn [Js.tmpl].
    apply (getJcrPagePath_content projectUrl (Some siteName) siteName path
             Hs Hsite).
    right. destruct path as [|c path]; [discriminate Hroot|].
    cbn in Hroot. apply andb_prop in Hroot as [Hc _].
    apply Ascii.eqb_eq in Hc as ->. eauto.
Qed.

(** X3. Two source paths outside [/content/] are never mapped to the same
    page path. *)
Theorem getJcrPagePath_injective (projectUrl path1 path2 mapped : string) :
  Js.startsWith path1 "/content/" = false ->
  Js.startsWith path2 "/content/" = false ->
  getJcrPagePath cfg web path1 projectUrl = Ok mapped ->
  getJcrPagePath cfg web path2 projectUrl = Ok mapped ->
  path1 = path2.
Proof.
  unfold getJcrPagePath. intros H1 H2.
  destruct (getSiteName cfg web projectUrl) as [siteName|e]; cbn [obind];
    [|discriminate].
  rewrite H1, H2. intros [= <-] [= E].
  apply append_inj_l in E. now symmetry.
Qed.

(** X4. The package of a single page is named after the site and the last
    segment of the page's path (the text after its last slash, possibly
    empty); the package of any other number of pages is named after the
    site. *)
Theorem getPackageName_shape (projectUrl : string)
    (siteName : option string) :
  getSiteName cfg web projectUrl = Ok siteName ->
  (forall page, exists pre last,
      Page.path page = pre ++ last
      /\ without "/" last = true
      /\ (pre = "" \/ exists pre', pre = pre' ++ "/")
      /\ getPackageName cfg web [page] projectUrl
         = Ok (Js.tmpl siteName ++ "_" ++ last))
  /\ (forall pages,
         length pages <> 1 ->
         getPackageName cfg web pages projectUrl = Ok (Js.tmpl siteName)).
Proof.
  intros Hs. split.
  - intros page.
    destruct (pop_split "/" (Page.path page))
      as (pre & last & Hpath & Hpop & Hlast & Hpre).
    exists pre, last. repeat split; try assumption.
    unfold getPackageName. rewrite Hs. cbn [obind]. now rewrite Hpop.
  - intros pages Hlen. unfold getPackageName. rewrite Hs. cbn [obind].
    destruct pages as [|p [|q pages]]; try reflexivity. now contradiction Hlen.
Qed.

End PagePaths.

Lemma getJcrPagePath_shape_witness :
  getJcrPagePath shipped Demo.web "/content/other-site/foo/bar"
    Demo.projectUrl
  = Ok "/content/repo/foo/bar"
  /\ getJcrPagePath shipped Demo.web "/content/x/y" "https://github.com/org"
     = Ok "/content//y"
  /\ getJcrPagePath shipped Demo.web "/x/y" "https://github.com/org"
     = Ok "/content/undefined/x/y".
Proof.
  destruct (getJcrPagePath_shape shipped Demo.web Demo.projectUrl
              (Some "repo") eq_refl) as [Hin _].
  destruct (getJcrPagePath_shape shipped Demo.web "https://github.com/org"
              None eq_refl) as [Hin' Hout'].
  split; [|split].
  - apply (Hin "other-site" "/foo/bar"); [reflexivity | eauto].
  - apply (Hin' "x" "/y"); [reflexivity | eauto].
  - apply (Hout' "/x/y"). reflexivity.
Defined.

Lemma getJcrPagePath_idempotent_witness :
  getJcrPagePath shipped Demo.web "/content/repo/foo/bar" Demo.projectUrl
  = Ok "/content/repo/foo/bar".
Proof.
  apply (getJcrPagePath_idempotent shipped Demo.web Demo.projectUrl "repo"
           "/foo/bar" "/content/repo/foo/bar");
    reflexivity.
Defined.

Lemma getJcrPagePath_injective_witness : "/foo/bar" = "/foo/bar".
Proof.
  apply (getJcrPagePath_injective shipped Demo.web Demo.projectUrl
           "/foo/bar" "/foo/bar" "/content/repo/foo/bar");
    reflexivity.
Defined.

Lemma getPackageName_shape_witness :
  (exists pre last,
      "/a/b" = pre ++ last
      /\ getPackageName shipped Demo.web [Demo.plainPage] Demo.projectUrl
         = Ok ("repo" ++ "_" ++ last))
  /\ getPackageName shipped Demo.web [] Demo.projectUrl = Ok "repo".
Proof.
  destruct (getPackageName_shape shipped Demo.web Demo.projectUrl
              (Some "repo") eq_refl) as [Hone Hmany].
  split.
  - destruct (Hone Demo.plainPage) as (pre & last & Hp & _ & _ & Hn).
    exists pre, last. split; [exact Hp | exact Hn].
  - apply (Hmany []). discriminate.
Defined.

(** ** Resolved assets *)

Section ResolvedAssets.

Variable cfg : Config.
Variable web : Browser.

(** An asset path lies under [/content/dam/] even when the project has no
    site name. *)
Lemma getJcrAssetPath_dam (assetUrl : URL) (projectUrl p : string) :
  getJcrAssetPath cfg web assetUrl projectUrl = Ok p ->
  Js.startsWith p "/content/dam/" = true.
Proof.
  unfold getJcrAssetPath.
  destruct (getSiteName cfg web projectUrl) as [siteName|e]; cbn [obind];
    [|discriminate].
  destruct (Js.startsWith (assetBase assetUrl) "/content/dam/") eqn:Hp.
  - apply startsWith_inv in Hp as [r Hp]. rewrite Hp.
    destruct (split_cons "/" r) as (t & ts & Hr).
    intros [= <-]. cbn -[Js.join Js.startsWith]. rewrite Hr.
    cbn -[Js.join Js.startsWith].
    change (Js.join "/" ("" :: "content" :: "dam" :: Js.joinItem siteName
                           :: map Js.joinItem (map Some ts)))
      with ("/content/dam/" ++ Js.join "/" (Js.joinItem siteName
                           :: map Js.joinItem (map Some ts))).
    exact (startsWith_app "/content/dam/" _).
  - intros [= <-]. exact (startsWith_app "/content/dam/" _).
Qed.

(** The shape of every asset the classifier returns. *)
Lemma getAsset_returns (fileReference : option string)
    (pageUrl projectUrl : string) (asset : Asset.t) :
  getAsset cfg web fileReference pageUrl projectUrl = Ok (Some asset) ->
  fileReference = Some (Asset.fileReference asset)
  /\ Asset.blob asset = None /\ Asset.mimeType asset = None
  /\ match Asset.jcrPath asset with
     | Some p =>
         Asset.processedFileRef asset = p
         /\ Js.startsWith p "/content/dam/" = true
         /\ Asset.url asset <> None
     | None =>
         Asset.processedFileRef asset = Asset.fileReference asset
         /\ Asset.add asset = false
     end.
Proof.
  unfold getAsset.
  destruct fileReference as [[|ch ref]|]; try discriminate.
  set (r := String ch ref).
  destruct (new_URL web pageUrl) as [pu|e]; cbn [obind]; [|discriminate].
  assert (Hres : forall url add,
             (let? jcrPath := getJcrAssetPath cfg web url projectUrl in
              Ok (Some (Asset.mk r jcrPath (Some jcrPath) (Some url) add
                          None None)))%outcome = Ok (Some asset) ->
             Some r = Some (Asset.fileReference asset)
             /\ Asset.blob asset = None /\ Asset.mimeType asset = None
             /\ match Asset.jcrPath asset with
                | Some p =>
                    Asset.processedFileRef asset = p
                    /\ Js.startsWith p "/content/dam/" = true
                    /\ Asset.url asset <> None
                | None =>
                    Asset.processedFileRef asset = Asset.fileReference asset
                    /\ Asset.add asset = false
                end).
  { intros url add.
    destruct (getJcrAssetPath cfg web url projectUrl) as [p|e] eqn:Hp;
      cbn [obind]; [|discriminate].
    intros [= <-]. cbn. repeat split.
    - exact (getJcrAssetPath_dam url projectUrl p Hp).
    - discriminate. }
  repeat match goal with
         | |- (if ?b then _ else _) = _ -> _ => destruct b
         | |- obind (new_URL web ?s) _ = _ -> _ =>
             destruct (new_URL web s); cbn [obind]; [|discriminate]
         end;
    try apply Hres; intros [= <-]; cbn; repeat split.
Qed.

(** X5. What the classifier returns: the reference it was given, no bytes
    yet; either a canonical path under [/content/dam/], which is also the
    rewritten reference, together with the URL to fetch, or no path, the
    reference kept as it is and the asset not included. *)
Theorem getAsset_invariant (fileReference : option string)
    (pageUrl projectUrl : string) (asset : Asset.t) :
  getAsset cfg web fileReference pageUrl projectUrl = Ok (Some asset) ->
  fileReference = Some (Asset.fileReference asset)
  /\ Asset.blob asset = None /\ Asset.mimeType asset = None
  /\ match Asset.jcrPath asset with
     | Some p =>
         Asset.processedFileRef asset = p
         /\ Js.startsWith p "/content/dam/" = true
         /\ Asset.url asset <> None
     | None =>
         Asset.processedFileRef asset = Asset.fileReference asset
         /\ Asset.add asset = false
     end.
Proof. apply getAsset_returns. Qed.

(** X6. A reference that is neither an absolute URL, nor rooted, nor written
    with [./] is left as it is and not included; the URL of the page must
    parse all the same. *)
Theorem getAsset_unclassified (fileReference pageUrl projectUrl : string) :
  fileReference <> "" ->
  Js.startsWith fileReference "http" = false ->
  Js.startsWith fileReference "/" = false ->
  Js.startsWith fileReference "./" = false ->
  match newURL web pageUrl with
  | Some _ =>
      getAsset cfg web (Some fileReference) pageUrl projectUrl
      = Ok (Some (Asset.mk fileReference fileReference None None false
                    None None))
      /\ getProcessedFileRef cfg web (Some fileReference) pageUrl projectUrl
         = Ok fileReference
  | None =>
      exists e,
        getAsset cfg web (Some fileReference) pageUrl projectUrl = Throw e
  end.
Proof.
  intros Hne Hhttp Hroot Hrel.
  assert (Hdam : Js.startsWith fileReference "/content/dam/" = false).
  { destruct fileReference as [|c s]; [reflexivity|]. cbn in *.
    apply andb_false_iff in Hroot as [Hc|Hc]; [|discriminate Hc].
    now rewrite Hc. }
  unfold getProcessedFileRef, getAsset, new_URL.
  destruct fileReference as [|ch ref]; [contradiction|].
  destruct (newURL web pageUrl) as [pu|]; cbn [obind].
  - now rewrite Hhttp, Hdam, Hroot, Hrel.
  - eexists. reflexivity.
Qed.

(** What a lookup in an object literal inherits is truthy. *)
Lemma objectPrototype_truthy (key v : string) :
  Js.objectPrototype key = Some v -> v <> "".
Proof.
  unfold Js.objectPrototype, Js.nativeFunction.
  repeat match goal with
         | |- context [if ?b then _ else _] => destruct b
         end; intros [= <-]; discriminate.
Qed.

Lemma getMimeTypeFromExtension_truthy (extension : option string) :
  getMimeTypeFromExtension extension <> Some "".
Proof.
  unfold getMimeTypeFromExtension.
  repeat match goal with
         | |- context [match ?x with _ => _ end] =>
             lazymatch x with
             | context [Js.objectPrototype] => fail
             | _ => destruct x
             end
         end;
    first [ discriminate
          | intros E; exact (objectPrototype_truthy _ _ E eq_refl) ].
Qed.

(** X7. After a fetch that was answered, the asset holds the bytes exactly
    when the status was a success, and a mime type that is the response's
    content type when the status was a success and the header is not
    empty, else what the lookup in the extension table returns for the
    text after the last dot of the path: an entry of the table, a
    property that the table inherits, or nothing. It is never the empty
    string. *)
Theorem fetchAssetData_answered (asset asset' : Asset.t) (u : URL)
    (c c' : Cache) (t : list Event) :
  Asset.url asset = Some u ->
  fetchAssetData web asset c = (Ok asset', c', t) ->
  exists ok status body contentType,
    fetch web (href u) = Response ok status body contentType
    /\ Asset.blob asset' = (if ok then Some body else None)
    /\ Asset.mimeType asset'
       = (if ok && Js.truthy contentType then contentType
          else getMimeTypeFromExtension
                 (Js.pop (Js.split "." (pathname u))))
    /\ Asset.mimeType asset' <> Some "".
Proof.
  intros Hu. unfold fetchAssetData. rewrite Hu. unfold bind, emit, ret, throw.
  destruct (fetch web (href u)) as [ok status body contentType|error];
    [|discriminate].
  intros H. exists ok, status, body, contentType. split; [reflexivity|].
  pose proof getMimeTypeFromExtension_truthy as Htable.
  destruct ok; cbn in H; injection H as <- _ _; cbn.
  - unfold Js.orElse. destruct (Js.truthy contentType) eqn:Ht.
    + repeat split. intros ->. discriminate Ht.
    + repeat split. apply Htable.
  - repeat split. apply Htable.
Qed.

End ResolvedAssets.

Lemma getAsset_invariant_witness :
  exists asset,
    getAsset shipped Demo.web (Some "./b.jpg") (Demo.host ++ "/a/c")
      Demo.projectUrl = Ok (Some asset)
    /\ Asset.jcrPath asset = Some "/content/dam/repo/a/b.jpg"
    /\ Asset.processedFileRef asset = "/content/dam/repo/a/b.jpg".
Proof.
  eexists. split; [reflexivity|]. split; [reflexivity|].
  exact (proj1 (proj2 (proj2 (proj2
           (getAsset_invariant shipped Demo.web (Some "./b.jpg")
              (Demo.host ++ "/a/c") Demo.projectUrl _ eq_refl))))).
Defined.

Lemma getAsset_unclassified_witness :
  getProcessedFileRef shipped Demo.web (Some "images/a.png")
    (Demo.host ++ "/a/c") Demo.projectUrl
  = Ok "images/a.png".
Proof.
  refine (proj2 (getAsset_unclassified shipped Demo.web "images/a.png"
                   (Demo.host ++ "/a/c") Demo.projectUrl _ eq_refl eq_refl
                   eq_refl)).
  discriminate.
Defined.

Lemma fetchAssetData_answered_witness :
  (fetch Demo.web (Demo.host ++ "/missing/a.png")
   = Response false "404" "" None
   /\ Asset.blob Demo.missingFetched = None
   /\ Asset.mimeType Demo.missingFetched = Some "image/png")
  /\ (fetch Demo.web (Demo.host ++ "/missing/a.constructor")
      = Response false "404" "" None
      /\ Asset.blob Demo.inheritedFetched = None
      /\ Asset.mimeType Demo.inheritedFetched
         = Some "function Object() { [native code] }").
Proof.
  split.
  - assert (Hrun : fetchAssetData Demo.web Demo.missingAsset Demo.empty
                   = (Ok Demo.missingFetched, Demo.empty,
                      [Fetch (Demo.host ++ "/missing/a.png");
                       ConsoleError "Failed to fetch image: 404"]))
      by (vm_compute; reflexivity).
    destruct (fetchAssetData_answered Demo.web Demo.missingAsset
                Demo.missingFetched
                (mkURL (Demo.host ++ "/missing/a.png") Demo.host
                   "/missing/a.png" [])
                Demo.empty Demo.empty _ eq_refl Hrun)
      as (ok & status & body & contentType & Hf & Hb & Hm & _).
    split; [reflexivity|].
    change (fetch Demo.web (Demo.host ++ "/missing/a.png"))
      with (Response false "404" "" None) in Hf.
    injection Hf as <- <- <- <-. split; [exact Hb | exact Hm].
  - assert (Hrun : fetchAssetData Demo.web Demo.inheritedAsset Demo.empty
                   = (Ok Demo.inheritedFetched, Demo.empty,
                      [Fetch (Demo.host ++ "/missing/a.constructor");
                       ConsoleError "Failed to fetch image: 404"]))
      by (vm_compute; reflexivity).
    destruct (fetchAssetData_answered Demo.web Demo.inheritedAsset
                Demo.inheritedFetched
                (mkURL (Demo.host ++ "/missing/a.constructor") Demo.host
                   "/missing/a.constructor" [])
                Demo.empty Demo.empty _ eq_refl Hrun)
      as (ok & status & body & contentType & Hf & Hb & Hm & _).
    split; [reflexivity|].
    change (fetch Demo.web (Demo.host ++ "/missing/a.constructor"))
      with (Response false "404" "" None) in Hf.
    injection Hf as <- <- <- <-. split; [exact Hb | exact Hm].
Defined.

(** ** Resource paths *)

(** X8. A path is listed by [getResourcePaths] exactly when it is not
    empty and is the [jcrPath] of one of the resources, which, when the
    assets are asked for, is marked [add]. *)
Theorem getResourcePaths_spec {R : Type} `{Resource R}
    (resources : list R) (isAsset : bool) (p : string) :
  In p (getResourcePaths resources isAsset)
  <-> p <> ""
      /\ exists r, In r resources /\ resource_jcrPath r = Some p
                   /\ (isAsset = true -> resource_add r = true).
Proof.
  unfold getResourcePaths. rewrite in_flat_map. split.
  - intros (o & Ho & Hp). apply in_map_iff in Ho as (r & <- & Hr).
    destruct (resource_jcrPath r) as [q|] eqn:Hj.
    + destruct ((isAsset && resource_add r && Js.truthy (Some q))
                || (negb isAsset && Js.truthy (Some q))) eqn:Hc;
        [|destruct Hp].
      destruct Hp as [<-|[]]. split.
      * intros ->. cbn in Hc. rewrite !andb_false_r in Hc. discriminate Hc.
      * exists r. repeat split; try assumption. intros ->.
        destruct (resource_add r); [reflexivity|]. discriminate Hc.
    + destruct ((isAsset && resource_add r && Js.truthy None)
                || (negb isAsset && Js.truthy None)); destruct Hp.
  - intros (Hne & r & Hr & Hj & Ha).
    exists (Some p). split; [|now left].
    apply in_map_iff. exists r. split; [|assumption]. rewrite Hj.
    destruct p as [|ch q]; [contradiction|].
    destruct isAsset; cbn; [now rewrite Ha|reflexivity].
Qed.

(** ** Resolved pages and the page cache *)

Lemma mapM_Forall2 {A B : Type} (f : A -> M B) (P : A -> B -> Prop)
    (a : list A) :
  (forall x c y c' t, f x c = (Ok y, c', t) -> P x y) ->
  forall c bs c' t, mapM f a c = (Ok bs, c', t) -> Forall2 P a bs.
Proof.
  intros Hf. induction a as [|x a IH]; intros c bs c' t H; cbn [mapM] in H.
  - injection H as <- _ _. constructor.
  - apply bind_Ok_inv in H as (y & c1 & t1 & t2 & Hy & H & _).
    apply bind_Ok_inv in H as (ys & c2 & t3 & t4 & Hys & H & _).
    injection H as <- _ _. constructor; eauto.
Qed.

Section ResolvedPages.

Variable cfg : Config.
Variable web : Browser.

Lemma processImage_rewritten (pageUrl projectUrl fileReference : string)
    (c c' : Cache) (rw : Rewrite) (t : list Event) :
  processImage cfg web pageUrl projectUrl fileReference c = (Ok rw, c', t) ->
  rewritten cfg web pageUrl projectUrl fileReference rw.
Proof.
  unfold processImage, rewritten. intros H.
  apply bind_Ok_inv in H as (ref & c1 & t1 & t2 & Href & H & _).
  assert (Href' : getProcessedFileRef cfg web (Some fileReference) pageUrl
                    projectUrl = Ok ref)
    by (unfold lift in Href; congruence).
  clear Href. rename Href' into Href. rewrite Href.
  apply bind_Ok_inv in H as (mime & c2 & t3 & t4 & Hm & H & _).
  injection H as <- _ _. cbn. split; [reflexivity|].
  destruct (Js.startsWith fileReference "http") eqn:Hhttp.
  - apply bind_Ok_inv in Hm as (asset & c3 & t5 & t6 & Ha & Hm & _).
    assert (Ha' : getAsset cfg web (Some fileReference) pageUrl projectUrl
                  = Ok asset)
      by (unfold lift in Ha; congruence).
    clear Ha. rename Ha' into Ha.
    destruct asset as [asset|]; [|discriminate Hm].
    unfold getProcessedFileRef in Href. rewrite Ha in Href.
    cbn in Href. injection Href as <-.
    destruct (Asset.add asset) eqn:Hadd; cbn in Hm.
    + injection Hm as <- _ _. split; [now intros []|discriminate].
    + apply bind_Ok_inv in Hm as (asset' & c4 & t7 & t8 & Hf & Hm & _).
      injection Hm as <- _ _.
      pose proof (getAsset_returns cfg web _ _ _ _ Ha)
        as (Hr & _ & _ & Hj).
      injection Hr as Hr.
      destruct (Asset.jcrPath asset) as [p|] eqn:Hp.
      * exfalso. unfold getAsset in Ha.
        destruct fileReference as [|ch s]; [discriminate Hhttp|].
        destruct (new_URL web pageUrl) as [pu|]; [|discriminate Ha].
        cbn [obind] in Ha. rewrite Hhttp in Ha.
        destruct (new_URL web (String ch s)) as [u|]; [|discriminate Ha].
        cbn [obind] in Ha.
        destruct (String.eqb (origin u) (origin pu)).
        -- destruct (getJcrAssetPath cfg web u projectUrl);
             [|discriminate Ha].
           cbn in Ha. injection Ha as <-. discriminate Hadd.
        -- injection Ha as <-. discriminate Hp.
      * destruct Hj as [Hj _]. split.
        -- intros _. split; [exact Hhttp|]. now rewrite Hj, Hr.
        -- destruct (Js.truthy (Asset.mimeType asset')) eqn:Ht;
             [|discriminate]. intros E. rewrite E in Ht. discriminate Ht.
  - injection Hm as <- _ _. split; [now intros []|discriminate].
Qed.

(** X9. The rewritten markup of a page is the serialization of its markup
    after one update per element carrying [fileReference], in document
    order: the reference becomes what [getProcessedFileRef] returns for
    it; a mime type is attached only to absolute references that are
    left as they are, and never an empty one. *)
Theorem getProcessedJcr_rewrites (xml pageUrl projectUrl processed : string)
    (c c' : Cache) (t : list Event) :
  getProcessedJcr cfg web xml pageUrl projectUrl c = (Ok processed, c', t) ->
  exists rewrites,
    processed = serialize web xml rewrites
    /\ Forall2 (rewritten cfg web pageUrl projectUrl)
         (fileReferences web xml)
         rewrites.
Proof.
  unfold getProcessedJcr. intros H.
  apply bind_Ok_inv in H as (u & c1 & t1 & t2 & _ & H & _).
  apply bind_Ok_inv in H as (rewrites & c2 & t3 & t4 & Hr & H & _).
  apply bind_Ok_inv in H as (u' & c3 & t5 & t6 & _ & H & _).
  injection H as <- _ _. exists rewrites. split; [reflexivity|].
  refine (mapM_Forall2 _ _ _ _ _ _ _ _ Hr).
  intros x c0 y c0' t0. apply processImage_rewritten.
Qed.

Lemma resolvePage_resolves (projectUrl : string) (page : Page.t)
    (c c' : Cache) (resolved : JcrPage.t) (t : list Event) :
  resolvePage cfg web projectUrl page c = (Ok resolved, c', t) ->
  resolves cfg web projectUrl page resolved.
Proof.
  unfold resolvePage, resolves. intros H.
  apply bind_Ok_inv in H as (props & c1 & t1 & t2 & _ & H & _).
  apply bind_Ok_inv in H as (children & c2 & t3 & t4 & _ & H & _).
  apply bind_Ok_inv in H as (xml & c3 & t5 & t6 & _ & H & _).
  apply bind_Ok_inv in H as (p & c4 & t7 & t8 & Hp & H & _).
  apply bind_Ok_inv in H as (p' & c5 & t9 & t10 & Hp' & H & _).
  injection Hp as Hp _ _. injection Hp' as Hp' _ _.
  injection H as <- _ _. cbn. rewrite Hp in Hp'. injection Hp' as <-.
  repeat split. exact Hp.
Qed.

(** The resolved pages of a first call, page by page. *)
Lemma getJcrPages_Forall2 (pages : list Page.t) (projectUrl : string)
    (c c' : Cache) (resolved : list JcrPage.t) (t : list Event) :
  jcrPages c = PagesArray [] ->
  getJcrPages cfg web pages projectUrl c = (Ok resolved, c', t) ->
  Forall2 (resolves cfg web projectUrl) pages resolved.
Proof.
  intros Hc H.
  apply (getJcrPages_inv cfg web _ _ _ _ _ _ Hc) in H
    as (runs & rest & Hruns & _ & _ & _ & _ & Hok & _).
  apply (runs_results cfg web projectUrl _ c) with (2 := Hruns);
    [|exact (Hok resolved eq_refl)].
  intros page y c0 t0. apply resolvePage_resolves.
Qed.

Lemma resolvePage_rewrites (projectUrl : string) (page : Page.t)
    (c c' : Cache) (resolved : JcrPage.t) (t : list Event) :
  resolvePage cfg web projectUrl page c = (Ok resolved, c', t) ->
  rewritesPage cfg web projectUrl page resolved.
Proof.
  unfold resolvePage, rewritesPage. intros H.
  apply bind_Ok_inv in H as (props & c1 & t1 & t2 & Hprops & H & _).
  apply bind_Ok_inv in H as (children & c2 & t3 & t4 & Hkids & H & _).
  apply bind_Ok_inv in H as (xml & c3 & t5 & t6 & Hxml & H & _).
  apply bind_Ok_inv in H as (p & c4 & t7 & t8 & _ & H & _).
  apply bind_Ok_inv in H as (p' & c5 & t9 & t10 & _ & H & _).
  injection H as <- _ _. cbn.
  unfold getPageProperties, bind, emit, ret in Hprops. cbn in Hprops.
  unfold getPageContentChildren, bind, emit, ret in Hkids. cbn in Hkids.
  injection Hprops as <- _ _. injection Hkids as <- _ _.
  split; [|split; reflexivity].
  unfold getProcessedJcr in Hxml.
  apply bind_Ok_inv in Hxml as (u & c6 & t11 & t12 & _ & Hxml & _).
  apply bind_Ok_inv in Hxml as (rewrites & c7 & t13 & t14 & Hr & Hxml & _).
  apply bind_Ok_inv in Hxml as (u' & c8 & t15 & t16 & _ & Hxml & _).
  injection Hxml as <- _ _. exists rewrites. split; [reflexivity|].
  refine (mapM_Forall2 _ _ _ _ _ _ _ _ Hr).
  intros x c0 y c0' t0. apply processImage_rewritten.
Qed.

(** The resolved pages of a first call hold the rewritten markup of
    their pages. *)
Lemma getJcrPages_rewrites (pages : list Page.t) (projectUrl : string)
    (c c' : Cache) (resolved : list JcrPage.t) (t : list Event) :
  jcrPages c = PagesArray [] ->
  getJcrPages cfg web pages projectUrl c = (Ok resolved, c', t) ->
  Forall2 (rewritesPage cfg web projectUrl) pages resolved.
Proof.
  intros Hc H.
  apply (getJcrPages_inv cfg web _ _ _ _ _ _ Hc) in H
    as (runs & rest & Hruns & _ & _ & _ & _ & Hok & _).
  apply (runs_results cfg web projectUrl _ c) with (2 := Hruns);
    [|exact (Hok resolved eq_refl)].
  intros page y c0 t0. apply resolvePage_rewrites.
Qed.

(** X10. On the empty cache [getJcrPages] resolves the pages it is given, one
    resolved page per page and in the same order; each holds the path,
    markup and URL of its page, the canonical path of the page, and a
    descriptor path built from that canonical path. *)
Theorem getJcrPages_resolves (pages : list Page.t) (projectUrl : string)
    (c c' : Cache) (resolved : list JcrPage.t) (t : list Event) :
  jcrPages c = PagesArray [] ->
  getJcrPages cfg web pages projectUrl c = (Ok resolved, c', t) ->
  Forall2 (resolves cfg web projectUrl) pages resolved.
Proof. apply getJcrPages_Forall2. Qed.

(** X11. [getJcrPages] is memoized: after any call, every later call returns
    the same outcome, whatever pages and project it is asked for, without
    a call on the platform and without touching the cache. A failure is
    kept like a result. *)
Theorem getJcrPages_memoized (pages pages' : list Page.t)
    (projectUrl projectUrl' : string) (c c' : Cache)
    (r : outcome (list JcrPage.t)) (t : list Event) :
  getJcrPages cfg web pages projectUrl c = (r, c', t) ->
  getJcrPages cfg web pages' projectUrl' c' = (r, c', []).
Proof.
  unfold getJcrPages, bind, getCache, set_jcrPages, lift, ret.
  destruct (jcrPages c) as [[|x l]|r0] eqn:Hc; cbn.
  - destruct (promiseAll (resumes web)
                (map (resolvePage cfg web projectUrl) pages) c)
      as [[r1 c1] t1] eqn:Hp.
    apply promiseAll_inv in Hp as (runs & rest & settled & _ & -> & _).
    cbn. destruct settled as [rs|e]; intros [= <- <- _]; reflexivity.
  - rewrite Hc. cbn. intros [= <- <- _]. rewrite Hc. cbn.
    now rewrite Hc.
  - rewrite Hc. cbn. intros [= <- <- _]. rewrite Hc. cbn.
    now rewrite Hc.
Qed.

End ResolvedPages.

Lemma getProcessedJcr_rewrites_witness :
  exists rewrites,
    "<external/>[https://cdn.example.com/logo.png|image/png][https://cdn.example.com/logo.png|image/png]"
    = serialize Demo.web "<external/>" rewrites
    /\ Forall2 (rewritten shipped Demo.web (Demo.host ++ "/a/d")
                  Demo.projectUrl)
         (fileReferences Demo.web "<external/>") rewrites.
Proof.
  apply (getProcessedJcr_rewrites shipped Demo.web "<external/>"
           (Demo.host ++ "/a/d") Demo.projectUrl _ Demo.empty Demo.empty
           [DomParse "<external/>";
            Fetch "https://cdn.example.com/logo.png";
            Fetch "https://cdn.example.com/logo.png";
            XmlSerialize "<external/>"]).
  vm_compute. reflexivity.
Defined.

Lemma getJcrPages_resolves_witness :
  Forall2 (resolves shipped Demo.web Demo.projectUrl)
    [Demo.plainPage; Demo.galleryPage] Demo.siblings.
Proof.
  apply (getJcrPages_resolves shipped Demo.web
           [Demo.plainPage; Demo.galleryPage] Demo.projectUrl Demo.empty
           (snd (fst (getJcrPages shipped Demo.web
                        [Demo.plainPage; Demo.galleryPage] Demo.projectUrl
                        Demo.empty)))
           Demo.siblings
           (snd (getJcrPages shipped Demo.web
                   [Demo.plainPage; Demo.galleryPage] Demo.projectUrl
                   Demo.empty))).
  - reflexivity.
  - vm_compute. reflexivity.
Defined.

Lemma getJcrPages_memoized_witness :
  getJcrPages shipped Demo.web [Demo.heroPage] "https://github.com/org/other"
    (snd (fst (getJcrPages shipped Demo.web
                 [Demo.plainPage; Demo.galleryPage] Demo.projectUrl
                 Demo.empty)))
  = (Ok Demo.siblings,
     snd (fst (getJcrPages shipped Demo.web
                 [Demo.plainPage; Demo.galleryPage] Demo.projectUrl
                 Demo.empty)),
     []).
Proof.
  apply (getJcrPages_memoized shipped Demo.web
           [Demo.plainPage; Demo.galleryPage] [Demo.heroPage]
           Demo.projectUrl "https://github.com/org/other" Demo.empty
           _ _ (snd (getJcrPages shipped Demo.web
                       [Demo.plainPage; Demo.galleryPage] Demo.projectUrl
                       Demo.empty))).
  vm_compute. reflexivity.
Defined.

(** ** The asset collection *)

Section AssetCollection.

Variable cfg : Config.
Variable web : Browser.

Lemma collectAsset_run (pageUrl projectUrl fileReference : string)
    (c c' : Cache) (t : list Event) :
  collectAsset cfg web pageUrl projectUrl fileReference c = (Ok tt, c', t) ->
  exists found,
    getAsset cfg web (Some fileReference) pageUrl projectUrl = Ok found
    /\ (jcrAssets c' = jcrAssets c
        \/ exists asset, found = Some asset /\ Asset.add asset = true
                         /\ jcrAssets c' = (jcrAssets c ++ [asset])%list)
    /\ (forall asset, found = Some asset -> Asset.add asset = true ->
                      In (Asset.jcrPath asset)
                        (map Asset.jcrPath (jcrAssets c'))).
Proof.
  unfold collectAsset, bind, lift, getCache, set_jcrAssets, ret.
  destruct (getAsset cfg web (Some fileReference) pageUrl projectUrl)
    as [found|e]; [|discriminate].
  intros H. exists found. split; [reflexivity|].
  destruct found as [asset|]; cbn in H.
  - destruct (Asset.add asset) eqn:Hadd; cbn in H.
    + destruct (existsb _ (jcrAssets c)) eqn:Hfind; cbn in H;
        injection H as <- _; cbn.
      * split; [now left|]. intros a [= <-] _.
        apply existsb_exists in Hfind as (x & Hx & E).
        apply option_string_eqb_eq in E. rewrite <- E.
        now apply in_map.
      * split; [right; eauto|]. intros a [= <-] _.
        rewrite map_app, in_app_iff. right. now left.
    + injection H as <- _. split; [now left|].
      intros a [= <-] Ha. congruence.
  - injection H as <- _. split; [now left|]. discriminate.
Qed.

Lemma collectAssets_run (pageUrl projectUrl : string)
    (fileReferences : list string) :
  forall c c' t,
    forEachM (collectAsset cfg web pageUrl projectUrl) fileReferences c
    = (Ok tt, c', t) ->
    exists added,
      jcrAssets c' = (jcrAssets c ++ added)%list
      /\ Forall (fun asset =>
                   Asset.add asset = true
                   /\ exists fileReference,
                        In fileReference fileReferences
                        /\ getAsset cfg web (Some fileReference) pageUrl
                             projectUrl = Ok (Some asset)) added
      /\ (forall fileReference asset,
             In fileReference fileReferences ->
             getAsset cfg web (Some fileReference) pageUrl projectUrl
             = Ok (Some asset) ->
             Asset.add asset = true ->
             In (Asset.jcrPath asset) (map Asset.jcrPath (jcrAssets c'))).
Proof.
  induction fileReferences as [|ref refs IH]; intros c c' t H;
    cbn [forEachM] in H.
  - injection H as <- _. exists [].
    split; [now rewrite app_nil_r|]. split; [constructor|]. intros ? ? [].
  - apply bind_Ok_inv in H as ([] & c1 & t1 & t2 & H1 & H & _).
    apply collectAsset_run in H1 as (found & Hfound & Hgrow & Hin).
    apply IH in H as (added & Hc' & Hadded & Hall).
    assert (Hmono : forall x, In x (map Asset.jcrPath (jcrAssets c1)) ->
                              In x (map Asset.jcrPath (jcrAssets c'))).
    { intros x Hx. rewrite Hc', map_app, in_app_iff. now left. }
    assert (Hcomplete :
              forall r a, In r (ref :: refs) ->
                          getAsset cfg web (Some r) pageUrl projectUrl
                          = Ok (Some a) ->
                          Asset.add a = true ->
                          In (Asset.jcrPath a)
                            (map Asset.jcrPath (jcrAssets c'))).
    { intros r a [<-|Hr] Hg Ha; [|now apply (Hall r a)].
      apply Hmono. apply Hin; [congruence | assumption]. }
    assert (Hlater :
              Forall (fun asset =>
                        Asset.add asset = true
                        /\ exists fileReference,
                             In fileReference (ref :: refs)
                             /\ getAsset cfg web (Some fileReference)
                                  pageUrl projectUrl = Ok (Some asset))
                added).
    { eapply Forall_impl; [|exact Hadded].
      intros a (Ha & r & Hr & Hg). split; [assumption|].
      exists r. split; [now right | assumption]. }
    destruct Hgrow as [Hsame|(asset & -> & Hadd & Hpush)].
    + exists added. split; [now rewrite Hc', Hsame|]. now split.
    + exists (asset :: added).
      split; [now rewrite Hc', Hpush, <- app_assoc|].
      split; [|assumption]. constructor; [|assumption].
      split; [assumption|]. exists ref. split; [now left | assumption].
Qed.

Lemma collectPages_run (projectUrl : string) (resolved : list JcrPage.t) :
  forall c c' t,
    forEachM
      (fun page =>
         bind (emit (DomParse (JcrPage.sourceXml page)))
           (fun _ =>
              forEachM (collectAsset cfg web (JcrPage.url page) projectUrl)
                (fileReferences web (JcrPage.sourceXml page))))
      resolved c = (Ok tt, c', t) ->
    exists added,
      jcrAssets c' = (jcrAssets c ++ added)%list
      /\ Forall (collectable cfg web projectUrl resolved) added
      /\ (forall page fileReference asset,
             In page resolved ->
             In fileReference (fileReferences web (JcrPage.sourceXml page)) ->
             getAsset cfg web (Some fileReference) (JcrPage.url page)
               projectUrl = Ok (Some asset) ->
             Asset.add asset = true ->
             In (Asset.jcrPath asset) (map Asset.jcrPath (jcrAssets c'))).
Proof.
  induction resolved as [|page resolved IH]; intros c c' t H;
    cbn [forEachM] in H.
  - injection H as <- _. exists [].
    split; [now rewrite app_nil_r|]. split; [constructor|].
    intros ? ? ? [].
  - apply bind_Ok_inv in H as ([] & c1 & t1 & t2 & H1 & H & _).
    apply bind_Ok_inv in H1 as ([] & c0 & t3 & t4 & He & H1 & _).
    injection He as <- _.
    apply collectAssets_run in H1 as (added1 & Hc1 & Hadded1 & Hall1).
    apply IH in H as (added & Hc' & Hadded & Hall).
    exists (added1 ++ added)%list.
    split; [now rewrite Hc', Hc1, <- app_assoc|]. split.
    + apply Forall_app. split.
      * eapply Forall_impl; [|exact Hadded1].
        intros a (Ha & r & Hr & Hg). split; [assumption|].
        exists page, r. repeat split; [now left | assumption | assumption].
      * eapply Forall_impl; [|exact Hadded].
        intros a (Ha & p & r & Hp & Hr & Hg). split; [assumption|].
        exists p, r. repeat split; [now right | assumption | assumption].
    + intros p r a [<-|Hp] Hr Hg Ha.
      * rewrite Hc', map_app, in_app_iff. left. now apply (Hall1 r a).
      * now apply (Hall p r a).
Qed.

(** X12. The asset collection computed for resolved pages holds only assets
    that the classifier returned, marked [add], for a reference of one of
    these pages, and it holds the path of every such asset. *)
Theorem getJcrAssets_collects (pages : list Page.t) (projectUrl : string)
    (c c' : Cache) (resolved : list JcrPage.t) (assets : list Asset.t)
    (t : list Event) :
  jcrPages c = PagesArray resolved -> resolved <> [] ->
  jcrAssets c = [] ->
  getJcrAssets cfg web pages projectUrl c = (Ok assets, c', t) ->
  Forall (collectable cfg web projectUrl resolved) assets
  /\ (forall asset, collectable cfg web projectUrl resolved asset ->
                    In (Asset.jcrPath asset) (map Asset.jcrPath assets)).
Proof.
  intros Hc Hne Hempty H. unfold getJcrAssets in H.
  apply bind_Ok_inv in H as (c0 & c1 & t1 & t2 & Hg & H & _).
  injection Hg as <- <- _. rewrite Hempty in H. cbn [length Nat.eqb] in H.
  apply bind_Ok_inv in H as ([] & c2 & t3 & t4 & Hif & H & _).
  unfold bind, getCache, ret in H. injection H as <- _ _.
  apply bind_Ok_inv in Hif as (rs & c3 & t5 & t6 & Hp & Hif & _).
  rewrite (getJcrPages_hit cfg web pages projectUrl c resolved Hc Hne) in Hp.
  injection Hp as <- <- _.
  apply bind_Ok_inv in Hif as ([] & c4 & t7 & t8 & Hs & Hif & _).
  injection Hs as <- _.
  apply collectPages_run in Hif as (added & Hc2 & Hadded & Hall).
  cbn [jcrAssets] in Hc2. rewrite Hempty in Hc2. cbn in Hc2.
  rewrite Hc2 in *. split; [assumption|].
  intros asset (Hadd & page & ref & Hpage & Href & Hg).
  now apply (Hall page ref asset).
Qed.

End AssetCollection.

Lemma getJcrAssets_collects_witness :
  map Asset.jcrPath Demo.siblingAssets
  = [Some "/content/dam/repo/media/a_width100.png";
     Some "/content/dam/repo/a/b.jpg"]
  /\ Forall (collectable shipped Demo.web Demo.projectUrl Demo.siblings)
       Demo.siblingAssets.
Proof.
  split; [vm_compute; reflexivity|].
  refine (proj1 (getJcrAssets_collects shipped Demo.web
                   [Demo.plainPage; Demo.galleryPage] Demo.projectUrl
                   (mkCache (PagesArray Demo.siblings) [])
                   (mkCache (PagesArray Demo.siblings) Demo.siblingAssets)
                   Demo.siblings Demo.siblingAssets
                   [DomParse "<plain/>"; DomParse "<gallery/>"]
                   eq_refl _ eq_refl _)).
  - vm_compute. discriminate.
  - vm_compute. reflexivity.
Defined.

(** ** Invariants of the cached assets *)

Lemma keepsAll_same (Q : Asset.t -> Prop) (t : list Event) (c : Cache) :
  keepsAll Q c t c.
Proof. now intros H. Qed.

Lemma keepsAll_trans (Q : Asset.t -> Prop) (a : Cache) (t1 : list Event)
    (b : Cache) (t2 : list Event) (c : Cache) :
  keepsAll Q a t1 b -> keepsAll Q b t2 c -> keepsAll Q a (t1 ++ t2)%list c.
Proof. unfold keepsAll. auto. Qed.

Lemma sameAssets_keepsAll {A : Type} (Q : Asset.t -> Prop) (m : M A) :
  related sameAssets m -> related (keepsAll Q) m.
Proof.
  intros Hm c r c' t H Hq. unfold sameAssets in Hm.
  now rewrite (Hm _ _ _ _ H).
Qed.

Lemma stateless_keepsAll {A : Type} (Q : Asset.t -> Prop) (m : M A) :
  stateless m -> related (keepsAll Q) m.
Proof. apply stateless_related. exact (keepsAll_same Q). Qed.

Section AssetInvariant.

Variable cfg : Config.
Variable web : Browser.

(** A property of every asset that the classifier marks [add], kept by
    the fetch. *)
Variable Q : Asset.t -> Prop.

Hypothesis Q_classified :
  forall fileReference pageUrl projectUrl asset,
    getAsset cfg web (Some fileReference) pageUrl projectUrl
    = Ok (Some asset) ->
    Asset.add asset = true -> Q asset.

Hypothesis Q_fetched :
  forall asset asset' c c' t,
    fetchAssetData web asset c = (Ok asset', c', t) -> Q asset -> Q asset'.

Ltac all_side :=
  first [ exact (keepsAll_same Q _) | exact (keepsAll_trans Q) ].

Lemma collectAsset_keepsAll (pageUrl projectUrl fileReference : string) :
  related (keepsAll Q)
    (collectAsset cfg web pageUrl projectUrl fileReference).
Proof.
  intros c r c' t H Hq.
  unfold collectAsset, bind, lift, getCache, set_jcrAssets, ret in H.
  destruct (getAsset cfg web (Some fileReference) pageUrl projectUrl)
    as [[asset|]|e] eqn:Hg; cbn in H.
  - destruct (Asset.add asset) eqn:Hadd; cbn in H.
    + destruct (existsb _ (jcrAssets c)); cbn in H;
        injection H as _ <- _; cbn; [assumption|].
      apply Forall_app. split; [assumption|]. repeat constructor.
      exact (Q_classified _ _ _ _ Hg Hadd).
    + now injection H as _ <- _.
  - now injection H as _ <- _.
  - now injection H as _ <- _.
Qed.

Lemma getJcrAssets_keepsAll (pages : list Page.t) (projectUrl : string) :
  related (keepsAll Q) (getJcrAssets cfg web pages projectUrl).
Proof.
  unfold getJcrAssets.
  apply related_bind; [all_side | apply related_getCache; all_side|].
  intros c0.
  apply related_bind; [all_side | | intros _].
  - destruct (Nat.eqb (length (jcrAssets c0)) 0).
    + apply related_bind; [all_side | | intros resolved].
      * apply sameAssets_keepsAll, getJcrPages_sameAssets.
      * apply related_bind; [all_side | | intros _].
        -- apply sameAssets_keepsAll, related_set_jcrPages.
        -- apply related_forEachM; [all_side | all_side |].
           intros page.
           apply related_bind;
             [all_side | apply related_emit; all_side | intros _].
           apply related_forEachM; [all_side | all_side |].
           intros fileReference. apply collectAsset_keepsAll.
    + apply related_ret; all_side.
  - apply related_bind;
      [all_side | apply related_getCache; all_side | intros c1].
    apply related_ret; all_side.
Qed.

Lemma keepsAll_after_getJcrAssets {B : Type} (pages : list Page.t)
    (projectUrl : string) (k : list Asset.t -> M B) :
  (forall c r c' t, k (jcrAssets c) c = (r, c', t) -> keepsAll Q c t c') ->
  related (keepsAll Q) (bind (getJcrAssets cfg web pages projectUrl) k).
Proof.
  intros Hk.
  apply related_bind_post with (Q := fun a c => a = jcrAssets c).
  - exact (keepsAll_trans Q).
  - apply getJcrAssets_keepsAll.
  - intros c a c' t H. exact (getJcrAssets_result cfg web _ _ _ _ _ _ H).
  - intros a c r c' t -> H. exact (Hk _ _ _ _ H).
Qed.

Lemma addAsset_keepsQ (asset asset' : Asset.t) (dirHandle : DirHandle)
    (prefix : string) (c c' : Cache) (t : list Event) :
  addAsset web asset dirHandle prefix c = (Ok asset', c', t) ->
  Q asset -> Q asset'.
Proof.
  unfold addAsset. intros H Hq.
  apply bind_Ok_inv in H as (a & c1 & t1 & t2 & Hf & H & _).
  unfold bind, emit, ret in H. cbn in H. injection H as <- _ _.
  exact (Q_fetched _ _ _ _ _ Hf Hq).
Qed.

Lemma addAssets_keepsAll (dirHandle : DirHandle) (prefix : string)
    (todo : list Asset.t) :
  forall (done : list Asset.t) (c c' : Cache) (r : outcome unit)
         (t : list Event),
    addAssets web dirHandle prefix done todo c = (r, c', t) ->
    Forall Q (jcrAssets c) ->
    Forall Q (done ++ todo) ->
    Forall Q (jcrAssets c').
Proof.
  induction todo as [|asset rest IH]; intros done c c' r t H Hc Hq.
  - cbn in H. now injection H as _ <- _.
  - cbn [addAssets] in H.
    apply bind_inv in H as [(e & H & _)|(asset' & c1 & t1 & t2 & Ha & H & _)].
    + now rewrite (addAsset_stateless web asset dirHandle prefix c _ _ _ H).
    + pose proof (addAsset_stateless web asset dirHandle prefix c _ _ _ Ha)
        as ->.
      apply bind_inv in H as [(e & H & _)|(u & c2 & t3 & t4 & Hs & H & _)];
        [discriminate H|].
      unfold set_jcrAssets in Hs. injection Hs as _ <- _.
      assert (Hq' : Forall Q (done ++ asset' :: rest)).
      { apply Forall_app in Hq as [Hd Hr].
        apply Forall_cons_iff in Hr as [Ha' Hr].
        apply Forall_app. split; [assumption|].
        constructor; [|assumption].
        exact (addAsset_keepsQ _ _ _ _ _ _ _ Ha Ha'). }
      apply (IH _ _ _ _ _ H); cbn; [assumption|].
      now rewrite <- app_assoc.
Qed.

Lemma addFilterXml_keepsAll (pages : list Page.t) (projectUrl : string)
    (dirHandle : DirHandle) (prefix : string) :
  related (keepsAll Q)
    (addFilterXml cfg web pages projectUrl dirHandle prefix).
Proof.
  unfold addFilterXml, getFilterXml, getJcrAssetPaths.
  apply related_bind; [all_side | | intros [path xml]].
  - apply related_bind;
      [all_side | apply sameAssets_keepsAll, getJcrPages_sameAssets|].
    intros resolved.
    apply related_bind;
      [all_side | apply sameAssets_keepsAll, related_set_jcrPages|].
    intros _.
    apply related_bind;
      [all_side | | intros paths; apply related_ret; all_side].
    apply keepsAll_after_getJcrAssets.
    intros c r c' t H Hq. unfold bind, set_jcrAssets, ret in H.
    now injection H as _ <- _.
  - apply related_bind; [all_side | apply related_emit; all_side|].
    intros _. apply related_emit; all_side.
Qed.

(** At the end of a build of at least one page, completed or aborted,
    the property holds of every cached asset. *)
Lemma build_keepsAll (dirHandle : DirHandle) (pages : list Page.t)
    (projectUrl : string) (c c' : Cache) (r : outcome unit)
    (t : list Event) :
  pages <> [] ->
  createJcrPackage cfg web dirHandle pages projectUrl c = (r, c', t) ->
  Forall Q (jcrAssets c').
Proof.
  intros Hne H. unfold createJcrPackage in H.
  destruct (Nat.eqb (length pages) 0) eqn:Hlen.
  { destruct pages; [contradiction | discriminate Hlen]. }
  apply bind_inv in H as [(e & H & _)|(u & c0 & t1 & t2 & Hi & H & _)];
    [discriminate H|].
  unfold init in Hi. injection Hi as _ <- _.
  enough (Hrel : keepsAll Q (mkCache (PagesArray []) []) t2 c')
    by (apply Hrel; constructor).
  revert H. generalize (mkCache (PagesArray []) []), r, c', t2.
  match goal with
  | |- forall c0 r c' t2, ?m c0 = (r, c', t2) -> keepsAll Q c0 t2 c' =>
      change (related (keepsAll Q) m)
  end.
  apply related_bind; [all_side | apply related_lift; all_side|].
  intros packageName.
  apply related_bind;
    [all_side | apply sameAssets_keepsAll, getJcrPages_sameAssets|].
  intros resolved.
  apply related_bind;
    [all_side | apply sameAssets_keepsAll, related_set_jcrPages|].
  intros _.
  apply related_bind; [all_side | | intros _].
  { apply related_forEachM; [all_side | all_side | intros p].
    apply stateless_keepsAll, addPage_stateless. }
  apply related_bind; [all_side | | intros _].
  { apply related_forEachM; [all_side | all_side | intros p].
    apply stateless_keepsAll, addPage_stateless. }
  apply keepsAll_after_getJcrAssets. intros c1 r1 c2 t3 H Hq.
  apply bind_inv in H as [(e & H & _)|(u1 & c3 & t4 & t5 & Hs & H & _)];
    [discriminate H|].
  unfold set_jcrAssets in Hs. injection Hs as _ <- _.
  apply bind_inv in H as [(e & H & _)|(u2 & c4 & t6 & t7 & Ha & H & _)].
  { now apply (addAssets_keepsAll _ _ _ _ _ _ _ _ H). }
  apply (addAssets_keepsAll _ _ _ _ _ _ _ _ Ha) in Hq; [|exact Hq].
  revert Hq. change (keepsAll Q c4 t7 c2). revert H.
  generalize c4, r1, c2, t7.
  match goal with
  | |- forall c0 r c' t2, ?m c0 = (r, c', t2) -> keepsAll Q c0 t2 c' =>
      change (related (keepsAll Q) m)
  end.
  apply related_bind; [all_side | apply addFilterXml_keepsAll|].
  intros _.
  apply related_bind; [all_side | | intros _].
  { apply stateless_keepsAll, addPropertiesXml_stateless. }
  apply related_bind; [all_side | apply related_emit; all_side|].
  intros _. apply related_emit; all_side.
Qed.

End AssetInvariant.

(** What the fetch leaves of an asset as it was. *)
Lemma fetchAssetData_keeps (web : Browser) (asset asset' : Asset.t)
    (c c' : Cache) (t : list Event) :
  fetchAssetData web asset c = (Ok asset', c', t) ->
  Asset.fileReference asset' = Asset.fileReference asset
  /\ Asset.processedFileRef asset' = Asset.processedFileRef asset
  /\ Asset.jcrPath asset' = Asset.jcrPath asset
  /\ Asset.url asset' = Asset.url asset
  /\ Asset.add asset' = Asset.add asset.
Proof.
  unfold fetchAssetData. destruct (Asset.url asset) as [u|] eqn:Hu.
  - unfold bind, emit, ret, throw.
    destruct (fetch web (href u)) as [[|] status body contentType|error];
      cbn; intros H; try discriminate H; injection H as <- _ _; cbn;
      repeat split.
  - unfold ret. intros [= <- _ _]. repeat split. exact Hu.
Qed.

Lemma getAsset_included (cfg : Config) (web : Browser)
    (fileReference pageUrl projectUrl : string) (asset : Asset.t) :
  getAsset cfg web (Some fileReference) pageUrl projectUrl
  = Ok (Some asset) ->
  Asset.add asset = true -> included asset.
Proof.
  unfold getAsset.
  destruct fileReference as [|ch ref]; try discriminate.
  set (r := String ch ref).
  destruct (new_URL web pageUrl) as [pu|e]; cbn [obind]; [|discriminate].
  assert (Hres : forall url add,
             (let? jcrPath := getJcrAssetPath cfg web url projectUrl in
              Ok (Some (Asset.mk r jcrPath (Some jcrPath) (Some url) add
                          None None)))%outcome = Ok (Some asset) ->
             Asset.add asset = true -> included asset).
  { intros url add.
    destruct (getJcrAssetPath cfg web url projectUrl) as [p|e] eqn:Hp;
      cbn [obind]; [|discriminate].
    intros [= <-] Hadd. cbn in Hadd. subst add.
    split; [reflexivity|]. split; [discriminate|].
    exists p. split; [reflexivity|].
    exact (getJcrAssetPath_dam cfg web url projectUrl p Hp). }
  repeat match goal with
         | |- (if ?b then _ else _) = _ -> _ => destruct b
         | |- obind (new_URL web ?s) _ = _ -> _ =>
             destruct (new_URL web s); cbn [obind]; [|discriminate]
         end;
    try apply Hres; intros [= <-]; cbn; discriminate.
Qed.

Lemma getResourcePaths_included (assets : list Asset.t) :
  Forall included assets ->
  map Some (getResourcePaths assets true) = map Asset.jcrPath assets.
Proof.
  induction 1 as [|asset assets (Hadd & _ & p & Hp & Hdam) _ IH];
    [reflexivity|].
  unfold getResourcePaths in *. cbn [map flat_map].
  cbn [resource_add resource_jcrPath Resource_Asset].
  rewrite Hadd, Hp.
  assert (Ht : Js.truthy (Some p) = true).
  { apply startsWith_inv in Hdam as [rest ->]. reflexivity. }
  rewrite Ht. cbn [andb orb app map]. f_equal. exact IH.
Qed.

Lemma build_included (cfg : Config) (web : Browser)
    (dirHandle : DirHandle) (pages : list Page.t) (projectUrl : string)
    (c c' : Cache) (r : outcome unit) (t : list Event) :
  pages <> [] ->
  createJcrPackage cfg web dirHandle pages projectUrl c = (r, c', t) ->
  Forall included (jcrAssets c').
Proof.
  intros Hne H.
  apply (build_keepsAll cfg web included) with (3 := Hne) (4 := H).
  - apply getAsset_included.
  - intros asset asset' c0 c1 t0 Hf (Hadd & Hurl & p & Hp & Hdam).
    apply fetchAssetData_keeps in Hf as (_ & _ & Hp' & Hu' & Ha').
    unfold included. rewrite Hp', Hu', Ha'. eauto.
Qed.

(** X13. At the end of a build of at least one page, completed or aborted,
    every cached asset is marked [add], has a URL and a canonical path
    under [/content/dam/]; so every cached asset is listed by
    [getResourcePaths], in cache order. *)
Theorem build_assets_included (cfg : Config) (web : Browser)
    (dirHandle : DirHandle) (pages : list Page.t) (projectUrl : string)
    (c c' : Cache) (r : outcome unit) (t : list Event) :
  pages <> [] ->
  createJcrPackage cfg web dirHandle pages projectUrl c = (r, c', t) ->
  Forall included (jcrAssets c')
  /\ map Some (getResourcePaths (jcrAssets c') true)
     = map Asset.jcrPath (jcrAssets c').
Proof.
  intros Hne H.
  pose proof (build_included cfg web dirHandle pages projectUrl c c' r t
                Hne H) as Hall.
  split; [exact Hall | exact (getResourcePaths_included _ Hall)].
Qed.

Lemma build_assets_included_witness :
  let run := createJcrPackage shipped Demo.web Demo.dir [Demo.galleryPage]
               Demo.projectUrl Demo.empty in
  length (jcrAssets (snd (fst run))) = 2
  /\ Forall included (jcrAssets (snd (fst run))).
Proof.
  intros run. split; [vm_compute; reflexivity|].
  refine (proj1 (build_assets_included shipped Demo.web Demo.dir
                   [Demo.galleryPage] Demo.projectUrl Demo.empty
                   (snd (fst run)) (fst (fst run)) (snd run) _ _)).
  - discriminate.
  - vm_compute. reflexivity.
Defined.

(** ** What a build writes *)

Lemma writes_app (t1 t2 : list Event) :
  writes (t1 ++ t2) = (writes t1 ++ writes t2)%list.
Proof. apply filter_app. Qed.

Lemma zipped_app (t1 t2 : list Event) :
  zipped (t1 ++ t2) = (zipped t1 ++ zipped t2)%list.
Proof. apply flat_map_app. Qed.

Lemma tandem_app (f1 f2 : list (string * Content)) :
  tandem (f1 ++ f2) = (tandem f1 ++ tandem f2)%list.
Proof. apply flat_map_app. Qed.

Lemma zipped_writes (t : list Event) : zipped (writes t) = zipped t.
Proof.
  induction t as [|e t IH]; [reflexivity|].
  destruct e; cbn [writes filter isWrite]; try exact IH;
    fold (writes t);
    change (zipped (?x :: ?l)) with (zipped [x] ++ zipped l)%list;
    now rewrite IH.
Qed.

Lemma zipped_tandem (files : list (string * Content)) :
  zipped (tandem files) = files.
Proof.
  induction files as [|f files IH]; [reflexivity|].
  change (tandem (f :: files)) with (tandem [f] ++ tandem files)%list.
  rewrite zipped_app, IH. now destruct f.
Qed.

Lemma writes_tandem (files : list (string * Content)) :
  writes (tandem files) = tandem files.
Proof.
  induction files as [|f files IH]; [reflexivity|].
  change (tandem (f :: files)) with (tandem [f] ++ tandem files)%list.
  now rewrite writes_app, IH.
Qed.

Lemma writeless_nil (c : Cache) : writeless c [] c.
Proof. reflexivity. Qed.

Lemma writeless_trans (a : Cache) (t1 : list Event) (b : Cache)
    (t2 : list Event) (c : Cache) :
  writeless a t1 b -> writeless b t2 c -> writeless a (t1 ++ t2)%list c.
Proof. unfold writeless. intros H1 H2. now rewrite writes_app, H1, H2. Qed.

Lemma inTandem_nil (c : Cache) : inTandem c [] c.
Proof. reflexivity. Qed.

Lemma inTandem_trans (a : Cache) (t1 : list Event) (b : Cache)
    (t2 : list Event) (c : Cache) :
  inTandem a t1 b -> inTandem b t2 c -> inTandem a (t1 ++ t2)%list c.
Proof.
  unfold inTandem. intros H1 H2.
  now rewrite writes_app, zipped_app, tandem_app, H1, H2.
Qed.

Lemma writeless_zipped (t : list Event) : writes t = [] -> zipped t = [].
Proof. intros H. now rewrite <- zipped_writes, H. Qed.

Lemma writeless_inTandem {A : Type} (m : M A) :
  related writeless m -> related inTandem m.
Proof.
  intros Hm c r c' t H. specialize (Hm _ _ _ _ H).
  unfold writeless in Hm. unfold inTandem.
  now rewrite (writeless_zipped _ Hm), Hm.
Qed.

Ltac quiet_side :=
  first [ exact writeless_nil | exact writeless_trans
        | solve [intros; reflexivity] ].

Ltac tandem_side :=
  first [ exact inTandem_nil | exact inTandem_trans
        | solve [intros; reflexivity] ].

(** The composition rules of [related], with the side conditions left to
    [side]. *)
Ltac rel_by side :=
  repeat first
    [ solve [auto 1 with prog nocore]
    | apply related_ret; side
    | apply related_throw; side
    | apply related_lift; side
    | apply related_emit; side
    | apply related_getCache; side
    | apply related_bind; [side | | intros ?]
    | apply related_forEachM; [side | side | intros ?]
    | apply related_mapM; [side | side | intros ?]
    | match goal with
      | |- related _ (if ?b then _ else _) => destruct b
      | |- related _ (match ?x with _ => _ end) => destruct x
      | |- related _ (let (_, _) := ?x in _) => destruct x
      end
    | assumption ].

Lemma related_set (R : Effect) :
  (forall c c', R c [] c') ->
  (forall v, related R (set_jcrPages v))
  /\ (forall a, related R (set_jcrAssets a)).
Proof. split; intros x c r c' t [= _ _ <-]; apply H. Qed.

Section Writers.

Variable cfg : Config.
Variable web : Browser.

Lemma set_jcrPages_writeless (v : PagesVar) :
  related writeless (set_jcrPages v).
Proof. now apply related_set. Qed.

Lemma set_jcrAssets_writeless (a : list Asset.t) :
  related writeless (set_jcrAssets a).
Proof. now apply related_set. Qed.

Lemma fetchAssetData_writeless (asset : Asset.t) :
  related writeless (fetchAssetData web asset).
Proof. unfold fetchAssetData. rel_by quiet_side. Qed.

#[local] Hint Extern 1 (related writeless (fetchAssetData _ _)) =>
  apply fetchAssetData_writeless : prog.
#[local] Hint Extern 1 (related writeless (set_jcrPages _)) =>
  apply set_jcrPages_writeless : prog.
#[local] Hint Extern 1 (related writeless (set_jcrAssets _)) =>
  apply set_jcrAssets_writeless : prog.

Lemma processImage_writeless (pageUrl projectUrl fileReference : string) :
  related writeless (processImage cfg web pageUrl projectUrl fileReference).
Proof. unfold processImage. rel_by quiet_side. Qed.

#[local] Hint Extern 1 (related writeless (processImage _ _ _ _ _)) =>
  apply processImage_writeless : prog.

Lemma resolvePage_writeless (projectUrl : string) (page : Page.t) :
  related writeless (resolvePage cfg web projectUrl page).
Proof.
  unfold resolvePage, getPageProperties, getPageContentChildren,
    getProcessedJcr.
  rel_by quiet_side.
Qed.

#[local] Hint Extern 1 (related writeless (resolvePage _ _ _ _)) =>
  apply resolvePage_writeless : prog.

Lemma getJcrPages_writeless (pages : list Page.t) (projectUrl : string) :
  related writeless (getJcrPages cfg web pages projectUrl).
Proof.
  apply getJcrPages_related.
  - exact writeless_nil.
  - exact writeless_trans.
  - intros c t t' c' Hperm. exact (Permutation_filter_nil _ _ _ Hperm).
  - exact set_jcrPages_writeless.
  - exact (resolvePage_writeless projectUrl).
Qed.

#[local] Hint Extern 1 (related writeless (getJcrPages _ _ _ _)) =>
  apply getJcrPages_writeless : prog.

Lemma collectAsset_writeless (pageUrl projectUrl fileReference : string) :
  related writeless (collectAsset cfg web pageUrl projectUrl fileReference).
Proof. unfold collectAsset. rel_by quiet_side. Qed.

#[local] Hint Extern 1 (related writeless (collectAsset _ _ _ _ _)) =>
  apply collectAsset_writeless : prog.

Lemma getJcrAssets_writeless (pages : list Page.t) (projectUrl : string) :
  related writeless (getJcrAssets cfg web pages projectUrl).
Proof. unfold getJcrAssets. rel_by quiet_side. Qed.

#[local] Hint Extern 1 (related writeless (getJcrAssets _ _ _ _)) =>
  apply getJcrAssets_writeless : prog.

Lemma getFilterXml_writeless (pages : list Page.t) (projectUrl : string) :
  related writeless (getFilterXml cfg web pages projectUrl).
Proof. unfold getFilterXml, getJcrAssetPaths. rel_by quiet_side. Qed.

Lemma getJcrPaths_writeless (pages : list Page.t) (projectUrl : string) :
  related writeless (getJcrPaths cfg web pages projectUrl).
Proof. unfold getJcrPaths. rel_by quiet_side. Qed.

(** [addPage] never fails: the file goes into the archive, then to the
    directory. *)
Lemma addPage_run (contentXmlPath processedXml : string)
    (dirHandle : DirHandle) (c : Cache) :
  addPage contentXmlPath processedXml dirHandle "jcr" c
  = (Ok tt, c, tandem [(contentXmlPath, Text processedXml)]).
Proof. reflexivity. Qed.

Lemma addPages_run {P : Type} (path xml : P -> string)
    (dirHandle : DirHandle) (l : list P) (c : Cache) :
  forEachM (fun page => addPage (path page) (xml page) dirHandle "jcr") l c
  = (Ok tt, c, tandem (map (fun page => (path page, Text (xml page))) l)).
Proof.
  induction l as [|page l IH]; [reflexivity|].
  cbn [forEachM map]. unfold bind. rewrite addPage_run, IH. reflexivity.
Qed.

(** A successful [addAsset] writes the two files of the asset it
    returns. *)
Lemma addAsset_run (asset asset' : Asset.t) (dirHandle : DirHandle)
    (c c' : Cache) (t : list Event) :
  addAsset web asset dirHandle "jcr" c = (Ok asset', c', t) ->
  exists t0, t = (t0 ++ tandem (assetFiles asset'))%list /\ writes t0 = [].
Proof.
  unfold addAsset. intros H.
  apply bind_Ok_inv in H as (a & c1 & t1 & t2 & Hf & H & ->).
  unfold bind, emit, ret in H. cbn in H. injection H as <- _ <-.
  exists t1. split; [reflexivity|].
  exact (fetchAssetData_writeless _ _ _ _ _ Hf).
Qed.

Lemma addAsset_inTandem (asset : Asset.t) (dirHandle : DirHandle) :
  related inTandem (addAsset web asset dirHandle "jcr").
Proof.
  intros c [asset'|e] c' t H.
  - apply addAsset_run in H as (t0 & -> & H0).
    apply (inTandem_trans c t0 c _ c').
    + unfold inTandem. now rewrite (writeless_zipped _ H0), H0.
    + reflexivity.
  - unfold addAsset in H.
    apply bind_inv in H as [(e' & H & _)|(a & c1 & t1 & t2 & _ & H & _)].
    + exact (writeless_inTandem _ (fetchAssetData_writeless asset)
               _ _ _ _ H).
    + discriminate H.
Qed.

#[local] Hint Extern 1 (related inTandem (addAsset _ _ _ _)) =>
  apply addAsset_inTandem : prog.
#[local] Hint Extern 1 (related inTandem (set_jcrAssets _)) =>
  apply writeless_inTandem, set_jcrAssets_writeless : prog.
#[local] Hint Extern 1 (related inTandem (set_jcrPages _)) =>
  apply writeless_inTandem, set_jcrPages_writeless : prog.

Lemma addAssets_inTandem (dirHandle : DirHandle) (todo : list Asset.t) :
  forall done, related inTandem (addAssets web dirHandle "jcr" done todo).
Proof.
  induction todo as [|asset rest IH]; intros done; cbn [addAssets];
    rel_by tandem_side.
Qed.

Lemma addFilterXml_inTandem (pages : list Page.t) (projectUrl : string)
    (dirHandle : DirHandle) :
  related inTandem (addFilterXml cfg web pages projectUrl dirHandle "jcr").
Proof.
  unfold addFilterXml.
  apply related_bind; [tandem_side | | intros [path xml]].
  - apply writeless_inTandem, getFilterXml_writeless.
  - intros c r c' t [= _ _ <-]. reflexivity.
Qed.

Lemma addPropertiesXml_inTandem (pages : list Page.t)
    (packageName : string) (dirHandle : DirHandle) :
  related inTandem (addPropertiesXml web dirHandle "jcr" pages packageName).
Proof. intros c r c' t [= _ _ <-]. reflexivity. Qed.

Lemma addPages_inTandem {P : Type} (path xml : P -> string)
    (dirHandle : DirHandle) (l : list P) :
  related inTandem
    (forEachM (fun page => addPage (path page) (xml page) dirHandle "jcr") l).
Proof.
  intros c r c' t H. rewrite addPages_run in H. injection H as _ _ <-.
  unfold inTandem. now rewrite zipped_tandem, writes_tandem.
Qed.

Lemma ends_bind {A B : Type} (R : Effect)
    (R_trans : forall a t1 b t2 c,
        R a t1 b -> R b t2 c -> R a (t1 ++ t2)%list c)
    (tail : list Event) (m : M A) (k : A -> M B) :
  related R m -> (forall a, ends R tail (k a)) -> ends R tail (bind m k).
Proof.
  intros Hm Hk c r c' t H.
  apply bind_inv in H as [(e & H & ->)|(a & c1 & t1 & t2 & H1 & H2 & ->)].
  - exact (Hm _ _ _ _ H).
  - specialize (Hm _ _ _ _ H1). specialize (Hk a _ _ _ _ H2).
    destruct r as [b|e].
    + destruct Hk as (t0 & -> & Hk). exists (t1 ++ t0)%list.
      split; [apply app_assoc | eauto].
    + eauto.
Qed.

(** A build of at least one page, once its package name is known: every
    file is written in tandem, and a completed build ends with the
    generation of the archive and its save. *)
Lemma build_ends (dirHandle : DirHandle) (pages : list Page.t)
    (projectUrl : string) (c c' : Cache) (r : outcome unit)
    (t : list Event) :
  createJcrPackage cfg web dirHandle pages projectUrl c = (r, c', t) ->
  match r, pages with
  | Ok _, _ :: _ =>
      exists packageName t0,
        getPackageName cfg web pages projectUrl = Ok packageName
        /\ t = (t0 ++ [ZipGenerate;
                       SaveFile ("jcr" ++ "/" ++ packageName ++ ".zip")
                         ZipArchive])%list
        /\ writes t0 = tandem (zipped t0)
  | _, _ => writes t = tandem (zipped t)
  end.
Proof.
  unfold createJcrPackage. destruct pages as [|page pages'] eqn:Hp.
  { intros [= <- _ <-]. reflexivity. }
  rewrite <- Hp. cbn [length Nat.eqb].
  replace (Nat.eqb (length pages) 0) with false by now rewrite Hp.
  intros H.
  apply bind_inv in H as [(e & H & _)|(u & c0 & t1 & t2 & Hi & H & ->)];
    [discriminate H|].
  unfold init in Hi. injection Hi as _ <- <-. cbn [app].
  apply bind_inv in H as [(e & H & ->)|(name & c1 & t3 & t4 & Hn & H & ->)].
  { unfold lift in H. now injection H as _ _ <-. }
  unfold lift in Hn. injection Hn as Hn <- <-. cbn [app].
  revert H. generalize (mkCache (PagesArray []) []). intros c0 H.
  assert (He : ends inTandem
                 [ZipGenerate;
                  SaveFile ("jcr" ++ "/" ++ name ++ ".zip") ZipArchive]
                 (fun c => (r, c', t4) : outcome unit * Cache * list Event)
          -> match r with
             | Ok _ =>
                 exists packageName t0,
                   Ok name = Ok packageName
                   /\ t4 = (t0 ++ [ZipGenerate;
                                   SaveFile ("jcr" ++ "/" ++ packageName
                                             ++ ".zip") ZipArchive])%list
                   /\ writes t0 = tandem (zipped t0)
             | Throw _ => writes t4 = tandem (zipped t4)
             end).
  { intros He. specialize (He c0 r c' t4 eq_refl).
    destruct r as [u'|e]; [|exact He].
    destruct He as (t0 & -> & He). now exists name, t0. }
  rewrite Hn. apply He. clear He.
  intros c2 r2 c3 t5 [= <- <- <-]. revert H.
  generalize c0, r, c', t4.
  match goal with
  | |- forall c0 r c' t, ?m c0 = (r, c', t) -> _ =>
      change (ends inTandem
                [ZipGenerate;
                 SaveFile ("jcr" ++ "/" ++ name ++ ".zip") ZipArchive] m)
  end.
  apply ends_bind; [exact inTandem_trans | | intros resolved].
  { apply writeless_inTandem, getJcrPages_writeless. }
  apply ends_bind; [exact inTandem_trans | | intros _].
  { apply writeless_inTandem, set_jcrPages_writeless. }
  apply ends_bind; [exact inTandem_trans | | intros _].
  { apply (addPages_inTandem JcrPage.contentXmlPath JcrPage.processedXml). }
  apply ends_bind; [exact inTandem_trans | | intros _].
  { apply (addPages_inTandem Ancestor.contentXmlPath
             Ancestor.processedXml). }
  apply ends_bind; [exact inTandem_trans | | intros assets].
  { apply writeless_inTandem, getJcrAssets_writeless. }
  apply ends_bind; [exact inTandem_trans | | intros _].
  { apply writeless_inTandem, set_jcrAssets_writeless. }
  apply ends_bind; [exact inTandem_trans | | intros _].
  { apply addAssets_inTandem. }
  apply ends_bind; [exact inTandem_trans | | intros _].
  { apply addFilterXml_inTandem. }
  apply ends_bind; [exact inTandem_trans | | intros _].
  { apply addPropertiesXml_inTandem. }
  intros c4 r4 c5 t6 [= <- _ <-]. exists []. split; reflexivity.
Qed.

End Writers.

Lemma tandem_no_generate (files : list (string * Content)) :
  ~ In ZipGenerate (tandem files).
Proof.
  induction files as [|f files IH]; cbn; [tauto|].
  intros [H|[H|H]]; [discriminate H | discriminate H | exact (IH H)].
Qed.

Lemma in_writes (e : Event) (t : list Event) :
  In e (writes t) <-> In e t /\ isWrite e = true.
Proof. apply filter_In. Qed.

(** X14. Whatever becomes of a build, every file put into the archive is
    saved next, with the same content, under [jcr/] in the directory,
    and nothing else is written; except that a completed build of at
    least one page ends by generating the archive and saving it under
    the package name. *)
Theorem build_writes_in_tandem (cfg : Config) (web : Browser)
    (dirHandle : DirHandle) (pages : list Page.t) (projectUrl : string)
    (c c' : Cache) (r : outcome unit) (t : list Event) :
  createJcrPackage cfg web dirHandle pages projectUrl c = (r, c', t) ->
  match r, pages with
  | Ok _, _ :: _ =>
      exists packageName,
        getPackageName cfg web pages projectUrl = Ok packageName
        /\ writes t
           = (tandem (zipped t)
              ++ [ZipGenerate;
                  SaveFile ("jcr" ++ "/" ++ packageName ++ ".zip")
                    ZipArchive])%list
  | _, _ => writes t = tandem (zipped t)
  end.
Proof.
  intros H. apply build_ends in H.
  destruct r as [u|e]; [|exact H]. destruct pages as [|page pages];
    [exact H|].
  destruct H as (packageName & t0 & Hn & -> & H0).
  exists packageName. split; [exact Hn|].
  rewrite writes_app, zipped_app, H0. cbn. now rewrite app_nil_r.
Qed.

(** X15. The archive is generated by the builds of at least one page that
    complete, and by no other. *)
Theorem build_generates_iff_completed (cfg : Config) (web : Browser)
    (dirHandle : DirHandle) (pages : list Page.t) (projectUrl : string)
    (c c' : Cache) (r : outcome unit) (t : list Event) :
  createJcrPackage cfg web dirHandle pages projectUrl c = (r, c', t) ->
  In ZipGenerate t <-> r = Ok tt /\ pages <> [].
Proof.
  intros H. apply build_ends in H.
  assert (Hno : writes t = tandem (zipped t) ->
                In ZipGenerate t -> False).
  { intros Hw Hin. apply (tandem_no_generate (zipped t)).
    rewrite <- Hw. apply in_writes. now split. }
  destruct r as [[]|e].
  - destruct pages as [|page pages].
    + split; [intros Hin; destruct (Hno H Hin) | intros [_ Hne]].
      now contradiction Hne.
    + destruct H as (packageName & t0 & _ & -> & _).
      split; [now split | intros _].
      apply in_or_app. right. now left.
  - split; [intros Hin; destruct (Hno H Hin) | intros [Hr _]].
    discriminate Hr.
Qed.

Lemma build_writes_in_tandem_witness :
  fst (fst Demo.heroBuild) = Ok tt
  /\ exists packageName,
       getPackageName shipped Demo.web [Demo.heroPage] Demo.projectUrl
       = Ok packageName
       /\ writes (snd Demo.heroBuild)
          = (tandem (zipped (snd Demo.heroBuild))
             ++ [ZipGenerate;
                 SaveFile ("jcr" ++ "/" ++ packageName ++ ".zip")
                   ZipArchive])%list.
Proof.
  split; [vm_compute; reflexivity|].
  exact (build_writes_in_tandem shipped Demo.web Demo.dir [Demo.heroPage]
           Demo.projectUrl Demo.empty (Demo.cacheAfter Demo.heroBuild)
           (Ok tt) (snd Demo.heroBuild)
           ltac:(vm_compute; reflexivity)).
Defined.

Lemma build_generates_iff_completed_witness :
  In ZipGenerate (snd Demo.heroBuild).
Proof.
  apply (build_generates_iff_completed shipped Demo.web Demo.dir
           [Demo.heroPage] Demo.projectUrl Demo.empty
           (Demo.cacheAfter Demo.heroBuild) (Ok tt) (snd Demo.heroBuild)).
  - vm_compute. reflexivity.
  - split; [reflexivity | discriminate].
Defined.

(** ** The requests of a build *)

Lemma fetched_app (t1 t2 : list Event) :
  fetched (t1 ++ t2) = (fetched t1 ++ fetched t2)%list.
Proof. apply flat_map_app. Qed.

Lemma fetched_tandem (files : list (string * Content)) :
  fetched (tandem files) = [].
Proof. induction files as [|f files IH]; [reflexivity | exact IH]. Qed.

Lemma fetchless_nil (c : Cache) : fetchless c [] c.
Proof. reflexivity. Qed.

Lemma fetchless_trans (a : Cache) (t1 : list Event) (b : Cache)
    (t2 : list Event) (c : Cache) :
  fetchless a t1 b -> fetchless b t2 c -> fetchless a (t1 ++ t2)%list c.
Proof. unfold fetchless. intros H1 H2. now rewrite fetched_app, H1, H2. Qed.

Ltac fetch_side :=
  first [ exact fetchless_nil | exact fetchless_trans
        | solve [intros; reflexivity] ].

Lemma mapM_fetched {A B : Type} (f : A -> M B) (h : A -> list string) :
  (forall x c y c' t, f x c = (Ok y, c', t) -> fetched t = h x) ->
  forall l c ys c' t,
    mapM f l c = (Ok ys, c', t) -> fetched t = flat_map h l.
Proof.
  intros Hf. induction l as [|x l IH]; intros c ys c' t H; cbn [mapM] in H.
  - now injection H as _ _ <-.
  - apply bind_Ok_inv in H as (y & c1 & t1 & t2 & Hy & H & ->).
    apply bind_Ok_inv in H as (ys' & c2 & t3 & t4 & Hys & H & ->).
    injection H as _ _ <-.
    rewrite !fetched_app, (Hf _ _ _ _ _ Hy), (IH _ _ _ _ Hys).
    cbn [flat_map fetched]. now rewrite app_nil_r.
Qed.

Section Requests.

Variable cfg : Config.
Variable web : Browser.

(** Whatever the answer, [fetchAssetData] makes one request for an asset
    that has a URL, and none for an asset without. *)
Lemma fetchAssetData_fetched (asset : Asset.t) (c c' : Cache)
    (r : outcome Asset.t) (t : list Event) :
  fetchAssetData web asset c = (r, c', t) -> fetched t = assetFetch asset.
Proof.
  unfold fetchAssetData, assetFetch.
  destruct (Asset.url asset) as [u|].
  - unfold bind, emit, ret, throw.
    destruct (fetch web (href u)) as [[|] status body contentType|error];
      cbn; intros [= _ _ <-]; reflexivity.
  - now intros [= _ _ <-].
Qed.

Lemma processImage_fetched (pageUrl projectUrl fileReference : string)
    (c c' : Cache) (rw : Rewrite) (t : list Event) :
  processImage cfg web pageUrl projectUrl fileReference c = (Ok rw, c', t) ->
  fetched t = referenceFetch cfg web pageUrl projectUrl fileReference.
Proof.
  unfold processImage, referenceFetch. intros H.
  apply bind_Ok_inv in H as (ref & c1 & t1 & t2 & Href & H & ->).
  assert (t1 = []) as -> by (unfold lift in Href; congruence).
  apply bind_Ok_inv in H as (mime & c2 & t3 & t4 & Hm & H & ->).
  assert (t4 = []) as -> by (unfold ret in H; congruence).
  cbn [app]. rewrite app_nil_r.
  destruct (Js.startsWith fileReference "http").
  - apply bind_Ok_inv in Hm as (asset & c3 & t5 & t6 & Ha & Hm & ->).
    assert (Ha' : getAsset cfg web (Some fileReference) pageUrl projectUrl
                  = Ok asset /\ t5 = [])
      by (unfold lift in Ha; split; congruence).
    destruct Ha' as [-> ->]. cbn [app].
    destruct asset as [asset|]; [|discriminate Hm].
    destruct (Asset.add asset); cbn [negb] in Hm.
    + now injection Hm as _ _ <-.
    + apply bind_Ok_inv in Hm as (asset' & c4 & t7 & t8 & Hf & Hm & ->).
      assert (t8 = []) as -> by (unfold ret in Hm; congruence).
      rewrite app_nil_r. exact (fetchAssetData_fetched _ _ _ _ _ Hf).
  - now injection Hm as _ _ <-.
Qed.

Lemma resolvePage_fetched (projectUrl : string) (page : Page.t)
    (c c' : Cache) (resolved : JcrPage.t) (t : list Event) :
  resolvePage cfg web projectUrl page c = (Ok resolved, c', t) ->
  fetched t = pageFetches cfg web projectUrl page.
Proof.
  unfold resolvePage, getPageProperties, getPageContentChildren,
    getProcessedJcr. intros H. inv_run.
  match goal with
  | E : mapM _ _ _ = _ |- _ =>
      pose proof (mapM_fetched _ _
                    (fun x c0 y c0' t0 =>
                       processImage_fetched (Page.url page) projectUrl x
                         c0 c0' y t0)
                    _ _ _ _ _ E) as Hf
  end.
  rewrite !fetched_app, Hf. cbn [fetched flat_map app].
  now rewrite !app_nil_r.
Qed.

Lemma fetched_syncPart (t : list Event) :
  fetched (syncPart t) = firstn 1 (fetched t).
Proof.
  induction t as [|e t IH]; [reflexivity|]. destruct e; try exact IH.
  reflexivity.
Qed.

Lemma fetched_asyncPart (t : list Event) :
  fetched (asyncPart t) = skipn 1 (fetched t).
Proof.
  induction t as [|e t IH]; [reflexivity|]. destruct e; try exact IH.
  reflexivity.
Qed.

Lemma fetched_flat_map {X : Type} (g : X -> list Event) (l : list X) :
  fetched (flat_map g l) = flat_map (fun x => fetched (g x)) l.
Proof.
  induction l as [|x l IH]; [reflexivity|].
  cbn [flat_map]. now rewrite fetched_app, IH.
Qed.

(** On the empty cache, the requests of [getJcrPages] are those of the
    rewriting of its pages: first the first request of every page, in
    page order; then the later requests of the pages, each page's in
    document order, the pages taking turns as the platform decides. *)
Lemma getJcrPages_fetched (pages : list Page.t) (projectUrl : string)
    (c c' : Cache) (resolved : list JcrPage.t) (t : list Event) :
  jcrPages c = PagesArray [] ->
  getJcrPages cfg web pages projectUrl c = (Ok resolved, c', t) ->
  exists later,
    fetched t
    = (flat_map (fun page => firstn 1 (pageFetches cfg web projectUrl page))
         pages ++ later)%list
    /\ Permutation later
         (flat_map (fun page => skipn 1 (pageFetches cfg web projectUrl page))
            pages).
Proof.
  intros Hc H.
  apply (getJcrPages_inv cfg web _ _ _ _ _ _ Hc) in H
    as (runs & rest & Hruns & _ & -> & Hrest & _ & Hok & _).
  specialize (Hok resolved eq_refl).
  exists (fetched rest). split.
  - rewrite fetched_app, fetched_flat_map. f_equal.
    apply (runs_flat_map cfg web projectUrl
             (fun t0 => fetched (syncPart t0)) _ c)
      with (2 := Hruns) (3 := Hok).
    intros page y c0 t0 H0.
    now rewrite fetched_syncPart, (resolvePage_fetched _ _ _ _ _ _ H0).
  - unfold fetched at 1.
    eapply Permutation_trans; [apply Permutation_flat_map, Hrest|].
    fold (fetched (flat_map (fun run => asyncPart (snd run)) runs)).
    rewrite fetched_flat_map.
    rewrite (runs_flat_map cfg web projectUrl
               (fun t0 => fetched (asyncPart t0))
               (fun page => skipn 1 (pageFetches cfg web projectUrl page))
               c)
      with (pages := pages) (l := resolved); [reflexivity | | assumption..].
    intros page y c0 t0 H0.
    now rewrite fetched_asyncPart, (resolvePage_fetched _ _ _ _ _ _ H0).
Qed.

Lemma collectAsset_fetchless (pageUrl projectUrl fileReference : string) :
  related fetchless (collectAsset cfg web pageUrl projectUrl fileReference).
Proof.
  unfold collectAsset.
  apply related_bind; [fetch_side | apply related_lift; fetch_side|].
  intros asset.
  apply related_bind; [fetch_side | apply related_getCache; fetch_side|].
  intros c0. destruct asset as [asset|]; [|apply related_ret; fetch_side].
  destruct (_ && _); [|apply related_ret; fetch_side].
  now apply related_set.
Qed.

(** While the cache holds resolved pages, [getJcrAssets] and
    [getFilterXml] make no request. *)
Lemma getJcrAssets_fetched (pages : list Page.t) (projectUrl : string)
    (c c' : Cache) (resolved : list JcrPage.t) (assets : list Asset.t)
    (t : list Event) :
  jcrPages c = PagesArray resolved -> resolved <> [] ->
  getJcrAssets cfg web pages projectUrl c = (Ok assets, c', t) ->
  fetched t = [].
Proof.
  intros Hc Hne H. unfold getJcrAssets in H.
  apply bind_Ok_inv in H as (c0 & c1 & t1 & t2 & Hg & H & ->).
  injection Hg as <- <- <-.
  apply bind_Ok_inv in H as (u & c2 & t3 & t4 & Hif & H & ->).
  unfold bind, getCache, ret in H. injection H as _ _ <-.
  cbn [app]. rewrite app_nil_r.
  destruct (Nat.eqb (length (jcrAssets c)) 0).
  - apply bind_Ok_inv in Hif as (rs & c3 & t5 & t6 & Hp & Hif & ->).
    rewrite (getJcrPages_hit cfg web pages projectUrl c resolved Hc Hne)
      in Hp.
    injection Hp as <- <- <-.
    apply bind_Ok_inv in Hif as (u' & c4 & t7 & t8 & Hs & Hif & ->).
    injection Hs as _ <- <-. cbn [app].
    refine (related_forEachM fetchless fetchless_nil fetchless_trans
              _ _ _ _ _ _ _ Hif).
    intros page.
    apply related_bind;
      [fetch_side | apply related_emit; fetch_side | intros _].
    apply related_forEachM;
      [exact fetchless_nil | exact fetchless_trans | intros ref].
    apply collectAsset_fetchless.
  - now injection Hif as _ _ <-.
Qed.

Lemma getFilterXml_fetched (pages : list Page.t) (projectUrl : string)
    (c c' : Cache) (resolved : list JcrPage.t) (r : string * string)
    (t : list Event) :
  jcrPages c = PagesArray resolved -> resolved <> [] ->
  getFilterXml cfg web pages projectUrl c = (Ok r, c', t) ->
  fetched t = [].
Proof.
  intros Hc Hne H. unfold getFilterXml, getJcrAssetPaths in H.
  apply bind_Ok_inv in H as (rs & c1 & t1 & t2 & Hp & H & ->).
  rewrite (getJcrPages_hit cfg web pages projectUrl c resolved Hc Hne) in Hp.
  injection Hp as <- <- <-.
  apply bind_Ok_inv in H as (u & c2 & t3 & t4 & Hs & H & ->).
  injection Hs as _ <- <-.
  apply bind_Ok_inv in H as (paths & c3 & t5 & t6 & Hpaths & H & ->).
  injection H as _ _ <-.
  apply bind_Ok_inv in Hpaths as (assets & c4 & t7 & t8 & Ha & H & ->).
  apply bind_Ok_inv in H as (u' & c5 & t9 & t10 & Hs & H & ->).
  injection Hs as _ _ <-. injection H as _ _ <-.
  apply (getJcrAssets_fetched pages projectUrl _ _ resolved) in Ha;
    [|reflexivity|assumption].
  cbn [app]. rewrite !app_nil_r. exact Ha.
Qed.

End Requests.

(** ** How often the markup of a page is parsed and serialized *)

Lemma parsesOf_app (xml : string) (t1 t2 : list Event) :
  parsesOf xml (t1 ++ t2) = parsesOf xml t1 + parsesOf xml t2.
Proof. unfold parsesOf. now rewrite filter_app, length_app. Qed.

Lemma serializationsOf_app (xml : string) (t1 t2 : list Event) :
  serializationsOf xml (t1 ++ t2)
  = serializationsOf xml t1 + serializationsOf xml t2.
Proof. unfold serializationsOf. now rewrite filter_app, length_app. Qed.

Lemma parsesOf_le (xml : string) (t : list Event) :
  parsesOf xml t <= parses t.
Proof.
  unfold parsesOf, parses. induction t as [|e t IH]; [reflexivity|].
  destruct e; cbn; try exact IH. destruct (String.eqb xml0 xml); cbn; lia.
Qed.

Lemma serializationsOf_le (xml : string) (t : list Event) :
  serializationsOf xml t <= serializations t.
Proof.
  unfold serializationsOf, serializations.
  induction t as [|e t IH]; [reflexivity|].
  destruct e; cbn; try exact IH. destruct (String.eqb xml0 xml); cbn; lia.
Qed.

Lemma quiet_counts (xml : string) (c : Cache) (t : list Event) (c' : Cache) :
  quiet c t c' -> parsesOf xml t = 0 /\ serializationsOf xml t = 0.
Proof.
  intros [Hp Hs]. pose proof (parsesOf_le xml t).
  pose proof (serializationsOf_le xml t). lia.
Qed.

Lemma tandem_counts (xml : string) (files : list (string * Content)) :
  parsesOf xml (tandem files) = 0 /\ serializationsOf xml (tandem files) = 0.
Proof. induction files as [|f files IH]; [now split | exact IH]. Qed.

Lemma list_sum_pagesWith (xml : string) (n : nat) (pages : list Page.t) :
  list_sum (map (fun page => if String.eqb (Page.data page) xml
                             then n else 0) pages)
  = n * pagesWith xml pages.
Proof.
  unfold pagesWith. induction pages as [|page pages IH];
    cbn [map list_sum fold_right filter]; [cbn; lia|].
  unfold list_sum in IH. rewrite IH.
  destruct (String.eqb (Page.data page) xml); cbn [length];
    rewrite ?Nat.mul_succ_r; lia.
Qed.

Section Counts.

Variable cfg : Config.
Variable web : Browser.

(** Resolving one page parses its markup three times and serializes it
    once, and parses and serializes no other markup. *)
Lemma resolvePage_counts_of (xml projectUrl : string) (page : Page.t)
    (c c' : Cache) (resolved : JcrPage.t) (t : list Event) :
  resolvePage cfg web projectUrl page c = (Ok resolved, c', t) ->
  parsesOf xml t = (if String.eqb (Page.data page) xml then 3 else 0)
  /\ serializationsOf xml t
     = (if String.eqb (Page.data page) xml then 1 else 0).
Proof.
  unfold resolvePage, getPageProperties, getPageContentChildren,
    getProcessedJcr. intros H. inv_run.
  match goal with
  | E : mapM _ _ _ = _ |- _ =>
      destruct (quiet_counts xml _ _ _
                  (related_mapM quiet quiet_nil quiet_trans _ _
                     (processImage_quiet cfg web (Page.url page) projectUrl)
                     _ _ _ _ E)) as [Ep Es]
  end.
  rewrite !parsesOf_app, !serializationsOf_app, Ep, Es.
  unfold parsesOf, serializationsOf.
  cbn [filter isDomParseOf isXmlSerializeOf].
  destruct (String.eqb (Page.data page) xml); split; reflexivity.
Qed.

Lemma getJcrPages_counts (xml : string) (pages : list Page.t)
    (projectUrl : string) (c c' : Cache) (resolved : list JcrPage.t)
    (t : list Event) :
  jcrPages c = PagesArray [] ->
  getJcrPages cfg web pages projectUrl c = (Ok resolved, c', t) ->
  parsesOf xml t = 3 * pagesWith xml pages
  /\ serializationsOf xml t = pagesWith xml pages.
Proof.
  intros Hc H.
  apply (getJcrPages_inv cfg web _ _ _ _ _ _ Hc) in H
    as (runs & rest & Hruns & _ & _ & _ & Hperm & Hok & _).
  specialize (Hok resolved eq_refl).
  unfold parsesOf, serializationsOf.
  rewrite !(Permutation_filter_length _ _ _ Hperm).
  fold (parsesOf xml (flat_map snd runs))
    (serializationsOf xml (flat_map snd runs)).
  split.
  - rewrite (runs_measure cfg web projectUrl (parsesOf xml)
               (fun page => if String.eqb (Page.data page) xml
                            then 3 else 0)
               c eq_refl (parsesOf_app xml)
               (fun page y c0 t0 H0 =>
                  proj1 (resolvePage_counts_of xml _ _ _ _ _ _ H0))
               pages runs resolved Hruns Hok).
    apply list_sum_pagesWith.
  - rewrite (runs_measure cfg web projectUrl (serializationsOf xml)
               (fun page => if String.eqb (Page.data page) xml
                            then 1 else 0)
               c eq_refl (serializationsOf_app xml)
               (fun page y c0 t0 H0 =>
                  proj2 (resolvePage_counts_of xml _ _ _ _ _ _ H0))
               pages runs resolved Hruns Hok).
    rewrite list_sum_pagesWith. lia.
Qed.

Lemma resolves_resolvedWith (xml projectUrl : string) (pages : list Page.t)
    (resolved : list JcrPage.t) :
  Forall2 (resolves cfg web projectUrl) pages resolved ->
  resolvedWith xml resolved = pagesWith xml pages.
Proof.
  unfold resolvedWith, pagesWith.
  induction 1 as [|page r pages resolved (_ & Hdata & _) _ IH];
    [reflexivity|].
  cbn [filter]. rewrite Hdata.
  destruct (String.eqb (Page.data page) xml); cbn [length]; congruence.
Qed.

(** The scan of [getJcrAssets] parses the markup of every resolved page
    once. *)
Lemma collectLoop_counts (xml projectUrl : string)
    (resolved : list JcrPage.t) :
  forall c c' t,
    forEachM
      (fun page =>
         bind (emit (DomParse (JcrPage.sourceXml page)))
           (fun _ =>
              forEachM (collectAsset cfg web (JcrPage.url page) projectUrl)
                (fileReferences web (JcrPage.sourceXml page))))
      resolved c = (Ok tt, c', t) ->
    parsesOf xml t = resolvedWith xml resolved
    /\ serializationsOf xml t = 0.
Proof.
  induction resolved as [|page resolved IH]; intros c c' t H;
    cbn [forEachM] in H.
  - injection H as _ <-. now split.
  - inv_run.
    match goal with
    | E : forEachM (collectAsset _ _ _ _) _ _ = _ |- _ =>
        destruct (quiet_counts xml _ _ _
                    (related_forEachM quiet quiet_nil quiet_trans _ _
                       (collectAsset_quiet cfg web (JcrPage.url page)
                          projectUrl) _ _ _ _ E)) as [Ep Es]
    end.
    match goal with
    | E : forEachM _ resolved _ = _ |- _ => apply IH in E as (Hp & Hs)
    end.
    rewrite !parsesOf_app, !serializationsOf_app, Ep, Es, Hp, Hs.
    unfold parsesOf, serializationsOf, resolvedWith.
    cbn [filter isDomParseOf isXmlSerializeOf].
    destruct (String.eqb (JcrPage.sourceXml page) xml); cbn [length];
      split; lia.
Qed.

(** While the cache holds resolved pages, a successful [getJcrAssets] or
    [getFilterXml] parses the markup of every resolved page once when the
    asset cache is empty, and nothing otherwise. *)
Lemma getJcrAssets_counts (xml : string) (pages : list Page.t)
    (projectUrl : string) (c c' : Cache) (resolved : list JcrPage.t)
    (assets : list Asset.t) (t : list Event) :
  jcrPages c = PagesArray resolved -> resolved <> [] ->
  getJcrAssets cfg web pages projectUrl c = (Ok assets, c', t) ->
  parsesOf xml t = match jcrAssets c with
                   | [] => resolvedWith xml resolved
                   | _ :: _ => 0
                   end
  /\ serializationsOf xml t = 0.
Proof.
  intros Hc Hne H. unfold getJcrAssets in H.
  apply bind_Ok_inv in H as (c0 & c1 & t1 & t2 & Hg & H & ->).
  injection Hg as <- <- <-.
  apply bind_Ok_inv in H as (u & c2 & t3 & t4 & Hif & H & ->).
  unfold bind, getCache, ret in H. injection H as _ _ <-.
  cbn [app]. rewrite app_nil_r.
  destruct (jcrAssets c) as [|a0 rest]; cbn [length Nat.eqb] in Hif.
  - apply bind_Ok_inv in Hif as (rs & c3 & t5 & t6 & Hp & Hif & ->).
    rewrite (getJcrPages_hit cfg web pages projectUrl c resolved Hc Hne)
      in Hp.
    injection Hp as <- <- <-.
    apply bind_Ok_inv in Hif as (u' & c4 & t7 & t8 & Hs & Hif & ->).
    injection Hs as _ <- <-. cbn [app]. destruct u.
    exact (collectLoop_counts xml projectUrl resolved _ _ _ Hif).
  - injection Hif as _ _ <-. now split.
Qed.

Lemma getFilterXml_counts (xml : string) (pages : list Page.t)
    (projectUrl : string) (c c' : Cache) (resolved : list JcrPage.t)
    (r : string * string) (t : list Event) :
  jcrPages c = PagesArray resolved -> resolved <> [] ->
  getFilterXml cfg web pages projectUrl c = (Ok r, c', t) ->
  parsesOf xml t = match jcrAssets c with
                   | [] => resolvedWith xml resolved
                   | _ :: _ => 0
                   end
  /\ serializationsOf xml t = 0.
Proof.
  intros Hc Hne H. unfold getFilterXml, getJcrAssetPaths in H.
  apply bind_Ok_inv in H as (rs & c1 & t1 & t2 & Hp & H & ->).
  rewrite (getJcrPages_hit cfg web pages projectUrl c resolved Hc Hne) in Hp.
  injection Hp as <- <- <-.
  apply bind_Ok_inv in H as (u & c2 & t3 & t4 & Hs & H & ->).
  injection Hs as _ <- <-.
  apply bind_Ok_inv in H as (paths & c3 & t5 & t6 & Hpaths & H & ->).
  injection H as _ _ <-.
  apply bind_Ok_inv in Hpaths as (assets & c4 & t7 & t8 & Ha & H & ->).
  apply bind_Ok_inv in H as (u' & c5 & t9 & t10 & Hs & H & ->).
  injection Hs as _ _ <-. injection H as _ _ <-.
  apply (getJcrAssets_counts xml pages projectUrl _ _ resolved) in Ha;
    [|reflexivity|assumption].
  cbn [app jcrAssets] in *. rewrite !app_nil_r. exact Ha.
Qed.

End Counts.

(** ** The contents of the archive *)

Section Archive.

Variable cfg : Config.
Variable web : Browser.

Lemma addAsset_fetched (asset asset' : Asset.t) (dirHandle : DirHandle)
    (c c' : Cache) (t : list Event) :
  addAsset web asset dirHandle "jcr" c = (Ok asset', c', t) ->
  fetched t = assetFetch asset'.
Proof.
  unfold addAsset. intros H.
  apply bind_Ok_inv in H as (a & c1 & t1 & t2 & Hf & H & ->).
  unfold bind, emit, ret in H. cbn in H. injection H as <- _ <-.
  rewrite fetched_app, (fetchAssetData_fetched web _ _ _ _ _ Hf).
  apply fetchAssetData_keeps in Hf as (_ & _ & _ & Hu & _).
  unfold assetFetch. rewrite Hu. cbn. now rewrite app_nil_r.
Qed.

(** The loop that writes the assets makes the request of every asset and
    puts its two files into the archive, as the cache holds the asset
    afterwards. *)
Lemma addAssets_run (dirHandle : DirHandle) (todo : list Asset.t) :
  forall done c c' t,
    addAssets web dirHandle "jcr" done todo c = (Ok tt, c', t) ->
    jcrAssets c = (done ++ todo)%list ->
    exists results,
      jcrAssets c' = (done ++ results)%list
      /\ length results = length todo
      /\ zipped t = flat_map assetFiles results
      /\ fetched t = flat_map assetFetch results.
Proof.
  induction todo as [|asset rest IH]; intros done c c' t H Hc;
    cbn [addAssets] in H.
  - injection H as <- <-. now exists [].
  - apply bind_Ok_inv in H as (asset' & c1 & t1 & t2 & Ha & H & ->).
    apply bind_Ok_inv in H as (u & c2 & t3 & t4 & Hs & H & ->).
    injection Hs as _ <- <-.
    pose proof (addAsset_fetched _ _ _ _ _ _ Ha) as Hf1.
    apply addAsset_run in Ha as (t0 & -> & H0).
    apply IH in H as (results & Hres & Hlen & Hz & Hf);
      [|cbn; now rewrite <- app_assoc].
    exists (asset' :: results). split; [|split; [|split]].
    + rewrite Hres, <- app_assoc. reflexivity.
    + cbn. now rewrite Hlen.
    + rewrite !zipped_app, (writeless_zipped _ H0), zipped_tandem, Hz.
      reflexivity.
    + rewrite fetched_app, Hf1. cbn [app flat_map]. now rewrite Hf.
Qed.

Lemma included_fetched_once (assets : list Asset.t) :
  Forall included assets ->
  Forall (fun asset => length (assetFetch asset) = 1) assets.
Proof.
  apply Forall_impl. intros asset (_ & Hurl & _). unfold assetFetch.
  destruct (Asset.url asset); [reflexivity | contradiction].
Qed.

Lemma firstn_skipn_flat_map {X Y : Type} (f : X -> list Y) (l : list X) :
  Permutation
    (flat_map (fun x => firstn 1 (f x)) l
     ++ flat_map (fun x => skipn 1 (f x)) l)
    (flat_map f l).
Proof.
  rewrite flat_map_pointwise_app.
  erewrite flat_map_ext; [reflexivity|].
  intros x. apply firstn_skipn.
Qed.

(** A completed build of at least one page: the pages it resolves, what
    it puts into the archive, what it asks of the network, and how often
    it parses and serializes a markup. *)
Lemma build_trace (dirHandle : DirHandle) (pages : list Page.t)
    (projectUrl : string) (c c' : Cache) (t : list Event) :
  pages <> [] ->
  createJcrPackage cfg web dirHandle pages projectUrl c = (Ok tt, c', t) ->
  exists resolved packageName later,
    jcrPages c' = PagesArray resolved
    /\ Forall2 (resolves cfg web projectUrl) pages resolved
    /\ Forall2 (rewritesPage cfg web projectUrl) pages resolved
    /\ getPackageName cfg web pages projectUrl = Ok packageName
    /\ zipped t
       = (map pageFile resolved
          ++ map ancestorFile (getEmptyAncestorPages resolved)
          ++ flat_map assetFiles (jcrAssets c')
          ++ [("META-INF/vault/filter.xml",
               Text (filterXmlOf resolved
                       (getResourcePaths (jcrAssets c') true)));
              ("META-INF/vault/properties.xml",
               Text (snd (getPropertiesXml web packageName)))])%list
    /\ fetched t
       = (flat_map
            (fun page => firstn 1 (pageFetches cfg web projectUrl page))
            pages
          ++ later
          ++ flat_map assetFetch (jcrAssets c'))%list
    /\ Permutation later
         (flat_map
            (fun page => skipn 1 (pageFetches cfg web projectUrl page))
            pages)
    /\ (forall xml,
          serializationsOf xml t = pagesWith xml pages
          /\ parsesOf xml t
             = match jcrAssets c' with
               | [] => 5 * pagesWith xml pages
               | _ :: _ => 4 * pagesWith xml pages
               end).
Proof.
  intros Hne H. unfold createJcrPackage in H.
  destruct (Nat.eqb (length pages) 0) eqn:Hlen.
  { destruct pages; [contradiction | discriminate Hlen]. }
  apply bind_Ok_inv in H as (u0 & c0 & t0 & t0' & Hinit & H & ->).
  injection Hinit as _ <- <-.
  apply bind_Ok_inv in H as (packageName & c1 & t1 & t1' & Hname & H & ->).
  injection Hname as Hname <- <-.
  apply bind_Ok_inv in H as (resolved & c2 & t2 & t2' & Hpages & H & ->).
  pose proof (getJcrPages_writeless cfg web _ _ _ _ _ _ Hpages) as Hw2.
  pose proof (getJcrPages_Forall2 cfg web _ _
                (mkCache (PagesArray []) []) _ _ _ eq_refl Hpages)
    as Hres2.
  pose proof (getJcrPages_rewrites cfg web _ _
                (mkCache (PagesArray []) []) _ _ _ eq_refl Hpages)
    as Hrew2.
  pose proof (fun xml =>
                getJcrPages_counts cfg web xml _ _
                  (mkCache (PagesArray []) []) _ _ _ eq_refl Hpages)
    as Hn2.
  destruct (getJcrPages_fetched cfg web _ _
              (mkCache (PagesArray []) []) _ _ _ eq_refl Hpages)
    as (later & Hf2 & Hlater).
  apply getJcrPages_fresh in Hpages as (-> & Hlr & _ & _);
    [|reflexivity].
  assert (Hres : resolved <> []).
  { intros ->. destruct pages; [contradiction | discriminate Hlr]. }
  apply bind_Ok_inv in H as (u3 & c3 & t3 & t3' & Hset & H & ->).
  injection Hset as _ <- <-. cbn [jcrAssets] in H.
  apply bind_Ok_inv in H as (u4 & c4 & t4 & t4' & Hadd & H & ->).
  rewrite (addPages_run JcrPage.contentXmlPath JcrPage.processedXml)
    in Hadd.
  injection Hadd as _ <- <-.
  apply bind_Ok_inv in H as (u5 & c5 & t5 & t5' & Hadd & H & ->).
  rewrite (addPages_run Ancestor.contentXmlPath Ancestor.processedXml)
    in Hadd.
  injection Hadd as _ <- <-.
  apply bind_Ok_inv in H as (assets & c6 & t6 & t6' & Hassets & H & ->).
  pose proof (getJcrAssets_writeless cfg web _ _ _ _ _ _ Hassets) as Hw6.
  pose proof Hassets as Hf6.
  apply (getJcrAssets_fetched cfg web _ _ _ _ resolved) in Hf6;
    [|reflexivity|assumption].
  pose proof (fun xml =>
                getJcrAssets_counts cfg web xml _ _
                  (mkCache (PagesArray resolved) []) _ resolved _ _
                  eq_refl Hres Hassets) as Hn6.
  cbn [jcrAssets] in Hn6.
  pose proof Hassets as Hrun6.
  apply (getJcrAssets_run cfg web pages projectUrl _ _ resolved) in Hrun6
    as (Hpg6 & Has6 & _ & _ & _); [|reflexivity|assumption].
  apply bind_Ok_inv in H as (u7 & c7 & t7 & t7' & Hset & H & ->).
  injection Hset as _ <- <-. rewrite Hpg6 in H.
  apply bind_Ok_inv in H as (u8 & c8 & t8 & t8' & Hwrite & H & ->).
  destruct u8.
  pose proof (addAssets_samePages web dirHandle "jcr" assets []
                _ _ _ _ Hwrite) as Hpg8.
  pose proof (fun xml =>
                quiet_counts xml _ _ _
                  (addAssets_quiet web dirHandle "jcr" assets []
                     _ _ _ _ Hwrite)) as Hn8.
  apply addAssets_run in Hwrite as (results & Hres8 & Hlen8 & Hz8 & Hf8);
    [|reflexivity].
  unfold samePages in Hpg8. cbn [jcrPages app] in Hpg8, Hres8.
  apply bind_Ok_inv in H as (u9 & c9 & t9 & t9' & Hfilter & H & ->).
  unfold addFilterXml in Hfilter.
  apply bind_Ok_inv in Hfilter
    as ([path xml] & c10 & t10 & t10' & Hxml & Hfilter & ->).
  pose proof (getFilterXml_writeless cfg web _ _ _ _ _ _ Hxml) as Hw10.
  pose proof Hxml as Hf10.
  apply (getFilterXml_fetched cfg web _ _ _ _ resolved) in Hf10;
    [|assumption|assumption].
  pose proof (fun xml0 =>
                getFilterXml_counts cfg web xml0 _ _ _ _ resolved _ _
                  Hpg8 Hres Hxml) as Hn10.
  rewrite Hres8 in Hn10.
  apply (getFilterXml_run cfg web pages projectUrl _ _ resolved) in Hxml
    as (c11 & t11 & Hagain & -> & -> & Hpg10 & _ & _);
    [|assumption|assumption].
  apply bind_Ok_inv in Hfilter as (u12 & c12 & t12 & t12' & He & Hfilter & ->).
  injection He as _ <- <-. injection Hfilter as _ <- <-.
  apply bind_Ok_inv in H as (u13 & c13 & t13 & t13' & Hprops & H & ->).
  unfold addPropertiesXml in Hprops. cbn in Hprops.
  injection Hprops as _ <- <-.
  apply bind_Ok_inv in H as (u14 & c14 & t14 & t14' & He & H & ->).
  injection He as _ <- <-. injection H as <- <-.
  assert (Hsame : jcrAssets c10 = results).
  { destruct results as [|a8 rest8].
    - assert (assets = []) as ->.
      { destruct assets; [reflexivity | discriminate Hlen8]. }
      rewrite Hres8 in Hagain. rewrite Hassets in Hagain.
      now injection Hagain as <- _ _.
    - pose proof Hagain as Hrun.
      apply (getJcrAssets_run cfg web pages projectUrl _ _ resolved) in Hrun
        as (_ & _ & _ & _ & Hsame); [|reflexivity|assumption].
      cbn [jcrAssets] in Hsame. rewrite Hsame, Hres8; [reflexivity|].
      rewrite Hres8. discriminate. }
  exists resolved, packageName, later.
  split; [assumption|]. split; [assumption|]. split; [assumption|].
  split; [assumption|]. split; [|split; [|split; [assumption|]]].
  - rewrite !zipped_app, (writeless_zipped _ Hw2), (writeless_zipped _ Hw6),
      (writeless_zipped _ Hw10), !zipped_tandem, Hz8, Hsame.
    cbn [app zipped flat_map]. rewrite ?app_nil_r. reflexivity.
  - rewrite !fetched_app, Hf2, Hf6, Hf10, Hf8, !fetched_tandem, Hsame.
    cbn [app fetched flat_map]. rewrite ?app_nil_r.
    now rewrite <- app_assoc.
  - intros xml0.
    destruct (Hn2 xml0) as [Hp2 Hs2]. destruct (Hn6 xml0) as [Hp6 Hs6].
    destruct (Hn8 xml0) as [Hp8 Hs8]. destruct (Hn10 xml0) as [Hp10 Hs10].
    pose proof (resolves_resolvedWith cfg web xml0 projectUrl pages
                  resolved Hres2) as Hwith.
    rewrite !parsesOf_app, !serializationsOf_app.
    rewrite Hp2, Hs2, Hp6, Hs6, Hp8, Hs8, Hp10, Hs10.
    rewrite !(proj1 (tandem_counts xml0 _)), !(proj2 (tandem_counts xml0 _)).
    rewrite Hsame, Hwith.
    unfold parsesOf, serializationsOf.
    cbn [filter isDomParseOf isXmlSerializeOf length].
    split; [lia|]. destruct results; lia.
Qed.

(** X16. The files of the archive of a completed build, in the order they
    are put in: for every page, in page order, its descriptor with the
    markup of the page rewritten reference by reference; the descriptors
    of the empty ancestor pages; two files for every cached asset; the
    filter document and the properties. *)
Theorem build_archive (dirHandle : DirHandle) (pages : list Page.t)
    (projectUrl : string) (c c' : Cache) (t : list Event) :
  pages <> [] ->
  createJcrPackage cfg web dirHandle pages projectUrl c = (Ok tt, c', t) ->
  exists resolved packageName,
    jcrPages c' = PagesArray resolved
    /\ Forall2 (resolves cfg web projectUrl) pages resolved
    /\ Forall2 (rewritesPage cfg web projectUrl) pages resolved
    /\ getPackageName cfg web pages projectUrl = Ok packageName
    /\ zipped t
       = (map pageFile resolved
          ++ map ancestorFile (getEmptyAncestorPages resolved)
          ++ flat_map assetFiles (jcrAssets c')
          ++ [("META-INF/vault/filter.xml",
               Text (filterXmlOf resolved
                       (getResourcePaths (jcrAssets c') true)));
              ("META-INF/vault/properties.xml",
               Text (snd (getPropertiesXml web packageName)))])%list.
Proof.
  intros Hne H.
  destruct (build_trace dirHandle pages projectUrl c c' t Hne H)
    as (resolved & packageName & later & Hc & Hres & Hrew & Hn & Hz & _).
  now exists resolved, packageName.
Qed.

(** X17. The requests of a completed build, in order: first, while the
    pages are resolved, one for every occurrence of an absolute reference
    that is not included, the first such request of every page, in page
    order, before all the later ones, which follow in an order that the
    platform decides; then, after the pages are written, exactly one for
    every cached asset, in cache order; and no other. *)
Theorem build_requests (dirHandle : DirHandle) (pages : list Page.t)
    (projectUrl : string) (c c' : Cache) (t : list Event) :
  pages <> [] ->
  createJcrPackage cfg web dirHandle pages projectUrl c = (Ok tt, c', t) ->
  exists later,
    fetched t
    = (flat_map (fun page => firstn 1 (pageFetches cfg web projectUrl page))
         pages
       ++ later
       ++ flat_map assetFetch (jcrAssets c'))%list
    /\ Permutation later
         (flat_map
            (fun page => skipn 1 (pageFetches cfg web projectUrl page))
            pages)
    /\ Forall (fun asset => length (assetFetch asset) = 1) (jcrAssets c').
Proof.
  intros Hne H.
  destruct (build_trace dirHandle pages projectUrl c c' t Hne H)
    as (resolved & packageName & later & _ & _ & _ & _ & _ & Hf & Hl & _).
  exists later. split; [exact Hf|]. split; [exact Hl|].
  exact (included_fetched_once _
           (build_included cfg web dirHandle pages projectUrl c c' (Ok tt) t
              Hne H)).
Qed.

(** C4, as the code has it. A completed build of at least one page does
    not depend on what the cache held before. The module variable then
    holds one resolved page per input page, in page order. The markup of
    each page has been serialized exactly once; it has been parsed more
    than once, at least four and at most five times. While the pages are
    resolved, one request is made for every occurrence of an absolute
    reference that is not included; after that, exactly one request is
    made for every cached asset, in cache order, and no two cached assets
    share a [jcrPath]; no other request is made. *)
Theorem build_resolves_pages_once (dirHandle : DirHandle)
    (pages : list Page.t) (projectUrl : string) (c c' : Cache)
    (t : list Event) :
  pages <> [] ->
  createJcrPackage cfg web dirHandle pages projectUrl c = (Ok tt, c', t) ->
  (forall c0, createJcrPackage cfg web dirHandle pages projectUrl c0
              = (Ok tt, c', t))
  /\ (exists resolved,
        jcrPages c' = PagesArray resolved
        /\ Forall2 (resolves cfg web projectUrl) pages resolved)
  /\ (forall xml,
        serializationsOf xml t = pagesWith xml pages
        /\ 4 * pagesWith xml pages <= parsesOf xml t
        /\ parsesOf xml t <= 5 * pagesWith xml pages)
  /\ exists early,
       fetched t = (early ++ flat_map assetFetch (jcrAssets c'))%list
       /\ Permutation early
            (flat_map (pageFetches cfg web projectUrl) pages)
       /\ Forall (fun asset => length (assetFetch asset) = 1)
            (jcrAssets c')
       /\ uniquePaths (jcrAssets c').
Proof.
  intros Hne H. split.
  { intros c0. rewrite <- H. unfold createJcrPackage.
    destruct (Nat.eqb (length pages) 0) eqn:Hlen; [|reflexivity].
    destruct pages; [contradiction | discriminate Hlen]. }
  destruct (build_trace dirHandle pages projectUrl c c' t Hne H)
    as (resolved & packageName & later & Hc & Hres & _ & _ & _ & Hf & Hl
        & Hn).
  split; [now exists resolved|]. split.
  - intros xml. destruct (Hn xml) as [Hs Hp].
    split; [exact Hs|]. destruct (jcrAssets c'); lia.
  - exists (flat_map
              (fun page => firstn 1 (pageFetches cfg web projectUrl page))
              pages ++ later)%list.
    split; [now rewrite <- app_assoc|]. split.
    + rewrite <- (firstn_skipn_flat_map (pageFetches cfg web projectUrl)
                    pages).
      now apply Permutation_app_head.
    + split.
      * exact (included_fetched_once _
                 (build_included cfg web dirHandle pages projectUrl c c'
                    (Ok tt) t Hne H)).
      * exact (build_uniquePaths cfg web dirHandle pages projectUrl c c'
                 (Ok tt) t Hne H).
Qed.

End Archive.

Lemma build_archive_witness :
  fst (fst Demo.heroBuild) = Ok tt
  /\ nth_error (zipped (snd Demo.heroBuild)) 0
     = Some ("jcr_root/content/repo/a/b/.content.xml",
             Text "<hero/>[/content/dam/repo/media/a_width100.png|]")
  /\ map fst (zipped (snd Demo.heroBuild))
     = ["jcr_root/content/repo/a/b/.content.xml";
        "jcr_root/content/repo/.content.xml";
        "jcr_root/content/repo/a/.content.xml";
        "jcr_root/content/dam/repo/media/a_width100.png/.content.xml";
        "jcr_root/content/dam/repo/media/a_width100.png/_jcr_content/renditions/original";
        "META-INF/vault/filter.xml"; "META-INF/vault/properties.xml"].
Proof.
  split; [vm_compute; reflexivity|].
  destruct (build_archive shipped Demo.web Demo.dir [Demo.heroPage]
              Demo.projectUrl Demo.empty (Demo.cacheAfter Demo.heroBuild)
              (snd Demo.heroBuild))
    as (resolved & packageName & Hc & _ & _ & _ & Hz).
  - discriminate.
  - vm_compute. reflexivity.
  - rewrite Hz. vm_compute in Hc. injection Hc as <-.
    split; vm_compute; reflexivity.
Defined.

Lemma build_requests_witness :
  fst (fst Demo.pairBuild) = Ok tt
  /\ fetched (snd Demo.pairBuild)
     = ["https://cdn.example.com/l1.png"; "https://cdn.example.com/r1.png";
        "https://cdn.example.com/l2.png"; "https://cdn.example.com/r2.png"]
  /\ exists later,
       fetched (snd Demo.pairBuild)
       = (["https://cdn.example.com/l1.png";
           "https://cdn.example.com/r1.png"] ++ later)%list
       /\ Permutation later
            ["https://cdn.example.com/l2.png";
             "https://cdn.example.com/r2.png"].
Proof.
  split; [vm_compute; reflexivity|]. split; [vm_compute; reflexivity|].
  destruct (build_requests shipped Demo.webPair Demo.dir
              [Demo.leftPage; Demo.rightPage] Demo.projectUrl Demo.empty
              (Demo.cacheAfter Demo.pairBuild) (snd Demo.pairBuild))
    as (later & Hf & Hperm & _).
  - discriminate.
  - vm_compute. reflexivity.
  - exists later. split; [|exact Hperm].
    rewrite Hf.
    change (jcrAssets (Demo.cacheAfter Demo.pairBuild))
      with (@nil Asset.t).
    cbn [flat_map]. rewrite !app_nil_r. reflexivity.
Defined.

Lemma build_resolves_pages_once_witness :
  fst (fst Demo.heroBuild) = Ok tt
  /\ serializationsOf "<hero/>" (snd Demo.heroBuild) = 1
  /\ 4 <= parsesOf "<hero/>" (snd Demo.heroBuild) <= 5
  /\ fetched (snd Demo.heroBuild)
     = ["https://main--repo--org.hlx.page/media/a.png?width=100"].
Proof.
  split; [vm_compute; reflexivity|].
  destruct (build_resolves_pages_once shipped Demo.web Demo.dir
              [Demo.heroPage] Demo.projectUrl Demo.empty
              (Demo.cacheAfter Demo.heroBuild) (snd Demo.heroBuild))
    as (_ & _ & Hn & early & Hf & Hperm & _ & _).
  - discriminate.
  - vm_compute. reflexivity.
  - destruct (Hn "<hero/>") as (Hs & Hlow & Hhigh).
    change (pagesWith "<hero/>" [Demo.heroPage]) with 1 in Hs, Hlow, Hhigh.
    split; [exact Hs|]. split; [lia|].
    change (flat_map (pageFetches shipped Demo.web Demo.projectUrl)
              [Demo.heroPage]) with (@nil string) in Hperm.
    apply Permutation_sym, Permutation_nil in Hperm. subst early.
    rewrite Hf. vm_compute. reflexivity.
Defined.

(** On a platform that answers the first request of the right page
    first, that page makes its second request before the left page
    does. *)
Example build_requests_out_of_turn :
  fetched (snd Demo.pairBuildLate)
  = ["https://cdn.example.com/l1.png"; "https://cdn.example.com/r1.png";
     "https://cdn.example.com/r2.png"; "https://cdn.example.com/l2.png"].
Proof. vm_compute. reflexivity. Qed.

(** ** Builds that abort before anything is written *)

Lemma mapM_throws {A B : Type} (f : A -> M B) (x : A) (l : list A) :
  In x l ->
  (forall c r c' t, f x c = (r, c', t) -> exists e, r = Throw e) ->
  forall c r c' t, mapM f l c = (r, c', t) -> exists e, r = Throw e.
Proof.
  intros Hin Hx. induction l as [|a l IH]; [destruct Hin|].
  intros c r c' t H. cbn [mapM] in H.
  apply bind_inv in H as [(e & _ & ->)|(y & c1 & t1 & t2 & Ha & H & _)];
    [now exists e|].
  destruct Hin as [->|Hin].
  - apply Hx in Ha as [e Ha]. discriminate Ha.
  - apply bind_inv in H as [(e & _ & ->)|(ys & c2 & t3 & t4 & Hl & H & _)];
      [now exists e|].
    apply (IH Hin) in Hl as [e Hl]. discriminate Hl.
Qed.

Section Aborts.

Variable cfg : Config.
Variable web : Browser.

Lemma resolvePage_empty_reference (projectUrl : string) (page : Page.t) :
  In "" (fileReferences web (Page.data page)) ->
  forall c r c' t,
    resolvePage cfg web projectUrl page c = (r, c', t) ->
    exists e, r = Throw e.
Proof.
  intros Hin c r c' t H. unfold resolvePage in H.
  apply bind_inv in H as [(e & _ & ->)|(props & c1 & t1 & t2 & _ & H & _)];
    [now exists e|].
  apply bind_inv in H as [(e & _ & ->)|(kids & c2 & t3 & t4 & _ & H & _)];
    [now exists e|].
  apply bind_inv in H as [(e & _ & ->)|(xml & c3 & t5 & t6 & Hx & _ & _)];
    [now exists e|].
  exfalso. unfold getProcessedJcr in Hx.
  apply bind_Ok_inv in Hx as (u & c4 & t7 & t8 & _ & Hx & _).
  apply bind_Ok_inv in Hx as (rws & c5 & t9 & t10 & Hm & _ & _).
  apply (mapM_throws _ "" _ Hin) in Hm as [e Hm]; [discriminate Hm|].
  intros c0 r0 c0' t0 H0.
  destruct (processImage_empty_reference cfg web (Page.url page)
              projectUrl c0) as [e He].
  rewrite He in H0. injection H0 as <- _ _. now exists e.
Qed.

(** On the empty cache, a page with an empty reference makes
    [getJcrPages] throw. *)
Lemma getJcrPages_empty_reference (pages : list Page.t)
    (projectUrl : string) (page : Page.t) (c c' : Cache)
    (r : outcome (list JcrPage.t)) (t : list Event) :
  In page pages ->
  In "" (fileReferences web (Page.data page)) ->
  jcrPages c = PagesArray [] ->
  getJcrPages cfg web pages projectUrl c = (r, c', t) ->
  exists e, r = Throw e.
Proof.
  intros Hpage Href Hc H.
  apply (getJcrPages_inv cfg web _ _ _ _ _ _ Hc) in H
    as (runs & rest & Hruns & _ & _ & _ & _ & _ & _ & Hrej).
  assert (Hrun : exists e, In (Throw e) (map fst runs)).
  { clear Hrej. induction Hruns as [|page' run pages runs Hrun _ IH];
      [destruct Hpage|].
    destruct Hpage as [->|Hpage].
    - destruct (resolvePage_empty_reference projectUrl page Href _ _ _ _
                  Hrun) as [e He].
      exists e. left. exact He.
    - destruct (IH Hpage) as [e He]. exists e. now right. }
  destruct Hrun as [e He]. exact (Hrej e He).
Qed.

End Aborts.

(** X18. A project URL that does not parse, when no site name is configured,
    aborts the build of at least one page at its first step: the cache
    has been reset and nothing else has happened. *)
Theorem build_invalid_project_url (cfg : Config) (web : Browser)
    (dirHandle : DirHandle) (pages : list Page.t) (projectUrl : string)
    (c : Cache) :
  Js.truthy (CUSTOM_SITE_NAME cfg) = false ->
  newURL web projectUrl = None ->
  pages <> [] ->
  createJcrPackage cfg web dirHandle pages projectUrl c
  = (Throw (TypeError "Invalid URL"), mkCache (PagesArray []) [], []).
Proof.
  intros Hsite Hurl Hne. unfold createJcrPackage.
  destruct pages as [|page pages]; [contradiction|]. cbn [length Nat.eqb].
  unfold bind, init, lift, getPackageName, getSiteName, new_URL.
  now rewrite Hsite, Hurl.
Qed.

(** X19. A page that holds an element with an empty [fileReference] aborts
    the build it is part of before anything is written, wherever it
    stands among the pages; the asset cache is left empty. *)
Theorem build_empty_reference_aborts (cfg : Config) (web : Browser)
    (dirHandle : DirHandle) (pages : list Page.t) (projectUrl : string)
    (page : Page.t) (c c' : Cache) (r : outcome unit) (t : list Event) :
  In page pages ->
  In "" (fileReferences web (Page.data page)) ->
  createJcrPackage cfg web dirHandle pages projectUrl c = (r, c', t) ->
  (exists e, r = Throw e) /\ writes t = [] /\ jcrAssets c' = [].
Proof.
  intros Hpage Href H. unfold createJcrPackage in H.
  destruct (Nat.eqb (length pages) 0) eqn:Hlen.
  { destruct pages; [destruct Hpage | discriminate Hlen]. }
  apply bind_inv in H as [(e & H & _)|(u & c0 & t1 & t2 & Hi & H & ->)];
    [discriminate H|].
  unfold init in Hi. injection Hi as _ <- <-. cbn [app].
  apply bind_inv in H as [(e & H & ->)|(name & c1 & t3 & t4 & Hn & H & ->)].
  { unfold lift in H. injection H as _ <- <-. eauto. }
  unfold lift in Hn. injection Hn as _ <- <-. cbn [app].
  apply bind_inv in H as [(e & H & ->)|(resolved & c2 & t5 & t6 & Hp & _ & _)].
  - split; [now exists e|]. split.
    + exact (getJcrPages_writeless cfg web _ _ _ _ _ _ H).
    + exact (getJcrPages_sameAssets cfg web _ _ _ _ _ _ H).
  - apply (getJcrPages_empty_reference cfg web _ _ page) in Hp as [e Hp];
      [discriminate Hp | assumption | assumption | reflexivity].
Qed.

(** ** The empty ancestor pages as prefixes of the page paths *)

Lemma split_app (sep : ascii) (a b : string) :
  Js.split sep (a ++ String sep b) = (Js.split sep a ++ Js.split sep b)%list.
Proof.
  induction a as [|ch a IH]; cbn [Js.split append].
  - now rewrite Ascii.eqb_refl.
  - destruct (Ascii.eqb ch sep); rewrite IH; [reflexivity|].
    destruct (split_cons sep a) as (x & xs & ->). reflexivity.
Qed.

Lemma ancestorChain_prefix (segments : list string) :
  forall ancestorPath x,
    In x (ancestorChain ancestorPath segments) ->
    (exists rest,
        ancestorPath ++ "/" ++ Js.join "/" segments = x ++ "/" ++ rest)
    /\ exists y, x = ancestorPath ++ "/" ++ y.
Proof.
  induction segments as [|s rest IH]; intros ancestorPath x H;
    [destruct H|].
  destruct rest as [|s' rest]; [destruct H|].
  rewrite ancestorChain_cons in H.
  change (Js.join "/" (s :: s' :: rest))
    with (s ++ "/" ++ Js.join "/" (s' :: rest)).
  destruct H as [<-|H].
  - split; [|now exists s].
    exists (Js.join "/" (s' :: rest)). now rewrite !append_assoc.
  - apply IH in H as [(tail & H) (y & ->)]. split.
    + exists tail. rewrite <- H. now rewrite !append_assoc.
    + exists (s ++ "/" ++ y). now rewrite !append_assoc.
Qed.

Lemma ancestorChain_complete (before after : list string) :
  before <> [] -> after <> [] ->
  forall ancestorPath,
    In (ancestorPath ++ "/" ++ Js.join "/" before)
      (ancestorChain ancestorPath (before ++ after)).
Proof.
  intros Hb Ha. induction before as [|s before IH]; [contradiction|].
  intros ancestorPath. destruct before as [|s' before].
  - destruct after as [|s' after]; [contradiction|].
    cbn [app]. rewrite ancestorChain_cons. now left.
  - cbn [app] in *. rewrite ancestorChain_cons. right.
    change (Js.join "/" (s :: s' :: before))
      with (s ++ "/" ++ Js.join "/" (s' :: before)).
    specialize (IH ltac:(discriminate) (ancestorPath ++ "/" ++ s)).
    now rewrite !append_assoc in *.
Qed.

Lemma requiredAncestors_prefixes (pagePath x : string) :
  Js.startsWith pagePath "/content/" = true ->
  In x (requiredAncestors pagePath) <->
  Js.startsWith x "/content/" = true
  /\ exists rest, pagePath = x ++ "/" ++ rest.
Proof.
  intros Hp. apply startsWith_inv in Hp as [r ->].
  unfold requiredAncestors.
  change ("/content/" ++ r) with ("" ++ String "/" ("content" ++ String "/" r)).
  rewrite !split_segment by reflexivity. cbn [skipn]. split.
  - intros H. apply ancestorChain_prefix in H as [(rest & H) (y & ->)].
    split; [exact (startsWith_app "/content/" y)|].
    exists rest. rewrite <- H. now rewrite join_split.
  - intros (Hx & rest & H). apply startsWith_inv in Hx as [y ->].
    cbn in H. injection H as ->. rewrite split_app.
    destruct (split_cons "/" y) as (a & az & Ey).
    destruct (split_cons "/" rest) as (b & bz & Er).
    pose proof (ancestorChain_complete (Js.split "/" y) (Js.split "/" rest))
      as Hc.
    rewrite join_split in Hc.
    change ("/content/" ++ y) with ("/content" ++ "/" ++ y). apply Hc.
    + rewrite Ey. discriminate.
    + rewrite Er. discriminate.
Qed.

(** X20. Every empty ancestor page is the fixed descriptor of its path. Among
    page paths under [/content/], the paths of the empty ancestor pages
    are the texts under [/content/] that some page path continues with a
    slash and that are not page paths themselves. *)
Theorem ancestors_are_proper_prefixes (pages : list JcrPage.t) :
  Forall (fun page => Js.startsWith (JcrPage.jcrPath page) "/content/" = true)
    pages ->
  Forall (fun a => a = emptyAncestor (Ancestor.jcrPath a))
    (getEmptyAncestorPages pages)
  /\ forall x,
       In x (map Ancestor.jcrPath (getEmptyAncestorPages pages)) <->
       Js.startsWith x "/content/" = true
       /\ ~ In x (map JcrPage.jcrPath pages)
       /\ exists page rest,
            In page pages /\ JcrPage.jcrPath page = x ++ "/" ++ rest.
Proof.
  intros Hpages. split.
  - unfold getEmptyAncestorPages. rewrite fold_ancestorLoop. cbn [app].
    apply Forall_forall. intros a Ha.
    apply in_map_iff in Ha as (x & <- & _). reflexivity.
  - intros x. rewrite getEmptyAncestorPages_paths, filter_In, in_flat_map.
    unfold notResolved.
    rewrite negb_true_iff, <- not_true_iff_false, arrayIncludes_In.
    rewrite Forall_forall in Hpages. split.
    + intros ((p & Hp & Hx) & Hnot).
      apply in_map_iff in Hp as (page & <- & Hpage).
      apply (requiredAncestors_prefixes _ _ (Hpages page Hpage)) in Hx
        as (Hstart & rest & Hrest).
      split; [assumption|]. split; [assumption|]. now exists page, rest.
    + intros (Hstart & Hnot & page & rest & Hpage & Hrest).
      split; [|assumption]. exists (JcrPage.jcrPath page).
      split; [now apply in_map|].
      apply (requiredAncestors_prefixes _ _ (Hpages page Hpage)).
      split; [assumption | now exists rest].
Qed.

Lemma build_invalid_project_url_witness :
  createJcrPackage shipped Demo.web Demo.dir [Demo.plainPage]
    "github.com/org/repo" (Demo.cacheAfter Demo.heroBuild)
  = (Throw (TypeError "Invalid URL"), Demo.empty, []).
Proof.
  apply build_invalid_project_url;
    [reflexivity | reflexivity | discriminate].
Defined.

Lemma build_empty_reference_aborts_witness :
  (exists e, fst (fst Demo.blankBuild) = Throw e)
  /\ writes (snd Demo.blankBuild) = []
  /\ jcrAssets (Demo.cacheAfter Demo.blankBuild) = [].
Proof.
  apply (build_empty_reference_aborts shipped Demo.webBlank Demo.dir
           [Demo.plainPage; Demo.blankPage] Demo.projectUrl Demo.blankPage
           Demo.empty).
  - right. left. reflexivity.
  - right. left. reflexivity.
  - vm_compute. reflexivity.
Defined.

Lemma ancestors_are_proper_prefixes_witness :
  exists page rest,
    In page Demo.siblings
    /\ JcrPage.jcrPath page = "/content/repo/a" ++ "/" ++ rest.
Proof.
  refine (proj2 (proj2 (proj1 (proj2 (ancestors_are_proper_prefixes
                                        Demo.siblings _)
                                 "/content/repo/a") _))).
  - vm_compute. repeat constructor.
  - vm_compute. right. left. reflexivity.
Defined.

(** ** The loading indicator of a button *)

Lemma removeCircle_element (localName : string)
    (props : list (string * PropValue)) (childNodes : list Node) :
  removeCircle (ElementNode localName props childNodes)
  = option_map (ElementNode localName props) (removeCircleIn childNodes).
Proof. reflexivity. Qed.

Lemma circles_element (localName : string)
    (props : list (string * PropValue)) (childNodes : list Node) :
  circles (ElementNode localName props childNodes)
  = (if isCircle (ElementNode localName props childNodes) then 1 else 0)
    + circlesIn childNodes.
Proof. reflexivity. Qed.

(** Induction on a node together with its list of children. *)
Lemma Node_forest_ind (P : Node -> Prop) (Q : list Node -> Prop) :
  (forall data, P (TextNode data)) ->
  (forall localName props childNodes,
      Q childNodes -> P (ElementNode localName props childNodes)) ->
  Q [] ->
  (forall child rest, P child -> Q rest -> Q (child :: rest)) ->
  (forall n, P n) /\ (forall l, Q l).
Proof.
  intros Htext Helement Hnil Hcons.
  assert (HP : forall n, P n).
  { fix IH 1. intros [data|localName props childNodes].
    - apply Htext.
    - apply Helement. induction childNodes as [|child rest IHrest].
      + exact Hnil.
      + apply Hcons; [apply IH | exact IHrest]. }
  split; [exact HP|].
  induction l as [|child rest IHrest]; [exact Hnil|].
  apply Hcons; [apply HP | exact IHrest].
Qed.

(** The search finds nothing exactly when there is no match, and what it
    removes takes at least one match away. *)
Lemma removeCircle_circles :
  (forall n,
      match removeCircle n with
      | Some n' => circles n' < circles n
      | None => circlesBelow n = 0
      end)
  /\ (forall l,
         match removeCircleIn l with
         | Some l' => circlesIn l' < circlesIn l
         | None => circlesIn l = 0
         end).
Proof.
  apply Node_forest_ind.
  - intros data. reflexivity.
  - intros localName props childNodes IH.
    rewrite removeCircle_element.
    destruct (removeCircleIn childNodes) as [l'|]; cbn [option_map].
    + rewrite !circles_element. cbn [isCircle]. lia.
    + exact IH.
  - reflexivity.
  - intros child rest IHchild IHrest. cbn [removeCircleIn circlesIn].
    destruct (isCircle child) eqn:Hc.
    + destruct child as [data|localName props childNodes];
        [discriminate Hc|].
      rewrite circles_element, Hc. lia.
    + destruct (removeCircle child) as [child'|].
      * cbn [circlesIn]. lia.
      * destruct (removeCircleIn rest) as [rest'|]; cbn [option_map].
        -- cbn [circlesIn]. lia.
        -- destruct child as [data|localName props childNodes];
             [exact IHrest|].
           rewrite circles_element, Hc. cbn [circlesBelow] in IHchild. lia.
Qed.

(** X22. On a button that holds no indicator, a call puts a new indicator in
    front of the children of the button and a second call takes it away
    again: the button is as it was. *)
Theorem toggleLoadingButton_round_trip (localName : string)
    (props : list (string * PropValue)) (childNodes : list Node) :
  circlesIn childNodes = 0 ->
  let button := ElementNode localName props childNodes in
  let loading := ElementNode localName props (newCircle :: childNodes) in
  toggleLoadingButton button = Ok loading
  /\ toggleLoadingButton loading = Ok button.
Proof.
  intros Hnone. cbv zeta. split; [|reflexivity].
  unfold toggleLoadingButton.
  pose proof (proj2 removeCircle_circles childNodes) as H.
  destruct (removeCircleIn childNodes) as [l'|]; [lia | reflexivity].
Qed.

(** X23. A call on an element never fails. Without a match below the button
    the new indicator becomes its first child, set to indeterminate and
    small, and is then the only match; with a match, children are only
    taken away, and fewer matches are left. *)
Theorem toggleLoadingButton_toggles (localName : string)
    (props : list (string * PropValue)) (childNodes : list Node) :
  exists childNodes',
    toggleLoadingButton (ElementNode localName props childNodes)
    = Ok (ElementNode localName props childNodes')
    /\ if Nat.eqb (circlesIn childNodes) 0
       then childNodes' = newCircle :: childNodes
            /\ circlesIn childNodes' = 1
       else circlesIn childNodes' < circlesIn childNodes.
Proof.
  unfold toggleLoadingButton.
  pose proof (proj2 removeCircle_circles childNodes) as H.
  destruct (removeCircleIn childNodes) as [l'|].
  - exists l'. split; [reflexivity|].
    destruct (Nat.eqb_spec (circlesIn childNodes) 0); [lia | exact H].
  - exists (newCircle :: childNodes). split; [reflexivity|].
    rewrite H. cbn [Nat.eqb]. split; [reflexivity|].
    cbn [circlesIn]. rewrite H. reflexivity.
Qed.

Lemma toggleLoadingButton_round_trip_witness :
  toggleLoadingButton Demo.button
  = Ok (ElementNode "sp-button" [("id", StringProp "import")]
          [newCircle;
           ElementNode "span" [] [TextNode "Import"];
           ElementNode "sp-icon" [] []])
  /\ toggleLoadingButton
       (ElementNode "sp-button" [("id", StringProp "import")]
          [newCircle;
           ElementNode "span" [] [TextNode "Import"];
           ElementNode "sp-icon" [] []])
     = Ok Demo.button.
Proof.
  exact (toggleLoadingButton_round_trip "sp-button"
           [("id", StringProp "import")]
           [ElementNode "span" [] [TextNode "Import"];
            ElementNode "sp-icon" [] []] eq_refl).
Defined.



(** ** The list of resource paths *)

Section ResourceLists.

Variable cfg : Config.
Variable web : Browser.

(** A page path lies under [/content/] even when the project has no
    site name. *)
Lemma getJcrPagePath_content_root (path projectUrl p : string) :
  getJcrPagePath cfg web path projectUrl = Ok p ->
  Js.startsWith p "/content/" = true.
Proof.
  unfold getJcrPagePath.
  destruct (getSiteName cfg web projectUrl) as [siteName|e]; cbn [obind];
    [|discriminate].
  destruct (Js.startsWith path "/content/") eqn:Hp.
  - apply startsWith_inv in Hp as [r ->].
    destruct (split_cons "/" r) as (t & ts & Hr).
    intros [= <-]. cbn -[Js.join Js.startsWith]. rewrite Hr.
    cbn -[Js.join Js.startsWith].
    change (Js.join "/" ("" :: "content" :: Js.joinItem siteName
                           :: map Js.joinItem (map Some ts)))
      with ("/content/" ++ Js.join "/" (Js.joinItem siteName
                           :: map Js.joinItem (map Some ts))).
    exact (startsWith_app "/content/" _).
  - intros [= <-]. exact (startsWith_app "/content/" _).
Qed.

Lemma getResourcePaths_pages (resolved : list JcrPage.t) :
  Forall (fun page => Js.startsWith (JcrPage.jcrPath page) "/content/" = true)
    resolved ->
  getResourcePaths resolved false = map JcrPage.jcrPath resolved.
Proof.
  induction 1 as [|page resolved Hpage _ IH]; [reflexivity|].
  unfold getResourcePaths in *. cbn [map flat_map].
  cbn [resource_add resource_jcrPath Resource_JcrPage].
  assert (Ht : Js.truthy (Some (JcrPage.jcrPath page)) = true).
  { apply startsWith_inv in Hpage as [rest ->]. reflexivity. }
  rewrite Ht. cbn [andb orb negb app]. f_equal. exact IH.
Qed.

Lemma resolves_content_root (projectUrl : string) (pages : list Page.t)
    (resolved : list JcrPage.t) :
  Forall2 (resolves cfg web projectUrl) pages resolved ->
  Forall (fun page => Js.startsWith (JcrPage.jcrPath page) "/content/" = true)
    resolved.
Proof.
  induction 1 as [|page r pages resolved (_ & _ & _ & Hp & _) _ IH];
    constructor; [|exact IH].
  exact (getJcrPagePath_content_root _ _ _ Hp).
Qed.

(** X21. Called on the empty cache for at least one page, [getJcrPaths] makes
    no write and returns the canonical paths of the pages, in page order,
    followed by those of the cached assets, in cache order; the pages are
    resolved from the pages given, and every cached asset is included. *)
Theorem getJcrPaths_lists (pages : list Page.t) (projectUrl : string)
    (c c' : Cache) (paths : list string) (t : list Event) :
  jcrPages c = PagesArray [] -> jcrAssets c = [] -> pages <> [] ->
  getJcrPaths cfg web pages projectUrl c = (Ok paths, c', t) ->
  exists resolved,
    jcrPages c' = PagesArray resolved
    /\ Forall2 (resolves cfg web projectUrl) pages resolved
    /\ Forall included (jcrAssets c')
    /\ map Some paths
       = (map (fun page => Some (JcrPage.jcrPath page)) resolved
          ++ map Asset.jcrPath (jcrAssets c'))%list
    /\ writes t = [].
Proof.
  intros Hc Hassets Hne H.
  pose proof (getJcrPaths_writeless cfg web _ _ _ _ _ _ H) as Hw.
  unfold getJcrPaths in H.
  apply bind_Ok_inv in H as (resolved & c1 & t1 & t2 & Hp & H & ->).
  pose proof (getJcrPages_Forall2 cfg web _ _ _ _ _ _ Hc Hp) as Hres.
  apply getJcrPages_fresh in Hp as (-> & Hlr & _ & _); [|assumption].
  assert (Hnonempty : resolved <> []).
  { intros ->. destruct pages; [contradiction | discriminate Hlr]. }
  apply bind_Ok_inv in H as (u & c2 & t3 & t4 & Hs & H & ->).
  injection Hs as _ <- <-. cbn [jcrAssets] in H.
  apply bind_Ok_inv in H as (assets & c3 & t5 & t6 & Ha & H & ->).
  pose proof (getJcrAssets_keepsAll cfg web included
                (getAsset_included cfg web) pages projectUrl _ _ _ _ Ha)
    as Hinc.
  apply (getJcrAssets_run cfg web pages projectUrl _ _ resolved) in Ha
    as (Hpg & Has & _ & _ & _); [|reflexivity|assumption].
  unfold keepsAll in Hinc. cbn [jcrAssets] in Hinc. rewrite Hassets in Hinc.
  specialize (Hinc (Forall_nil _)). rewrite Has in Hinc.
  apply bind_Ok_inv in H as (u' & c4 & t7 & t8 & Hs & H & ->).
  injection Hs as _ <- <-.
  unfold bind, getCache, lift, ret in H. cbn [jcrPages] in H.
  rewrite Hpg in H. cbn in H. injection H as <- <- _.
  exists resolved. cbn [jcrPages jcrAssets].
  split; [reflexivity|]. split; [assumption|]. split; [assumption|].
  split; [|exact Hw].
  rewrite map_app, (getResourcePaths_included _ Hinc),
    (getResourcePaths_pages _ (resolves_content_root _ _ _ Hres)), map_map.
  reflexivity.
Qed.

End ResourceLists.

Lemma getJcrPaths_lists_witness :
  let run := getJcrPaths shipped Demo.web [Demo.plainPage; Demo.galleryPage]
               Demo.projectUrl Demo.empty in
  fst (fst run)
  = Ok ["/content/repo/a/b"; "/content/repo/a/c";
        "/content/dam/repo/media/a_width100.png";
        "/content/dam/repo/a/b.jpg"]
  /\ Forall included (jcrAssets (snd (fst run))).
Proof.
  intros run. split; [vm_compute; reflexivity|].
  destruct (getJcrPaths_lists shipped Demo.web
              [Demo.plainPage; Demo.galleryPage] Demo.projectUrl Demo.empty
              (snd (fst run))
              ["/content/repo/a/b"; "/content/repo/a/c";
               "/content/dam/repo/media/a_width100.png";
               "/content/dam/repo/a/b.jpg"]
              (snd run) eq_refl eq_refl)
    as (resolved & _ & _ & Hinc & _).
  - discriminate.
  - vm_compute. reflexivity.
  - exact Hinc.
Defined.

Example toggleLoadingButton_own_indicator :
  toggleLoadingButton Demo.buttonWithOwn = Ok Demo.button
  /\ obind (toggleLoadingButton Demo.buttonWithOwn) toggleLoadingButton
     <> Ok Demo.buttonWithOwn.
Proof. split; [reflexivity | vm_compute; discriminate]. Qed.
